(** * Demolish Dash: room lifecycle, relay persistence, seed selection and
      ranking convergence

    A shallow embedding of the synchronisation core of the party game:
    the entity model ([core/Ghost.ts]), the room and game managers
    ([core/Room.ts], [core/GameManager.ts]), the REST and socket handlers of
    the server, the elimination and ranking code of the minigames, and the
    handlers of the screens ([App.tsx], the lobby and the scoreboard).

    Conventions of the embedding.
    - JavaScript integers (ranks, points, scores, hashes, array indices)
      are [Z]; 32-bit bit operations are written out with their
      wrap-around.  Timestamps, clock readings, cooldowns and coordinates
      are exact rationals [Q]: rounding of IEEE doubles is not modelled.
    - Strings are [string]s of 8-bit characters, which covers the room code
      alphabet and the UUID identifiers the database hands out;
      [charCodeAt] is the character's code.
    - A JavaScript [Map] is an association list kept in insertion order with
      unique keys; a JSON object is a [gmap string _]; a database table is
      the list of its rows in insertion order.
    - [Math.random()], [Date.now()], the frame timestamp and the UUID chosen
      by the database are inputs of the function that consumes them. *)

From Stdlib Require Import QArith Qround Ascii Lqa Lia.
From stdpp Require Import base option list gmap strings pretty sorting.

Open Scope Z_scope.

(** ** JavaScript numbers *)

Module Js.

(** [ToInt32]: the value every bitwise operator first reduces its operands
    to. *)
Definition toInt32 (z : Z) : Z := (z + 2 ^ 31) `mod` 2 ^ 32 - 2 ^ 31.

(** [a << n] for [0 <= n < 32]. *)
Definition shl (a n : Z) : Z := toInt32 (Z.shiftl (toInt32 a) n).

(** [a & b]. *)
Definition band (a b : Z) : Z := toInt32 (Z.land (toInt32 a) (toInt32 b)).

(** [Math.max] and comparison on rationals, as booleans. *)
Definition Qleb (a b : Q) : bool := Qle_bool a b.
Definition Qltb (a b : Q) : bool := negb (Qle_bool b a).
Definition Qeqb (a b : Q) : bool := Qeq_bool a b.
Definition Qmax (a b : Q) : Q := if Qleb a b then b else a.

Definition Qmin (a b : Q) : Q := if Qleb a b then a else b.

(** [Math.floor(u * n)], the index drawn by [Math.random() * n]. *)
Definition floor_mul (u : Q) (n : nat) : Z := Qfloor (u * inject_Z (Z.of_nat n)).

(** *** Strings *)

Definition charCode (c : ascii) : Z := Z.of_N (N_of_ascii c).

(** White space removed by [String.prototype.trim] among 8-bit characters:
    TAB, LF, VT, FF, CR, SPACE and NBSP. *)
Definition is_space (c : ascii) : bool :=
  let n := N_of_ascii c in
  ((9 <=? n) && (n <=? 13) || (n =? 32) || (n =? 160))%N.

Fixpoint trimStart (s : string) : string :=
  match s with
  | String c s' => if is_space c then trimStart s' else s
  | EmptyString => EmptyString
  end.

Definition trim (s : string) : string :=
  String.rev (trimStart (String.rev (trimStart s))).

(** A string that [trim] leaves as it is: no white space at either end. *)
Definition no_leading_space (s : string) : Prop :=
  match s with
  | String c _ => is_space c = false
  | EmptyString => True
  end.

Definition trimmed (s : string) : Prop :=
  no_leading_space s ∧ no_leading_space (String.rev s).

(** [String.prototype.toUpperCase] on 8-bit characters; it does not depend
    on the locale.  The letters a-z and the accented letters 224-254 (all
    but the division sign, 247) go to their capitals, 32 places below.  The
    sharp s (223) becomes the two characters [SS], so the result can be
    longer than the text.  The capitals of the characters 255 (y with
    diaeresis) and 181 (micro sign) are U+0178 and U+039C, which are not
    8-bit characters: in what [toUpperCase] returns, 255 and 181 stand for
    these capitals (it never returns the small letters themselves), and
    they are left alone as the capitals are. *)
Definition upper_char (c : ascii) : ascii :=
  let n := N_of_ascii c in
  if ((97 <=? n) && (n <=? 122) || (224 <=? n) && (n <=? 254) && negb (n =? 247))%N
  then ascii_of_N (n - 32) else c.

Definition sharp_s : ascii := ascii_of_N 223.

Fixpoint toUpperCase (s : string) : string :=
  match s with
  | String c s' =>
      if Ascii.eqb c sharp_s then String "S" (String "S" (toUpperCase s'))
      else String (upper_char c) (toUpperCase s')
  | EmptyString => EmptyString
  end.

(** [chars.charAt(i)]: the one-character string at [i], empty out of range. *)
Definition charAt (s : string) (i : Z) : string :=
  if i <? 0 then EmptyString
  else match String.get (Z.to_nat i) s with
       | Some c => String c EmptyString
       | None => EmptyString
       end.

(** *** Arrays *)

Section Sort.
Context {A : Type} (cmp : A → A → Z).

(** [Array.prototype.sort(cmp)] is stable; for a consistent comparator the
    stable sort of a list is determined by the comparator, and is computed
    here by insertion from the right: an element goes in front of the first
    one it does not compare greater than. *)
Fixpoint insert_sorted (x : A) (l : list A) : list A :=
  match l with
  | [] => [x]
  | y :: l' => if cmp x y <=? 0 then x :: l else y :: insert_sorted x l'
  end.

Definition sort (l : list A) : list A := foldr insert_sorted [] l.
End Sort.

(** [arr[i]]: [undefined] out of range. *)
Definition nth {A} (l : list A) (i : Z) : option A :=
  if i <? 0 then None else l !! Z.to_nat i.

(** [arr.forEach((x, index) => ...)] threading a state: the loop from
    position [index] on, and the whole loop. *)
Fixpoint forEach_from {A S} (f : S → A → nat → S) (l : list A) (index : nat) (s : S) : S :=
  match l with
  | [] => s
  | x :: l' => forEach_from f l' (Datatypes.S index) (f s x index)
  end.

Definition forEach_i {A S} (f : S → A → nat → S) (l : list A) (s : S) : S :=
  forEach_from f l 0 s.

(** [arr.splice(start, 1)]: the element removed, if any, and the array
    left.  A negative [start] counts from the end. *)
Definition splice1 {A} (l : list A) (start : Z) : option A * list A :=
  let len := Z.of_nat (length l) in
  let start := if start <? 0 then Z.max (len + start) 0 else Z.min start len in
  (l !! Z.to_nat start, delete (Z.to_nat start) l).

(** [arr.includes(x)] on an array of strings. *)
Definition includes (l : list string) (x : string) : bool := bool_decide (x ∈ l).

(** *** Maps *)

(** [new Map()], [m.set(k, v)], [m.get(k)], [m.values()]. *)
Definition Map (V : Type) := list (string * V).

Fixpoint Map_set {V} (k : string) (v : V) (m : Map V) : Map V :=
  match m with
  | [] => [(k, v)]
  | (k', v') :: m' => if decide (k' = k) then (k, v) :: m' else (k', v') :: Map_set k v m'
  end.

Fixpoint Map_get {V} (k : string) (m : Map V) : option V :=
  match m with
  | [] => None
  | (k', v') :: m' => if decide (k' = k) then Some v' else Map_get k m'
  end.

Definition Map_values {V} (m : Map V) : list V := m.*2.

(** A method call that mutates the object stored under [k]. *)
Definition Map_modify {V} (k : string) (f : V → V) (m : Map V) : Map V :=
  (λ kv, if decide (kv.1 = k) then (kv.1, f kv.2) else kv) <$> m.

(** The functions the host supplies: [Math.sqrt] and the collation behind
    [String.prototype.localeCompare]. *)
Record Host := {
  Math_sqrt : Q → Q;
  localeCompare : string → string → Z;
}.

End Js.

(** ** The entity model: [core/Ghost.ts] *)

Module GhostPosition.
Record t := { x : Q; y : Q }.
End GhostPosition.
Abbreviation GhostPosition := GhostPosition.t.

Module Ghost.

Record t := {
  id : string;
  name : string;
  color : string;
  position : GhostPosition;
  velocity : GhostPosition;
  isDashing : bool;
  dashCooldown : Q;
  hasBomb : bool;
  dashTimeout : option Z;
}.

Definition baseSpeed : Q := 3.
Definition dashSpeed : Q := 8.
Definition dashDuration : Z := 500.

(** [new Ghost(id, name, color, startX, startY)]. *)
Definition new (i n c : string) (startX startY : Q) : t :=
  {| id := i; name := n; color := c;
     position := {| GhostPosition.x := startX; GhostPosition.y := startY |};
     velocity := {| GhostPosition.x := 0; GhostPosition.y := 0 |};
     isDashing := false; dashCooldown := 0; hasBomb := false;
     dashTimeout := None |}.

Definition set_isDashing (b : bool) (g : t) : t :=
  {| id := id g; name := name g; color := color g; position := position g;
     velocity := velocity g; isDashing := b; dashCooldown := dashCooldown g;
     hasBomb := hasBomb g; dashTimeout := dashTimeout g |}.

Definition set_dashCooldown (c : Q) (g : t) : t :=
  {| id := id g; name := name g; color := color g; position := position g;
     velocity := velocity g; isDashing := isDashing g; dashCooldown := c;
     hasBomb := hasBomb g; dashTimeout := dashTimeout g |}.

Definition set_hasBomb (b : bool) (g : t) : t :=
  {| id := id g; name := name g; color := color g; position := position g;
     velocity := velocity g; isDashing := isDashing g; dashCooldown := dashCooldown g;
     hasBomb := b; dashTimeout := dashTimeout g |}.

Definition set_dashTimeout (h : option Z) (g : t) : t :=
  {| id := id g; name := name g; color := color g; position := position g;
     velocity := velocity g; isDashing := isDashing g; dashCooldown := dashCooldown g;
     hasBomb := hasBomb g; dashTimeout := h |}.

Definition set_position (p : GhostPosition) (g : t) : t :=
  {| id := id g; name := name g; color := color g; position := p;
     velocity := velocity g; isDashing := isDashing g; dashCooldown := dashCooldown g;
     hasBomb := hasBomb g; dashTimeout := dashTimeout g |}.

Definition set_velocity (v : GhostPosition) (g : t) : t :=
  {| id := id g; name := name g; color := color g; position := position g;
     velocity := v; isDashing := isDashing g; dashCooldown := dashCooldown g;
     hasBomb := hasBomb g; dashTimeout := dashTimeout g |}.

(** A timer armed with [window.setTimeout(callback, delay)]: its handle and
    its delay.  The only callback an entity arms is [dashExpired]. *)
Record Timer := { handle : Z; delay : Z }.


(** [activateDash()]; [h] is the handle [window.setTimeout] returns.  The
    result is the entity after the call and the timer armed by it, if any. *)
Definition activateDash (h : Z) (g : t) : t * option Timer :=
  if Js.Qleb (dashCooldown g) 0 && negb (isDashing g) then
    (set_dashTimeout (Some h) (set_isDashing true g),
     Some {| handle := h; delay := dashDuration |})
  else (g, None).

(** [updateCooldown(deltaTime)]. *)
Definition updateCooldown (deltaTime : Q) (g : t) : t :=
  if Js.Qltb 0 (dashCooldown g) then
    set_dashCooldown (Js.Qmax 0 (dashCooldown g - deltaTime)) g
  else g.

(** [move(dx, dy, bounds)]. *)
Definition move (H : Js.Host) (dx dy : Q) (width height : Q) (g : t) : t :=
  let speed := if isDashing g then dashSpeed else baseSpeed in
  let magnitude := Js.Math_sqrt H (dx * dx + dy * dy)%Q in
  let v := if Js.Qltb 0 magnitude
           then {| GhostPosition.x := (dx / magnitude * speed)%Q;
                   GhostPosition.y := (dy / magnitude * speed)%Q |}
           else {| GhostPosition.x := 0; GhostPosition.y := 0 |} in
  let px := (GhostPosition.x (position g) + GhostPosition.x v)%Q in
  let py := (GhostPosition.y (position g) + GhostPosition.y v)%Q in
  set_position
    {| GhostPosition.x := Js.Qmax 20 (Js.Qmin (width - 20) px);
       GhostPosition.y := Js.Qmax 20 (Js.Qmin (height - 20) py) |}
    (set_velocity v g).

(** [distanceTo(other)]. *)
Definition distanceTo (H : Js.Host) (a b : t) : Q :=
  let dx := (GhostPosition.x (position a) - GhostPosition.x (position b))%Q in
  let dy := (GhostPosition.y (position a) - GhostPosition.y (position b))%Q in
  Js.Math_sqrt H (dx * dx + dy * dy)%Q.

End Ghost.

Abbreviation Ghost := Ghost.t.

(** ** Records of the API: [lib/api.ts] and the database schema *)

Inductive RoomStatus := waiting | playing | finished.
Inductive SessionStatus := pending | active | completed.

Global Instance RoomStatus_eq_dec : EqDecision RoomStatus.
Proof. solve_decision. Defined.
Global Instance SessionStatus_eq_dec : EqDecision SessionStatus.
Proof. solve_decision. Defined.

Module Room.
Record t := {
  id : string;
  room_code : string;
  host_name : string;
  min_players : Z;
  max_games : Z;
  status : RoomStatus;
}.
Definition set_status (s : RoomStatus) (r : t) : t :=
  {| id := id r; room_code := room_code r; host_name := host_name r;
     min_players := min_players r; max_games := max_games r; status := s |}.
End Room.
Abbreviation Room := Room.t.

Module Player.
Record t := {
  id : string;
  room_id : string;
  player_name : string;
  ghost_color : string;
  total_score : Z;
}.
Definition set_total_score (n : Z) (p : t) : t :=
  {| id := id p; room_id := room_id p; player_name := player_name p;
     ghost_color := ghost_color p; total_score := n |}.
End Player.
Abbreviation Player := Player.t.

Module GameResult.
Record t := {
  player_id : string;
  player_name : string;
  rank : Z;
  points : Z;
}.
End GameResult.
Abbreviation GameResult := GameResult.t.

(** JSON values, for the free-form [game_state] column and the payloads of
    the relay. *)
#[warnings="-register-all"]
Inductive Json :=
| JNull
| JBool (b : bool)
| JNum (n : Q)
| JStr (s : string)
| JArr (l : list Json)
| JObj (o : gmap string Json).

(** JavaScript truthiness of a JSON value. *)
Definition truthy (v : Json) : bool :=
  match v with
  | JNull => false
  | JBool b => b
  | JNum n => negb (Js.Qeqb n 0)
  | JStr s => negb (bool_decide (s = EmptyString))
  | JArr _ | JObj _ => true
  end.

Module GameSession.
Record t := {
  id : string;
  room_id : string;
  game_type : string;
  game_number : Z;
  status : SessionStatus;
  results : list GameResult;
  game_state : gmap string Json;
  started_at : option string;
  completed_at : option string;
}.
Definition set_game_state (gs : gmap string Json) (s : t) : t :=
  {| id := id s; room_id := room_id s; game_type := game_type s;
     game_number := game_number s; status := status s; results := results s;
     game_state := gs; started_at := started_at s; completed_at := completed_at s |}.
End GameSession.
Abbreviation GameSession := GameSession.t.

(** ** The server: REST handlers and relay of [server/index.js]

    The timestamp columns ([created_at], [updated_at], [joined_at]) are not
    kept: [ORDER BY joined_at] is the insertion order of the rows. *)

Module Server.

Record Db := {
  rooms : list Room;
  players : list Player;
  game_sessions : list GameSession;
}.

Definition set_rooms (rs : list Room) (db : Db) : Db :=
  {| rooms := rs; players := players db; game_sessions := game_sessions db |}.
Definition set_players (ps : list Player) (db : Db) : Db :=
  {| rooms := rooms db; players := ps; game_sessions := game_sessions db |}.
Definition set_game_sessions (ss : list GameSession) (db : Db) : Db :=
  {| rooms := rooms db; players := players db; game_sessions := ss |}.

(** The answer of a handler: the JSON body of a 2xx answer, or the status
    code of an error. *)
Inductive Response (A : Type) :=
| Ok (a : A)
| Error (code : Z).
Arguments Ok {A} a.
Arguments Error {A} code.

(** [UPDATE t SET ... WHERE id = k]: every row with that key is rewritten. *)
Definition update_where {A} (key : A → string) (k : string) (f : A → A) (rows : list A) : list A :=
  (λ r, if decide (key r = k) then f r else r) <$> rows.

(** [SELECT * FROM t WHERE id = k]. *)
Definition select_where {A} (key : A → string) (k : string) (rows : list A) : list A :=
  filter (λ r, key r = k) rows.

(** SQL [TRIM] removes spaces only.  [UPPER] maps a text character by
    character and keeps its length: the sharp s, which has no capital of
    one character, stays.  Both sides of the comparison in the query below
    go through it, and the side the handler passes has been through
    [toUpperCase] before, which [UPPER] leaves as it is. *)
Fixpoint sql_ltrim (s : string) : string :=
  match s with
  | String c s' => if Ascii.eqb c " " then sql_ltrim s' else s
  | EmptyString => EmptyString
  end.
Definition sql_trim (s : string) : string :=
  String.rev (sql_ltrim (String.rev (sql_ltrim s))).
Fixpoint sql_upper (s : string) : string :=
  match s with
  | String c s' => String (Js.upper_char c) (sql_upper s')
  | EmptyString => EmptyString
  end.

(** [GET /api/rooms/:roomCode]. *)
Definition get_room (roomCode : string) (db : Db) : Response Room :=
  if bool_decide (String.length (Js.trim roomCode) = 0%nat) then Error 400
  else
    let normalizedCode := Js.toUpperCase (Js.trim roomCode) in
    match filter (λ r, sql_upper (sql_trim (Room.room_code r))
                       = sql_upper (sql_trim normalizedCode)) (rooms db) with
    | [] => Error 404
    | r :: _ => Ok r
    end.

(** [PATCH /api/rooms/:roomId]. *)
Definition patch_room (roomId : string) (status : RoomStatus) (db : Db) : Db * Response Room :=
  match select_where Room.id roomId (rooms db) with
  | [] => (db, Error 404)
  | r :: _ =>
      (set_rooms (update_where Room.id roomId (Room.set_status status) (rooms db)) db,
       Ok (Room.set_status status r))
  end.

(** [POST /api/players]; [new_id] is the key [uuid_generate_v4()] draws.
    The insertion fails on a missing colour ([NOT NULL]), on a room that
    does not exist (foreign key) and on a key already in use. *)
Definition post_player (room_id player_name : string) (ghost_color : option string)
    (new_id : string) (db : Db) : Db * Response Player :=
  match ghost_color with
  | None => (db, Error 500)
  | Some c =>
      if bool_decide (select_where Room.id room_id (rooms db) = [])
         || negb (bool_decide (select_where Player.id new_id (players db) = []))
      then (db, Error 500)
      else
        let p := {| Player.id := new_id; Player.room_id := room_id;
                    Player.player_name := player_name; Player.ghost_color := c;
                    Player.total_score := 0 |} in
        (set_players (players db ++ [p]) db, Ok p)
  end.

(** [GET /api/rooms/:roomId/players]. *)
Definition get_room_players (roomId : string) (db : Db) : Response (list Player) :=
  Ok (select_where Player.room_id roomId (players db)).

(** [GET /api/players/:playerId]. *)
Definition get_player (playerId : string) (db : Db) : Response Player :=
  match select_where Player.id playerId (players db) with
  | [] => Error 404
  | p :: _ => Ok p
  end.

(** [PATCH /api/players/:playerId]. *)
Definition patch_player (playerId : string) (total_score : Z) (db : Db) : Db * Response Player :=
  match select_where Player.id playerId (players db) with
  | [] => (db, Error 404)
  | p :: _ =>
      (set_players (update_where Player.id playerId (Player.set_total_score total_score) (players db)) db,
       Ok (Player.set_total_score total_score p))
  end.

(** The body of [PATCH /api/game-sessions/:sessionId]: the fields that are
    not [undefined]. *)
Record SessionPatch := {
  patch_status : option SessionStatus;
  patch_results : option (list GameResult);
  patch_started_at : option string;
  patch_completed_at : option string;
  patch_game_state : option (gmap string Json);
}.

Definition apply_patch (b : SessionPatch) (s : GameSession) : GameSession :=
  {| GameSession.id := GameSession.id s;
     GameSession.room_id := GameSession.room_id s;
     GameSession.game_type := GameSession.game_type s;
     GameSession.game_number := GameSession.game_number s;
     GameSession.status := default (GameSession.status s) (patch_status b);
     GameSession.results := default (GameSession.results s) (patch_results b);
     GameSession.game_state := default (GameSession.game_state s) (patch_game_state b);
     GameSession.started_at :=
       match patch_started_at b with Some t => Some t | None => GameSession.started_at s end;
     GameSession.completed_at :=
       match patch_completed_at b with Some t => Some t | None => GameSession.completed_at s end |}.

Definition patch_is_empty (b : SessionPatch) : bool :=
  match patch_status b, patch_results b, patch_started_at b, patch_completed_at b,
        patch_game_state b with
  | None, None, None, None, None => true
  | _, _, _, _, _ => false
  end.

(** [PATCH /api/game-sessions/:sessionId]. *)
Definition patch_game_session (sessionId : string) (b : SessionPatch) (db : Db)
    : Db * Response GameSession :=
  if patch_is_empty b then (db, Error 400)
  else match select_where GameSession.id sessionId (game_sessions db) with
       | [] => (db, Error 404)
       | s :: _ =>
           (set_game_sessions
              (update_where GameSession.id sessionId (apply_patch b) (game_sessions db)) db,
            Ok (apply_patch b s))
       end.

(** *** The relay *)

(** What the server emits: the event, the session group it goes to and the
    payload.  [to_others] tells [socket.to(room)] (everyone but the sender)
    from [io.to(room)] (everyone). *)
Record Emit := {
  event : string;
  group : string;
  payload : gmap string Json;
  to_others : bool;
}.

(** [SELECT game_state FROM game_sessions WHERE id = k], first row. *)
Definition select_game_state (k : string) (db : Db) : option (gmap string Json) :=
  GameSession.game_state <$> head (select_where GameSession.id k (game_sessions db)).

(** [UPDATE game_sessions SET game_state = gs WHERE id = k]. *)
Definition update_game_state (k : string) (gs : gmap string Json) (db : Db) : Db :=
  set_game_sessions
    (update_where GameSession.id k (GameSession.set_game_state gs) (game_sessions db)) db.

(** [socket.on('game-state-update')]. *)
Definition on_game_state_update (gameSessionId : string) (gameState : gmap string Json)
    (db : Db) : Db * list Emit :=
  (update_game_state gameSessionId gameState db,
   [ {| event := "game-state-changed"; group := "game-" +:+ gameSessionId;
        payload := gameState; to_others := false |} ]).

(** [gameState.players[playerId] = entry], after
    [if (!gameState.players) gameState.players = {}].  When [players] holds
    a truthy value that is no object, the assignment throws (the module is
    strict) or, on an array, adds a property that [JSON.stringify] drops:
    either way the stored blob stays as it is. *)
Definition set_player_entry (playerId : string) (entry : Json) (gs : gmap string Json)
    : gmap string Json :=
  match gs !! "players" with
  | Some (JObj ps) => <["players" := JObj (<[playerId := entry]> ps)]> gs
  | Some v => if truthy v then gs else <["players" := JObj {[ playerId := entry ]}]> gs
  | None => <["players" := JObj {[ playerId := entry ]}]> gs
  end.

(** [socket.on('player-state-update')]; [now] is [new Date().toISOString()]. *)
Definition on_player_state_update (gameSessionId playerId : string) (position hasBomb : Json)
    (now : string) (db : Db) : Db * list Emit :=
  let entry := JObj (<["position" := position]>
                    (<["has_bomb" := hasBomb]> {[ "updated_at" := JStr now ]})) in
  let db' := match select_game_state gameSessionId db with
             | Some gs => update_game_state gameSessionId (set_player_entry playerId entry gs) db
             | None => db
             end in
  (db',
   [ {| event := "player-state-changed"; group := "game-" +:+ gameSessionId;
        payload := <["playerId" := JStr playerId]>
                   (<["position" := position]> {[ "hasBomb" := hasBomb ]});
        to_others := true |} ]).

(** The [disconnected_players] update of [socket.on('disconnect')]; on a
    truthy value that is no array the update throws and nothing is
    stored. *)
Definition add_disconnected (playerId : string) (gs : gmap string Json) : gmap string Json :=
  match gs !! "disconnected_players" with
  | Some (JArr l) =>
      if existsb (λ v, match v with JStr s => bool_decide (s = playerId) | _ => false end) l
      then gs else <["disconnected_players" := JArr (l ++ [JStr playerId])]> gs
  | Some v => if truthy v then gs else <["disconnected_players" := JArr [JStr playerId]]> gs
  | None => <["disconnected_players" := JArr [JStr playerId]]> gs
  end.

(** The process-wide registry of the relay. *)
Record Registry := {
  socketToPlayer : gmap string (string * string);
  playerToSocket : gmap string string;
}.

(** [socket.on('join-game')] with a payload [{ gameSessionId, playerId }];
    a missing [playerId] leaves the registry alone. *)
Definition on_join_game (socketId gameSessionId : string) (playerId : option string)
    (reg : Registry) : Registry :=
  match playerId with
  | Some p =>
      if bool_decide (p = EmptyString) then reg
      else {| socketToPlayer := <[socketId := (gameSessionId, p)]> (socketToPlayer reg);
              playerToSocket := <[p := socketId]> (playerToSocket reg) |}
  | None => reg
  end.

(** [socket.on('disconnect')]. *)
Definition on_disconnect (socketId : string) (reg : Registry) (db : Db)
    : Registry * Db * list Emit :=
  match socketToPlayer reg !! socketId with
  | Some (gameSessionId, playerId) =>
      let db' := match select_game_state gameSessionId db with
                 | Some gs => update_game_state gameSessionId (add_disconnected playerId gs) db
                 | None => db
                 end in
      ({| socketToPlayer := delete socketId (socketToPlayer reg);
          playerToSocket := delete playerId (playerToSocket reg) |},
       db',
       [ {| event := "player-disconnected"; group := "game-" +:+ gameSessionId;
            payload := <["playerId" := JStr playerId]>
                       {[ "gameSessionId" := JStr gameSessionId ]};
            to_others := false |} ])
  | None => (reg, db, [])
  end.

(** *** The remaining REST handlers *)

(** [POST /api/rooms]; [new_id] is the key the database draws.  The row
    must pass the [CHECK] constraints on [min_players] and [max_games]
    (any other database error answers 500), and a violation of a unique
    index, on the room code or on the key, answers 409. *)
Definition post_room (host_name : string) (min_players max_games : Z)
    (room_code new_id : string) (db : Db) : Db * Response Room :=
  if bool_decide (room_code = EmptyString) || (String.length (Js.trim room_code) =? 0)%nat
  then (db, Error 400)
  else
    let normalizedCode := Js.toUpperCase (Js.trim room_code) in
    if negb ((2 <=? min_players) && (min_players <=? 10)
             && (1 <=? max_games) && (max_games <=? 20))
    then (db, Error 500)
    else if negb (bool_decide (select_where Room.room_code normalizedCode (rooms db) = []))
            || negb (bool_decide (select_where Room.id new_id (rooms db) = []))
    then (db, Error 409)
    else
      let r := {| Room.id := new_id; Room.room_code := normalizedCode;
                  Room.host_name := host_name; Room.min_players := min_players;
                  Room.max_games := max_games; Room.status := waiting |} in
      (set_rooms (rooms db ++ [r]) db, Ok r).

(** The codes of the stored rooms are in the form [POST /api/rooms]
    stores them in: trimmed and in upper case. *)
Definition codes_normalised (db : Db) : Prop :=
  Forall (λ r, Js.toUpperCase (Js.trim (Room.room_code r)) = Room.room_code r) (rooms db).

(** [GET /api/rooms]. *)
Definition get_rooms (db : Db) : Response (list Room) :=
  match rooms db with
  | [] => Error 404
  | rs => Ok rs
  end.

(** One element of the body of [POST /api/game-sessions/batch]; a game
    type that is [undefined] arrives as [None]. *)
Record NewSession := {
  new_room_id : string;
  new_game_type : option string;
  new_game_number : Z;
}.

(** The row [INSERT INTO game_sessions] makes of an element, with the key
    the database draws for it. *)
Definition session_row (new_id : string) (s : NewSession) : option GameSession :=
  match new_game_type s with
  | Some game_type =>
      Some {| GameSession.id := new_id; GameSession.room_id := new_room_id s;
              GameSession.game_type := game_type;
              GameSession.game_number := new_game_number s;
              GameSession.status := pending; GameSession.results := [];
              GameSession.game_state := ∅; GameSession.started_at := None;
              GameSession.completed_at := None |}
  | None => None
  end.

(** [POST /api/game-sessions/batch]; [new_id i] is the key drawn for the
    [i]-th row.  The statement inserts all rows or none: an empty list (no
    [VALUES]), a missing game type, a room that does not exist or a key
    already in use answer 500. *)
Definition post_game_sessions_batch (sessions : list NewSession) (new_id : nat → string)
    (db : Db) : Db * Response (list GameSession) :=
  match mapM id (imap (λ i s, session_row (new_id i) s) sessions) with
  | Some (r :: rows) =>
      if forallb (λ s, negb (bool_decide (select_where Room.id (GameSession.room_id s)
                                            (rooms db) = []))) (r :: rows)
         && bool_decide (NoDup ((GameSession.id <$> game_sessions db)
                                ++ (GameSession.id <$> r :: rows)))
      then (set_game_sessions (game_sessions db ++ r :: rows) db, Ok (r :: rows))
      else (db, Error 500)
  | _ => (db, Error 500)
  end.

(** [GET /api/game-sessions/:sessionId]. *)
Definition get_game_session (sessionId : string) (db : Db) : Response GameSession :=
  match select_where GameSession.id sessionId (game_sessions db) with
  | [] => Error 404
  | s :: _ => Ok s
  end.

(** The [WHERE] clause of [GET /api/rooms/:roomId/game-sessions], with the
    optional [status] of the query. *)
Definition session_selected (roomId : string) (status : option SessionStatus)
    (s : GameSession) : bool :=
  bool_decide (GameSession.room_id s = roomId)
  && match status with
     | Some st => bool_decide (GameSession.status s = st)
     | None => true
     end.

(** The rows the query returns: the sessions of the room,
    [ORDER BY game_number ASC] (rows with the same number, whose order SQL
    leaves open, in insertion order). *)
Definition room_sessions (roomId : string) (status : option SessionStatus)
    (db : Db) : list GameSession :=
  Js.sort (λ a b, GameSession.game_number a - GameSession.game_number b)
    (filter (λ s, session_selected roomId status s = true) (game_sessions db)).

(** [GET /api/rooms/:roomId/game-sessions]. *)
Definition get_room_game_sessions (roomId : string) (status : option SessionStatus)
    (db : Db) : Response (list GameSession) :=
  Ok (room_sessions roomId status db).

(** Whether [gameState.players[playerId] = entry] throws: [players] holds a
    truthy number, string or boolean. *)
Definition player_entry_throws (gs : gmap string Json) : bool :=
  match gs !! "players" with
  | Some (JNum n) => truthy (JNum n)
  | Some (JStr s) => truthy (JStr s)
  | Some (JBool b) => b
  | _ => false
  end.

(** [POST /api/game-sessions/:sessionId/player-state]; [now] is
    [new Date().toISOString()]. *)
Definition post_player_state (sessionId player_id : string) (position has_bomb : Json)
    (now : string) (db : Db) : Db * Response unit :=
  match select_game_state sessionId db with
  | None => (db, Error 404)
  | Some gs =>
      if player_entry_throws gs then (db, Error 500)
      else
        let entry := JObj (<["position" := position]>
                          (<["has_bomb" := has_bomb]> {[ "updated_at" := JStr now ]})) in
        (update_game_state sessionId (set_player_entry player_id entry gs) db, Ok tt)
  end.

(** [GET /api/game-sessions/:sessionId/state]. *)
Definition get_state (sessionId : string) (db : Db) : Response (gmap string Json) :=
  match select_game_state sessionId db with
  | None => Error 404
  | Some gs => Ok gs
  end.

End Server.

(** ** The client side of the REST API: [lib/api.ts] *)

Module Api.

(** The world a client acts on: the database behind the server and the log
    of the requests sent so far, as method and endpoint. *)
Record World := {
  db : Server.Db;
  requests : list (string * string);
}.

(** An asynchronous computation: it changes the world and either resolves
    to a value or rejects. *)
Definition M (A : Type) : Type := World → World * option A.

Definition ret {A} (a : A) : M A := λ w, (w, Some a).
Definition throw {A} : M A := λ w, (w, None).
Definition bind {A B} (m : M A) (k : A → M B) : M B :=
  λ w, match m w with
       | (w', Some a) => k a w'
       | (w', None) => (w', None)
       end.

(** [try { m } catch { h }]. *)
Definition try_catch {A} (m : M A) (h : M A) : M A :=
  λ w, match m w with
       | (w', Some a) => (w', Some a)
       | (w', None) => h w'
       end.

(** [for (const x of l) { await f(x) }]. *)
Fixpoint for_of {A} (l : list A) (f : A → M unit) : M unit :=
  match l with
  | [] => ret tt
  | a :: l' => bind (f a) (λ _, for_of l' f)
  end.

(** The world after one more request that leaves the database alone. *)
Definition logged (w : World) (method endpoint : string) : World :=
  {| db := db w; requests := requests w ++ [(method, endpoint)] |}.

(** [request(endpoint, options)]: the request is logged, the handler runs
    on the database, and an answer that is not [ok] rejects. *)
Definition request {A} (method endpoint : string)
    (handler : Server.Db → Server.Db * Server.Response A) : M A :=
  λ w, let '(db', r) := handler (db w) in
       ({| db := db'; requests := requests w ++ [(method, endpoint)] |},
        match r with Server.Ok a => Some a | Server.Error _ => None end).

Definition rooms_getByCode (roomCode : string) : M Room :=
  request "GET" ("/api/rooms/" +:+ roomCode) (λ d, (d, Server.get_room roomCode d)).

Definition rooms_update (roomId : string) (status : RoomStatus) : M Room :=
  request "PATCH" ("/api/rooms/" +:+ roomId) (Server.patch_room roomId status).

Definition players_create (room_id player_name : string) (ghost_color : option string)
    (new_id : string) : M Player :=
  request "POST" "/api/players" (Server.post_player room_id player_name ghost_color new_id).

Definition players_getById (playerId : string) : M Player :=
  request "GET" ("/api/players/" +:+ playerId) (λ d, (d, Server.get_player playerId d)).

Definition players_getByRoom (roomId : string) : M (list Player) :=
  request "GET" ("/api/rooms/" +:+ roomId +:+ "/players")
    (λ d, (d, Server.get_room_players roomId d)).

Definition players_update (playerId : string) (total_score : Z) : M Player :=
  request "PATCH" ("/api/players/" +:+ playerId) (Server.patch_player playerId total_score).

Definition gameSessions_update (sessionId : string) (data : Server.SessionPatch) : M GameSession :=
  request "PATCH" ("/api/game-sessions/" +:+ sessionId) (Server.patch_game_session sessionId data).

Definition rooms_create (host_name : string) (min_players max_games : Z)
    (room_code new_id : string) : M Room :=
  request "POST" "/api/rooms" (Server.post_room host_name min_players max_games room_code new_id).

Definition gameSessions_createBatch (sessions : list Server.NewSession)
    (new_id : nat → string) : M (list GameSession) :=
  request "POST" "/api/game-sessions/batch" (Server.post_game_sessions_batch sessions new_id).

Definition gameSessions_getById (sessionId : string) : M GameSession :=
  request "GET" ("/api/game-sessions/" +:+ sessionId)
    (λ d, (d, Server.get_game_session sessionId d)).

Definition status_text (s : SessionStatus) : string :=
  match s with pending => "pending" | active => "active" | completed => "completed" end.

Definition gameSessions_getByRoom (roomId : string) (status : option SessionStatus)
    : M (list GameSession) :=
  request "GET"
    ("/api/rooms/" +:+ roomId +:+ "/game-sessions"
     +:+ match status with Some s => "?status=" +:+ status_text s | None => EmptyString end)
    (λ d, (d, Server.get_room_game_sessions roomId status d)).

End Api.

Global Instance Api_ret : MRet Api.M := @Api.ret.
Global Instance Api_bind : MBind Api.M := λ A B k m, Api.bind m k.

(** ** [core/Room.ts] *)

Module RoomManager.

Definition chars : string := "ABCDEFGHJKLMNPQRSTUVWXYZ23456789".

(** [generateRoomCode()]; [random i] is the value the [i]-th call of
    [Math.random()] returns. *)
Definition generateRoomCode (random : nat → Q) : string :=
  fold_left
    (λ code i, code +:+ Js.charAt chars (Js.floor_mul (random i) (String.length chars)))
    (seq 0 6) EmptyString.

Definition palette : list string :=
  ["blue"; "purple"; "pink"; "red"; "orange"; "yellow"; "green"; "cyan"; "white"; "gray"].

(** [joinRoom(roomCode, playerName)]; [u] is the value of [Math.random()]
    and [new_id] the key the database gives the new row, should the code
    get that far.  The tests [!room], [!existingPlayers] and [!player] are
    on parsed JSON answers, which are objects, and never fire. *)
Definition joinRoom (roomCode playerName : string) (u : Q) (new_id : string)
    : Api.M (option (Room * Player)) :=
  Api.try_catch
    (let roomCodeUpper := Js.toUpperCase (Js.trim roomCode) in
     if bool_decide (roomCodeUpper = EmptyString)
        || negb (String.length roomCodeUpper =? 6)%nat
     then mret None
     else
       room ← Api.rooms_getByCode roomCodeUpper;
       if negb (bool_decide (Room.status room = waiting)) then mret None
       else
         existingPlayers ← Api.players_getByRoom (Room.id room);
         let usedColors := Player.ghost_color <$> existingPlayers in
         let availableColors := filter (λ color, color ∉ usedColors) palette in
         if (length availableColors =? 0)%nat then mret None
         else if (10 <=? length existingPlayers)%nat then mret None
         else
           let randomColor :=
             Js.nth availableColors (Js.floor_mul u (length availableColors)) in
           player ← Api.players_create (Room.id room) playerName randomColor new_id;
           mret (Some (room, player)))
    (mret None).

(** [updateRoomStatus(roomId, status)]. *)
Definition updateRoomStatus (roomId : string) (status : RoomStatus) : Api.M bool :=
  Api.try_catch (_ ← Api.rooms_update roomId status; mret true) (mret false).

(** A sequence of calls of [updateRoomStatus] on one room, in order. *)
Definition updateRoomStatus_seq (roomId : string) (requested : list RoomStatus)
    (w : Api.World) : Api.World :=
  fold_left (λ w status, (updateRoomStatus roomId status w).1) requested w.

(** [createRoom(hostName, minPlayers, maxGames)]; [random] as for
    [generateRoomCode], the seventh value choosing the colour, and
    [room_id], [player_id] the keys the database draws.  The room stays
    when the player cannot be created. *)
Definition createRoom (hostName : string) (minPlayers maxGames : Z) (random : nat → Q)
    (room_id player_id : string) : Api.M (option (Room * Player)) :=
  Api.try_catch
    (let roomCode := generateRoomCode random in
     room ← Api.rooms_create hostName minPlayers maxGames roomCode room_id;
     let randomColor := Js.nth palette (Js.floor_mul (random 6%nat) (length palette)) in
     player ← Api.players_create (Room.id room) hostName randomColor player_id;
     mret (Some (room, player)))
    (mret None).

(** [getPlayers(roomId)]. *)
Definition getPlayers (roomId : string) : Api.M (list Player) :=
  Api.try_catch (Api.players_getByRoom roomId) (mret []).

(** [getRoomByCode(roomCode)]. *)
Definition getRoomByCode (roomCode : string) : Api.M (option Room) :=
  if bool_decide (roomCode = EmptyString) || (String.length (Js.trim roomCode) =? 0)%nat
  then mret None
  else
    Api.try_catch
      (let roomCodeUpper := Js.toUpperCase (Js.trim roomCode) in
       room ← Api.rooms_getByCode roomCodeUpper;
       mret (Some room))
      (mret None).

End RoomManager.

(** The status the database holds for a room, and the place of a status
    along waiting, playing, finished. *)
Definition status_of (roomId : string) (db : Server.Db) : option RoomStatus :=
  Room.status <$> head (Server.select_where Room.id roomId (Server.rooms db)).

Definition status_rank (s : RoomStatus) : nat :=
  match s with waiting => 0 | playing => 1 | finished => 2 end.

(** ** [core/GameManager.ts] *)

Module GameManager.

Definition calculatePoints (rank totalPlayers : Z) : Z := totalPlayers - rank + 1.

(** The body of the loop of [completeGame]: the score of one ranked player
    is read and written back with the points added; a failure is logged
    and the loop goes on. *)
Definition creditPlayer (result : GameResult) : Api.M unit :=
  Api.try_catch
    (player ← Api.players_getById (GameResult.player_id result);
     _ ← Api.players_update (GameResult.player_id result)
           (Player.total_score player + GameResult.points result);
     mret ())
    (mret ()).

(** [completeGame(gameId, results)]; [now] is [new Date().toISOString()]. *)
Definition completeGame (gameId : string) (results : list GameResult) (now : string)
    : Api.M bool :=
  Api.try_catch
    (_ ← Api.gameSessions_update gameId
           {| Server.patch_status := Some completed;
              Server.patch_results := Some results;
              Server.patch_started_at := None;
              Server.patch_completed_at := Some now;
              Server.patch_game_state := None |};
     _ ← Api.for_of results creditPlayer;
     mret true)
    (mret false).

Definition AVAILABLE_GAMES : list string :=
  ["falling_tiles"; "tag_bomb"; "platform_push"; "boulder_run"].

(** [createGameSessions(roomId, maxGames)]; [random i] is the value
    [Math.random()] returns in the turn of the loop that makes game
    [i + 1], and [new_id] the keys the database draws. *)
Definition createGameSessions (roomId : string) (maxGames : Z) (random : nat → Q)
    (new_id : nat → string) : Api.M bool :=
  Api.try_catch
    (let gameSessions :=
       (λ i, {| Server.new_room_id := roomId;
                Server.new_game_type :=
                  Js.nth AVAILABLE_GAMES
                    (Js.floor_mul (random i) (length AVAILABLE_GAMES));
                Server.new_game_number := Z.of_nat i + 1 |})
       <$> seq 0 (Z.to_nat maxGames) in
     _ ← Api.gameSessions_createBatch gameSessions new_id;
     mret true)
    (mret false).

(** [getNextGame(roomId)] and [getCurrentGame(roomId)]. *)
Definition getNextGame (roomId : string) : Api.M (option GameSession) :=
  Api.try_catch
    (games ← Api.gameSessions_getByRoom roomId (Some pending);
     mret (head games))
    (mret None).

Definition getCurrentGame (roomId : string) : Api.M (option GameSession) :=
  Api.try_catch
    (games ← Api.gameSessions_getByRoom roomId (Some active);
     mret (head games))
    (mret None).

(** [startGame(gameId)]; [now] is [new Date().toISOString()]. *)
Definition startGame (gameId : string) (now : string) : Api.M bool :=
  Api.try_catch
    (_ ← Api.gameSessions_update gameId
           {| Server.patch_status := Some active;
              Server.patch_results := None;
              Server.patch_started_at := Some now;
              Server.patch_completed_at := None;
              Server.patch_game_state := None |};
     mret true)
    (mret false).

(** [getAllGames(roomId)]. *)
Definition getAllGames (roomId : string) : Api.M (list GameSession) :=
  Api.try_catch (Api.gameSessions_getByRoom roomId None) (mret []).

End GameManager.

(** ** The seed selector: [simpleHash] and the selection it drives *)

(** One turn of the loop of [simpleHash]:
    [hash = ((hash << 5) - hash) + char; hash = hash & hash]. *)
Definition simpleHash_step (hash : Z) (c : ascii) : Z :=
  let hash := Js.shl hash 5 - hash + Js.charCode c in
  Js.band hash hash.

Fixpoint simpleHash_loop (str : string) (hash : Z) : Z :=
  match str with
  | EmptyString => hash
  | String c str' => simpleHash_loop str' (simpleHash_step hash c)
  end.

Definition simpleHash (str : string) : Z := Z.abs (simpleHash_loop str 0).

(** The polynomial [simpleHash] evaluates, without the reduction to 32
    bits: [s[0] * 31^(n-1) + ... + s[n-1]], started from [acc]. *)
Fixpoint hash31 (str : string) (acc : Z) : Z :=
  match str with
  | EmptyString => acc
  | String c str' => hash31 str' (31 * acc + Js.charCode c)
  end.

(** [sorted[simpleHash(text) % sorted.length]] with [sorted] the
    participants in ascending [localeCompare] order of their identities:
    the selection made at the start of the bomb game (over the roster, with
    the session identifier as text) and after an explosion (over the
    remaining entities, with the elimination count appended to the text). *)
Definition selectBySeed {A} (H : Js.Host) (key : A → string) (text : string)
    (participants : list A) : option A :=
  let sorted := Js.sort (λ a b, Js.localeCompare H (key a) (key b)) participants in
  let seed := simpleHash text in
  Js.nth sorted (Z.rem seed (Z.of_nat (length sorted))).

(** ** What the minigames publish through [gameSocket.updateGameState] *)

Module Msg.
(** A field is [None] when the published object has no such key;
    [bomb_holder_id] may be present and [null]. *)
Record t := {
  bomb_holder_id : option (option string);
  bomb_timer : option Q;
  last_bomb_pass_time : option Q;
  eliminated_players : option (list string);
  game_completed : option bool;
  results : option (list GameResult);
}.

Definition json_of_result (r : GameResult) : Json :=
  JObj (<["player_id" := JStr (GameResult.player_id r)]>
       (<["player_name" := JStr (GameResult.player_name r)]>
       (<["rank" := JNum (inject_Z (GameResult.rank r))]>
        {[ "points" := JNum (inject_Z (GameResult.points r)) ]}))).

Definition put (k : string) (v : option Json) (o : gmap string Json) : gmap string Json :=
  match v with Some j => <[k := j]> o | None => o end.

(** The JSON object that goes over the wire. *)
Definition to_json (m : t) : gmap string Json :=
  put "bomb_holder_id" ((λ h, match h with Some i => JStr i | None => JNull end)
                        <$> bomb_holder_id m)
  (put "bomb_timer" (JNum <$> bomb_timer m)
  (put "last_bomb_pass_time" (JNum <$> last_bomb_pass_time m)
  (put "eliminated_players" ((λ l, JArr (JStr <$> l)) <$> eliminated_players m)
  (put "game_completed" (JBool <$> game_completed m)
  (put "results" ((λ l, JArr (json_of_result <$> l)) <$> results m) ∅))))).
End Msg.
Abbreviation Msg := Msg.t.

(** What a frame or an event handler of a minigame leaves behind: the new
    state, the objects published in order, and the ranking handed to
    [onGameComplete], if the game completed. *)
Record Step (S : Type) := {
  next : S;
  published : list Msg;
  finished_with : option (list GameResult);
}.
Arguments next {S} _.
Arguments published {S} _.
Arguments finished_with {S} _.

(** The ranking every minigame hands over for a roster of fewer than two:
    [players.map(player => ({ ..., rank: 1, points: 1 }))]. *)
Definition everyone_first (players : list Player) : list GameResult :=
  (λ player, {| GameResult.player_id := Player.id player;
                GameResult.player_name := Player.player_name player;
                GameResult.rank := 1; GameResult.points := 1 |}) <$> players.

(** The keys held down, as the direction they ask for. *)
Definition has (keys : list string) (k : string) : bool := bool_decide (k ∈ keys).

Definition canvas_width : Q := 800.
Definition canvas_height : Q := 600.

(** ** The bomb game: [games/tag-bomb/TagBombGame.tsx] *)

Module TagBomb.

Record GameState := {
  ghosts : Js.Map Ghost;
  bombHolderId : option string;
  bombTimer : Q;
  eliminatedPlayers : list string;
  gameStartTime : Q;
  bombPassCooldown : Q;
  lastBombPassTime : Q;
  gameCompleted : bool;
}.

Definition set_ghosts (v : Js.Map Ghost) (s : GameState) : GameState :=
  {| ghosts := v; bombHolderId := bombHolderId s; bombTimer := bombTimer s;
     eliminatedPlayers := eliminatedPlayers s; gameStartTime := gameStartTime s;
     bombPassCooldown := bombPassCooldown s; lastBombPassTime := lastBombPassTime s;
     gameCompleted := gameCompleted s |}.
Definition set_bombHolderId (v : option string) (s : GameState) : GameState :=
  {| ghosts := ghosts s; bombHolderId := v; bombTimer := bombTimer s;
     eliminatedPlayers := eliminatedPlayers s; gameStartTime := gameStartTime s;
     bombPassCooldown := bombPassCooldown s; lastBombPassTime := lastBombPassTime s;
     gameCompleted := gameCompleted s |}.
Definition set_bombTimer (v : Q) (s : GameState) : GameState :=
  {| ghosts := ghosts s; bombHolderId := bombHolderId s; bombTimer := v;
     eliminatedPlayers := eliminatedPlayers s; gameStartTime := gameStartTime s;
     bombPassCooldown := bombPassCooldown s; lastBombPassTime := lastBombPassTime s;
     gameCompleted := gameCompleted s |}.
Definition set_eliminatedPlayers (v : list string) (s : GameState) : GameState :=
  {| ghosts := ghosts s; bombHolderId := bombHolderId s; bombTimer := bombTimer s;
     eliminatedPlayers := v; gameStartTime := gameStartTime s;
     bombPassCooldown := bombPassCooldown s; lastBombPassTime := lastBombPassTime s;
     gameCompleted := gameCompleted s |}.
Definition set_bombPassCooldown (v : Q) (s : GameState) : GameState :=
  {| ghosts := ghosts s; bombHolderId := bombHolderId s; bombTimer := bombTimer s;
     eliminatedPlayers := eliminatedPlayers s; gameStartTime := gameStartTime s;
     bombPassCooldown := v; lastBombPassTime := lastBombPassTime s;
     gameCompleted := gameCompleted s |}.
Definition set_lastBombPassTime (v : Q) (s : GameState) : GameState :=
  {| ghosts := ghosts s; bombHolderId := bombHolderId s; bombTimer := bombTimer s;
     eliminatedPlayers := eliminatedPlayers s; gameStartTime := gameStartTime s;
     bombPassCooldown := bombPassCooldown s; lastBombPassTime := v;
     gameCompleted := gameCompleted s |}.
Definition set_gameCompleted (v : bool) (s : GameState) : GameState :=
  {| ghosts := ghosts s; bombHolderId := bombHolderId s; bombTimer := bombTimer s;
     eliminatedPlayers := eliminatedPlayers s; gameStartTime := gameStartTime s;
     bombPassCooldown := bombPassCooldown s; lastBombPassTime := lastBombPassTime s;
     gameCompleted := v |}.

(** The objects the game publishes. *)
Definition msg_pass (holder : string) (now : Q) : Msg :=
  {| Msg.bomb_holder_id := Some (Some holder); Msg.bomb_timer := Some 30000%Q;
     Msg.last_bomb_pass_time := Some now; Msg.eliminated_players := None;
     Msg.game_completed := None; Msg.results := None |}.
Definition msg_exploded (eliminated : list string) : Msg :=
  {| Msg.bomb_holder_id := Some None; Msg.bomb_timer := None;
     Msg.last_bomb_pass_time := None; Msg.eliminated_players := Some eliminated;
     Msg.game_completed := None; Msg.results := None |}.
Definition msg_eliminated (eliminated : list string) : Msg :=
  {| Msg.bomb_holder_id := None; Msg.bomb_timer := None;
     Msg.last_bomb_pass_time := None; Msg.eliminated_players := Some eliminated;
     Msg.game_completed := None; Msg.results := None |}.
Definition msg_completed (eliminated : list string) (results : list GameResult) : Msg :=
  {| Msg.bomb_holder_id := None; Msg.bomb_timer := None;
     Msg.last_bomb_pass_time := None; Msg.eliminated_players := Some eliminated;
     Msg.game_completed := Some true; Msg.results := Some results |}.

(** What the mounting effect leaves: the game completed at once, the game
    is set up and its loop scheduled, or the effect threw. *)
Inductive Start :=
| Completed (results : list GameResult)
| Running (st : GameState)
| Threw.

(** The entities, laid out on a grid, in roster order. *)
Definition initGhosts (H : Js.Host) (players : list Player) : Js.Map Ghost :=
  let gridCols := Qceiling (Js.Math_sqrt H (inject_Z (Z.of_nat (length players)))) in
  let spacing := 150 in
  Js.forEach_i
    (λ ghosts player index,
       let col := Z.rem (Z.of_nat index) gridCols in
       let row := Z.of_nat index / gridCols in
       let x := inject_Z (150 + col * spacing) in
       let y := inject_Z (150 + row * spacing) in
       Js.Map_set (Player.id player)
         (Ghost.new (Player.id player) (Player.player_name player)
                    (Player.ghost_color player) x y) ghosts)
    players [].

(** The mounting effect; [now] is [Date.now()]. *)
Definition start (H : Js.Host) (players : list Player) (gameSessionId : string) (now : Q)
    : Start :=
  if (length players <? 2)%nat then Completed (everyone_first players)
  else
    let ghosts := initGhosts H players in
    match selectBySeed H Player.id gameSessionId players with
    | None => Threw
    | Some holder =>
        let initialBombHolderId := Player.id holder in
        Running
          {| ghosts := Js.Map_modify initialBombHolderId (Ghost.set_hasBomb true) ghosts;
             bombHolderId := Some initialBombHolderId;
             bombTimer := 30000;
             eliminatedPlayers := [];
             gameStartTime := now;
             bombPassCooldown := 0;
             lastBombPassTime := now;
             gameCompleted := false |}
    end.

(** The entities are those of the roster: one per player, in roster order,
    stored under the identity of the player and carrying that identity and
    the player's name.  The mounting effect sets the map up that way, and
    no handler adds, removes or renames an entity. *)
Definition ghosts_of_roster (players : list Player) (ghosts : Js.Map Ghost) : Prop :=
  Forall2 (λ (p : Player) (kg : string * Ghost),
             kg.1 = Player.id p ∧ Ghost.id kg.2 = Player.id p
             ∧ Ghost.name kg.2 = Player.player_name p)
          players ghosts.

(** [Array.from(state.ghosts.values()).filter(g => !eliminated.includes(g.id))]. *)
Definition remainingPlayers (ghosts : Js.Map Ghost) (eliminated : list string) : list Ghost :=
  filter (λ g, Js.includes eliminated (Ghost.id g) = false) (Js.Map_values ghosts).

(** The ranking computed once a single entity remains: the winner, the
    eliminated in reverse order, then the roster players not yet listed,
    sorted by rank. *)
Definition ranking (players : list Player) (ghosts : Js.Map Ghost)
    (eliminated : list string) (winner : Ghost) : list GameResult :=
  let totalPlayers := Z.of_nat (length players) in
  let results :=
    [ {| GameResult.player_id := Ghost.id winner; GameResult.player_name := Ghost.name winner;
         GameResult.rank := 1; GameResult.points := totalPlayers |} ] in
  let eliminatedInOrder := rev eliminated in
  let results :=
    Js.forEach_i
      (λ results playerId index,
         match Js.Map_get playerId ghosts with
         | Some ghost =>
             let rank := Z.of_nat index + 2 in
             results ++ [ {| GameResult.player_id := Ghost.id ghost;
                             GameResult.player_name := Ghost.name ghost;
                             GameResult.rank := rank;
                             GameResult.points := totalPlayers - rank + 1 |} ]
         | None => results
         end)
      eliminatedInOrder results in
  let allPlayerIds := GameResult.player_id <$> results in
  let results :=
    fold_left
      (λ results player,
         if Js.includes allPlayerIds (Player.id player) then results
         else
           let rank := totalPlayers in
           results ++ [ {| GameResult.player_id := Player.id player;
                           GameResult.player_name := Player.player_name player;
                           GameResult.rank := rank; GameResult.points := 1 |} ])
      players results in
  Js.sort (λ a b, GameResult.rank a - GameResult.rank b) results.

(** The readings of the frame: the timestamp handed to the callback, the
    keys held down, and the values of [Date.now()] where the frame reads
    the clock (on a pass, in the published pass, for the timer, on a
    re-selection). *)
Record Frame := {
  timestamp : Q;
  keys : list string;
  now_pass : Q;
  now_published : Q;
  now_timer : Q;
  now_reselect : Q;
}.

(** Lines 136-149: the local entity moves and cools down. *)
Definition moveCurrent (H : Js.Host) (currentPlayerId : string) (keys : list string)
    (deltaTime : Q) (state : GameState) : GameState :=
  match Js.Map_get currentPlayerId (ghosts state) with
  | Some _ =>
      if Js.includes (eliminatedPlayers state) currentPlayerId then state
      else
        let dy := 0%Q in
        let dx := 0%Q in
        let dy := if has keys "w" || has keys "arrowup" then (dy - 1)%Q else dy in
        let dy := if has keys "s" || has keys "arrowdown" then (dy + 1)%Q else dy in
        let dx := if has keys "a" || has keys "arrowleft" then (dx - 1)%Q else dx in
        let dx := if has keys "d" || has keys "arrowright" then (dx + 1)%Q else dx in
        set_ghosts
          (Js.Map_modify currentPlayerId
             (λ g, Ghost.updateCooldown deltaTime
                     (Ghost.move H dx dy canvas_width canvas_height g))
             (ghosts state)) state
  | None => state
  end.

(** Lines 151-157: the other entities still in the game cool down. *)
Definition coolOthers (currentPlayerId : string) (deltaTime : Q) (state : GameState)
    : GameState :=
  set_ghosts
    ((λ kv : string * Ghost,
        let ghost := kv.2 in
        if Js.includes (eliminatedPlayers state) (Ghost.id ghost) then kv
        else if bool_decide (Ghost.id ghost ≠ currentPlayerId)
             then (kv.1, Ghost.updateCooldown deltaTime ghost)
             else kv) <$> ghosts state) state.

(** Lines 159-161. *)
Definition coolPass (deltaTime : Q) (state : GameState) : GameState :=
  if Js.Qltb 0 (bombPassCooldown state)
  then set_bombPassCooldown (Js.Qmax 0 (bombPassCooldown state - deltaTime)) state
  else state.

(** Lines 169-180: the closest entity within reach of the holder;
    [None] as distance is [Infinity]. *)
Definition closest (H : Js.Host) (bombHolder : Ghost) (state : GameState) : option Ghost :=
  fst (fold_left
         (λ (acc : option Ghost * option Q) otherGhost,
            if bool_decide (Ghost.id otherGhost ≠ Ghost.id bombHolder)
               && negb (Js.includes (eliminatedPlayers state) (Ghost.id otherGhost))
            then
              let distance := Ghost.distanceTo H bombHolder otherGhost in
              if Js.Qltb distance 40
                 && match acc.2 with Some c => Js.Qltb distance c | None => true end
              then (Some otherGhost, Some distance)
              else acc
            else acc)
         (Js.Map_values (ghosts state)) (None, None)).

(** Lines 163-197: the bomb passes to the closest entity within reach. *)
Definition passBomb (H : Js.Host) (f : Frame) (state : GameState) : GameState * list Msg :=
  match bombHolderId state with
  | Some holderId =>
      if negb (bool_decide (holderId = EmptyString)) && Js.Qeqb (bombPassCooldown state) 0
      then
        match Js.Map_get holderId (ghosts state) with
        | Some bombHolder =>
            if Js.includes (eliminatedPlayers state) holderId then (state, [])
            else
              match closest H bombHolder state with
              | Some closestGhost =>
                  (set_bombPassCooldown 500
                     (set_lastBombPassTime (now_pass f)
                        (set_bombHolderId (Some (Ghost.id closestGhost))
                           (set_ghosts
                              (Js.Map_modify (Ghost.id closestGhost) (Ghost.set_hasBomb true)
                                 (Js.Map_modify (Ghost.id bombHolder) (Ghost.set_hasBomb false)
                                    (ghosts state))) state))),
                   [ msg_pass (Ghost.id closestGhost) (now_published f) ])
              | None => (state, [])
              end
        | None => (state, [])
        end
      else (state, [])
  | None => (state, [])
  end.

(** Lines 199-201. *)
Definition runTimer (f : Frame) (state : GameState) : GameState :=
  let timeSinceLastPass := (now_timer f - lastBombPassTime state)%Q in
  let remainingTime := Js.Qmax 0 (30000 - timeSinceLastPass) in
  set_bombTimer remainingTime state.

(** Lines 204-290: the bomb goes off. *)
Definition explode (H : Js.Host) (players : list Player) (gameSessionId : string)
    (f : Frame) (state : GameState) : Step GameState :=
  match bombHolderId state with
  | Some holderId =>
      if Js.Qleb (bombTimer state) 0 && negb (bool_decide (holderId = EmptyString))
      then
        let state := set_eliminatedPlayers (eliminatedPlayers state ++ [holderId]) state in
        let state :=
          set_ghosts (Js.Map_modify holderId (Ghost.set_hasBomb false) (ghosts state)) state in
        let sent := [ msg_exploded (eliminatedPlayers state) ] in
        let remaining := remainingPlayers (ghosts state) (eliminatedPlayers state) in
        if (length remaining =? 1)%nat && negb (gameCompleted state)
        then
          let state := set_gameCompleted true state in
          match remaining with
          | winner :: _ =>
              let results := ranking players (ghosts state) (eliminatedPlayers state) winner in
              {| next := state;
                 published := sent ++ [ msg_completed (eliminatedPlayers state) results ];
                 finished_with := Some results |}
          | [] => {| next := state; published := sent; finished_with := None |}
          end
        else if (0 <? length remaining)%nat
        then
          match selectBySeed H Ghost.id
                  (gameSessionId +:+ pretty (length (eliminatedPlayers state))) remaining with
          | Some newBombHolder =>
              {| next :=
                   set_bombPassCooldown 0
                     (set_lastBombPassTime (now_reselect f)
                        (set_bombHolderId (Some (Ghost.id newBombHolder))
                           (set_ghosts
                              (Js.Map_modify (Ghost.id newBombHolder) (Ghost.set_hasBomb true)
                                 (ghosts state)) state)));
                 published := sent; finished_with := None |}
          | None => {| next := state; published := sent; finished_with := None |}
          end
        else {| next := state; published := sent; finished_with := None |}
      else {| next := state; published := []; finished_with := None |}
  | None => {| next := state; published := []; finished_with := None |}
  end.

(** One call of [gameLoop(timestamp)], drawing left out.  The state of the
    component is the time of the previous frame ([lastTimeRef]) and the
    game state. *)
Definition gameLoop (H : Js.Host) (players : list Player)
    (currentPlayerId gameSessionId : string) (f : Frame) (c : Q * GameState)
    : Step (Q * GameState) :=
  let '(lastTime, state) := c in
  if Js.Qeqb lastTime 0
  then {| next := (timestamp f, state); published := []; finished_with := None |}
  else
    let deltaTime := (timestamp f - lastTime)%Q in
    let state := moveCurrent H currentPlayerId (keys f) deltaTime state in
    let state := coolOthers currentPlayerId deltaTime state in
    let state := coolPass deltaTime state in
    let '(state, sent) := passBomb H f state in
    let state := runTimer f state in
    let r := explode H players gameSessionId f state in
    {| next := (timestamp f, next r); published := sent ++ published r;
       finished_with := finished_with r |}.

(** [handlePlayerDisconnected(data)]. *)
Definition handlePlayerDisconnected (players : list Player) (currentPlayerId playerId : string)
    (state : GameState) : Step GameState :=
  if bool_decide (playerId = currentPlayerId)
  then {| next := state; published := []; finished_with := None |}
  else if Js.includes (eliminatedPlayers state) playerId
  then {| next := state; published := []; finished_with := None |}
  else
    let state := set_eliminatedPlayers (eliminatedPlayers state ++ [playerId]) state in
    let sent := [ msg_eliminated (eliminatedPlayers state) ] in
    let remaining := remainingPlayers (ghosts state) (eliminatedPlayers state) in
    if (length remaining =? 1)%nat && negb (gameCompleted state)
    then
      let state := set_gameCompleted true state in
      match remaining with
      | winner :: _ =>
          let results := ranking players (ghosts state) (eliminatedPlayers state) winner in
          {| next := state;
             published := sent ++ [ msg_completed (eliminatedPlayers state) results ];
             finished_with := Some results |}
      | [] => {| next := state; published := sent; finished_with := None |}
      end
    else {| next := state; published := sent; finished_with := None |}.

(** [handleGameStateChange(gameState)]: each key of the received object
    that is present overwrites its counterpart in the local state. *)
Definition handleGameStateChange (gameState : Msg) (state : GameState) : Step GameState :=
  let state :=
    match Msg.bomb_holder_id gameState with
    | Some holder =>
        set_ghosts
          ((λ kv : string * Ghost,
              (kv.1, Ghost.set_hasBomb (bool_decide (Some (Ghost.id kv.2) = holder)) kv.2))
             <$> ghosts state)
          (set_bombHolderId holder state)
    | None => state
    end in
  let '(state, done) :=
    match Msg.eliminated_players gameState with
    | Some newEliminated =>
        let state := set_eliminatedPlayers newEliminated state in
        let remaining := remainingPlayers (ghosts state) newEliminated in
        if (length remaining =? 1)%nat && negb (gameCompleted state)
           && default false (Msg.game_completed gameState)
        then (set_gameCompleted true state, Msg.results gameState)
        else (state, None)
    | None => (state, None)
    end in
  let state :=
    match Msg.bomb_timer gameState with
    | Some t => set_bombTimer t state
    | None => state
    end in
  {| next := state; published := []; finished_with := done |}.

(** What reaches the component once it is mounted: a frame of the loop, a
    game state relayed by the server, or the notice that a player is
    gone. *)
Inductive Event :=
| Tick (f : Frame)
| StateChanged (gameState : Msg)
| PlayerGone (playerId : string).

Definition handle (H : Js.Host) (players : list Player)
    (currentPlayerId gameSessionId : string) (e : Event) (c : Q * GameState)
    : Step (Q * GameState) :=
  match e with
  | Tick f => gameLoop H players currentPlayerId gameSessionId f c
  | StateChanged gameState =>
      let r := handleGameStateChange gameState c.2 in
      {| next := (c.1, next r); published := published r;
         finished_with := finished_with r |}
  | PlayerGone playerId =>
      let r := handlePlayerDisconnected players currentPlayerId playerId c.2 in
      {| next := (c.1, next r); published := published r;
         finished_with := finished_with r |}
  end.

(** The events one after the other: the state they leave, and the rankings
    handed to [onGameComplete] on the way. *)
Fixpoint handleAll (H : Js.Host) (players : list Player)
    (currentPlayerId gameSessionId : string) (events : list Event) (c : Q * GameState)
    : (Q * GameState) * list (list GameResult) :=
  match events with
  | [] => (c, [])
  | e :: events' =>
      let r := handle H players currentPlayerId gameSessionId e c in
      let '(c', handed) :=
        handleAll H players currentPlayerId gameSessionId events' (next r) in
      (c', match finished_with r with
           | Some results => results :: handed
           | None => handed
           end)
  end.

(** The bomb flag of the entities agrees with [bombHolderId]: an entity
    that shows the bomb is the one the state names as holder. *)
Definition bomb_marks_holder (state : GameState) : Prop :=
  ∀ kg, kg ∈ ghosts state → Ghost.hasBomb kg.2 = true →
        bombHolderId state = Some (Ghost.id kg.2).

End TagBomb.

(** ** The boulder game: [BoulderRunGame] *)

Module BoulderRun.

Record Boulder := {
  x : Q;
  y : Q;
  radius : Q;
  speed : Q;
}.

Record GameState := {
  ghosts : Js.Map Ghost;
  eliminatedPlayers : list string;
  boulders : list Boulder;
  gameCompleted : bool;
}.

(** The refs of the component next to the game state. *)
Record Component := {
  state : GameState;
  lastTime : Q;
  lastSpawn : Q;
}.

Definition msg_eliminated (eliminated : list string) : Msg :=
  {| Msg.bomb_holder_id := None; Msg.bomb_timer := None;
     Msg.last_bomb_pass_time := None; Msg.eliminated_players := Some eliminated;
     Msg.game_completed := None; Msg.results := None |}.
Definition msg_completed (eliminated : list string) (results : list GameResult) : Msg :=
  {| Msg.bomb_holder_id := None; Msg.bomb_timer := None;
     Msg.last_bomb_pass_time := None; Msg.eliminated_players := Some eliminated;
     Msg.game_completed := Some true; Msg.results := Some results |}.

(** The mounting effect: the entities stand in a row near the bottom, and
    the loop is scheduled, whatever the size of the roster. *)
Definition start (players : list Player) : Component :=
  let startY := (canvas_height - 80)%Q in
  let spacing := (canvas_width / inject_Z (Z.of_nat (length players) + 1))%Q in
  let ghosts :=
    Js.forEach_i
      (λ ghosts p i,
         let x := (spacing * inject_Z (Z.of_nat i + 1))%Q in
         let y := startY in
         let ghost := Ghost.new (Player.id p) (Player.player_name p)
                        (Player.ghost_color p) x y in
         let ghost := Ghost.set_velocity {| GhostPosition.x := 0; GhostPosition.y := 0 |} ghost in
         Js.Map_set (Player.id p) ghost ghosts)
      players [] in
  {| state := {| ghosts := ghosts; eliminatedPlayers := []; boulders := [];
                 gameCompleted := false |};
     lastTime := 0; lastSpawn := 0 |}.

(** The readings of a frame: the timestamp, the keys held down and the
    three values [spawnBoulder] draws from [Math.random()], in order. *)
Record Frame := {
  t : Q;
  keys : list string;
  random_radius : Q;
  random_x : Q;
  random_speed : Q;
}.

(** [spawnBoulder()]. *)
Definition spawnBoulder (f : Frame) : Boulder :=
  let radius := (random_radius f * 25 + 20)%Q in
  {| x := (random_x f * (canvas_width - radius * 2) + radius)%Q;
     y := (- radius)%Q;
     radius := radius;
     speed := (random_speed f * (3 # 2) + 1)%Q |}.

(** The local entity moves. *)
Definition moveCurrent (H : Js.Host) (currentPlayerId : string) (keys : list string)
    (ghosts : Js.Map Ghost) (eliminated : list string) : Js.Map Ghost :=
  match Js.Map_get currentPlayerId ghosts with
  | Some _ =>
      if Js.includes eliminated currentPlayerId then ghosts
      else
        let dx := 0%Q in
        let dy := 0%Q in
        let dx := if has keys "a" || has keys "arrowleft" then (dx - 1)%Q else dx in
        let dx := if has keys "d" || has keys "arrowright" then (dx + 1)%Q else dx in
        let dy := if has keys "w" || has keys "arrowup" then (dy - 1)%Q else dy in
        let dy := if has keys "s" || has keys "arrowdown" then (dy + 1)%Q else dy in
        Js.Map_modify currentPlayerId (Ghost.move H dx dy canvas_width canvas_height) ghosts
  | None => ghosts
  end.

(** The other entities drift with their velocity; every velocity decays. *)
Definition drift (currentPlayerId : string) (eliminated : list string) (g : Ghost) : Ghost :=
  let g :=
    if bool_decide (Ghost.id g ≠ currentPlayerId) && negb (Js.includes eliminated (Ghost.id g))
    then Ghost.set_position
           {| GhostPosition.x :=
                (GhostPosition.x (Ghost.position g) + GhostPosition.x (Ghost.velocity g))%Q;
              GhostPosition.y :=
                (GhostPosition.y (Ghost.position g) + GhostPosition.y (Ghost.velocity g))%Q |} g
    else g in
  Ghost.set_velocity
    {| GhostPosition.x := (GhostPosition.x (Ghost.velocity g) * (9 # 10))%Q;
       GhostPosition.y := (GhostPosition.y (Ghost.velocity g) * (9 # 10))%Q |} g.

Definition fall (dt : Q) (b : Boulder) : Boulder :=
  {| x := x b; y := (y b + speed b * dt * (5 # 100))%Q; radius := radius b; speed := speed b |}.

Definition hits (ghost : Ghost) (b : Boulder) : bool :=
  let dx := (GhostPosition.x (Ghost.position ghost) - x b)%Q in
  let dy := (GhostPosition.y (Ghost.position ghost) - y b)%Q in
  Js.Qleb (dx * dx + dy * dy) ((radius b + 20) * (radius b + 20)).

(** Lines 258-273: every entity not eliminated when its turn comes is
    tested against every boulder, and pushed on each hit. *)
Definition collide (ghosts : Js.Map Ghost) (boulders : list Boulder)
    (acc : list string * list Msg) : list string * list Msg :=
  fold_left
    (λ (acc : list string * list Msg) ghost,
       if Js.includes acc.1 (Ghost.id ghost) then acc
       else
         fold_left
           (λ (acc : list string * list Msg) b,
              if hits ghost b
              then let eliminated := acc.1 ++ [Ghost.id ghost] in
                   (eliminated, acc.2 ++ [msg_eliminated eliminated])
              else acc)
           boulders acc)
    (Js.Map_values ghosts) acc.

(** The ranking of the boulder game. *)
Definition ranking (players : list Player) (ghosts : Js.Map Ghost)
    (eliminatedPlayers : list string) (winner : Ghost) : list GameResult :=
  let total := Z.of_nat (length players) in
  let results :=
    [ {| GameResult.player_id := Ghost.id winner; GameResult.player_name := Ghost.name winner;
         GameResult.rank := 1; GameResult.points := total |} ] in
  let eliminated := rev eliminatedPlayers in
  let results :=
    Js.forEach_i
      (λ results id i,
         match Js.Map_get id ghosts with
         | Some ghost =>
             results ++ [ {| GameResult.player_id := Ghost.id ghost;
                             GameResult.player_name := Ghost.name ghost;
                             GameResult.rank := Z.of_nat i + 2;
                             GameResult.points := total - (Z.of_nat i + 1) |} ]
         | None => results
         end)
      eliminated results in
  let known := GameResult.player_id <$> results in
  let results :=
    fold_left
      (λ results p,
         if Js.includes known (Player.id p) then results
         else results ++ [ {| GameResult.player_id := Player.id p;
                              GameResult.player_name := Player.player_name p;
                              GameResult.rank := total; GameResult.points := 1 |} ])
      players results in
  Js.sort (λ a b, GameResult.rank a - GameResult.rank b) results.

(** One call of [loop(t)], drawing left out. *)
Definition loop (H : Js.Host) (players : list Player) (currentPlayerId : string)
    (f : Frame) (c : Component) : Step Component :=
  if Js.Qeqb (lastTime c) 0
  then {| next := {| state := state c; lastTime := t f; lastSpawn := lastSpawn c |};
          published := []; finished_with := None |}
  else
    let dt := (t f - lastTime c)%Q in
    let st := state c in
    let '(spawned, lastSpawn') :=
      if Js.Qltb 800 (t f - lastSpawn c)
      then (boulders st ++ [spawnBoulder f], t f)
      else (boulders st, lastSpawn c) in
    let ghosts := moveCurrent H currentPlayerId (keys f) (ghosts st) (eliminatedPlayers st) in
    let ghosts :=
      (λ kv : string * Ghost, (kv.1, drift currentPlayerId (eliminatedPlayers st) kv.2))
        <$> ghosts in
    let fallen := fall dt <$> spawned in
    let kept := filter (λ b, Js.Qltb (y b - radius b) canvas_height = true) fallen in
    let '(eliminated, sent) := collide ghosts kept (eliminatedPlayers st, []) in
    let alive :=
      filter (λ g, Js.includes eliminated (Ghost.id g) = false) (Js.Map_values ghosts) in
    if (length alive =? 1)%nat && negb (gameCompleted st)
    then
      match alive with
      | winner :: _ =>
          let results := ranking players ghosts eliminated winner in
          {| next := {| state := {| ghosts := ghosts; eliminatedPlayers := eliminated;
                                    boulders := kept; gameCompleted := true |};
                        lastTime := t f; lastSpawn := lastSpawn' |};
             published := sent ++ [ msg_completed eliminated results ];
             finished_with := Some results |}
      | [] => {| next := {| state := {| ghosts := ghosts; eliminatedPlayers := eliminated;
                                        boulders := kept; gameCompleted := true |};
                            lastTime := t f; lastSpawn := lastSpawn' |};
                 published := sent; finished_with := None |}
      end
    else
      {| next := {| state := {| ghosts := ghosts; eliminatedPlayers := eliminated;
                                boulders := kept; gameCompleted := gameCompleted st |};
                    lastTime := t f; lastSpawn := lastSpawn' |};
         published := sent; finished_with := None |}.

(** The frames of the loop one after the other: the loop schedules itself
    again unless it handed over a ranking. *)
Fixpoint run (H : Js.Host) (players : list Player) (currentPlayerId : string)
    (frames : list Frame) (c : Component) : Component * option (list GameResult) :=
  match frames with
  | [] => (c, None)
  | f :: frames' =>
      let r := loop H players currentPlayerId f c in
      match finished_with r with
      | Some results => (next r, Some results)
      | None => run H players currentPlayerId frames' (next r)
      end
  end.

(** [onGameChange(data)]. *)
Definition onGameChange (data : Msg) (st : GameState) : GameState :=
  match Msg.eliminated_players data with
  | Some l => {| ghosts := ghosts st; eliminatedPlayers := l; boulders := boulders st;
                 gameCompleted := gameCompleted st |}
  | None => st
  end.

End BoulderRun.

(** ** The guards and the elimination of the two other minigames *)

Module PlatformPush.

(** The guard at the head of the mounting effect: the ranking handed to
    [onGameComplete] at once, or [None] when the game is set up. *)
Definition start_guard (players : list Player) : option (list GameResult) :=
  if (length players <? 2)%nat then Some (everyone_first players) else None.

(** The elimination of an entity found off the platform:
    [if (isOutOfBounds && !state.eliminatedPlayers.includes(ghost.id))]. *)
Definition eliminate (isOutOfBounds : bool) (ghostId : string) (eliminated : list string)
    : list string :=
  if isOutOfBounds && negb (Js.includes eliminated ghostId)
  then eliminated ++ [ghostId] else eliminated.

End PlatformPush.

Module FallingTiles.

Definition start_guard (players : list Player) : option (list GameResult) :=
  if (length players <? 2)%nat then Some (everyone_first players) else None.

(** The elimination of an entity standing on a fallen tile, inside
    [checkTileCollisions]: the membership test comes right before the
    test of the tile. *)
Definition eliminate (onTile : bool) (ghostId : string) (eliminated : list string)
    : list string :=
  if Js.includes eliminated ghostId then eliminated
  else if onTile then eliminated ++ [ghostId] else eliminated.

Inductive TileStatus := safe | warning | fallen | removed.

#[global] Instance TileStatus_eq_dec : EqDecision TileStatus.
Proof. solve_decision. Defined.

Record Tile := {
  id : string;
  x : Q;
  y : Q;
  size : Q;
  status : TileStatus;
  warnStart : option Q;
}.

Definition msg_eliminated (eliminated : list string) : Msg :=
  {| Msg.bomb_holder_id := None; Msg.bomb_timer := None;
     Msg.last_bomb_pass_time := None; Msg.eliminated_players := Some eliminated;
     Msg.game_completed := None; Msg.results := None |}.

(** The test of [checkTileCollisions]: the centre of the entity lies
    strictly inside the square of the tile. *)
Definition inside (ghost : Ghost) (tile : Tile) : bool :=
  Js.Qltb (x tile) (GhostPosition.x (Ghost.position ghost))
  && Js.Qltb (GhostPosition.x (Ghost.position ghost)) (x tile + size tile)
  && Js.Qltb (y tile) (GhostPosition.y (Ghost.position ghost))
  && Js.Qltb (GhostPosition.y (Ghost.position ghost)) (y tile + size tile).

(** [checkTileCollisions()]: the elimination list and the objects
    published, threaded through the two loops. *)
Definition checkTileCollisions (tiles : list Tile) (ghosts : Js.Map Ghost)
    (acc : list string * list Msg) : list string * list Msg :=
  fold_left
    (λ (acc : list string * list Msg) tile,
       if bool_decide (status tile ≠ fallen) then acc
       else
         fold_left
           (λ (acc : list string * list Msg) ghost,
              if Js.includes acc.1 (Ghost.id ghost) then acc
              else if inside ghost tile
              then let eliminated := acc.1 ++ [Ghost.id ghost] in
                   (eliminated, acc.2 ++ [msg_eliminated eliminated])
              else acc)
           (Js.Map_values ghosts) acc)
    tiles acc.

(** The loop that draws the tiles to fall: [i] counts the turns left,
    [random] gives the value of [Math.random()] in each turn. *)
Fixpoint pickLoop (turns : nat) (random : nat → Q) (index : nat) (safeTiles : list Tile)
    (chosen : list (option Tile)) : list (option Tile) :=
  match turns with
  | O => chosen
  | S turns' =>
      if (0 <? length safeTiles)%nat
      then
        let '(pick, safeTiles) :=
          Js.splice1 safeTiles (Js.floor_mul (random index) (length safeTiles)) in
        pickLoop turns' random (S index) safeTiles (chosen ++ [pick])
      else chosen
  end.

(** The tiles the host draws when the spawn interval has passed: between
    one and four of the safe ones; [random 0] gives the count and
    [random (i + 1)] the [i]-th pick.  A pick off the end of the array is
    [undefined]. *)
Definition chooseTiles (random : nat → Q) (tiles : list Tile) : list (option Tile) :=
  let safeTiles := filter (λ t, status t = safe) tiles in
  if (0 <? length safeTiles)%nat
  then
    let count := Z.min 4 (Z.max 1 (Js.floor_mul (random 0%nat) 4 + 1)) in
    pickLoop (Z.to_nat count) (λ i, random (S i)) 0 safeTiles []
  else [].

End FallingTiles.

(** ** [App.tsx] and the screens *)

Module LobbyScreen.

(** [players[0]?.id === currentPlayerId] and
    [players.length >= room.min_players]. *)
Definition isHost (players : list Player) (currentPlayerId : string) : bool :=
  match players with
  | p :: _ => bool_decide (Player.id p = currentPlayerId)
  | [] => false
  end.

Definition canStart (room : Room) (players : list Player) : bool :=
  Room.min_players room <=? Z.of_nat (length players).

(** The start button is rendered, and wired to [onStartGame]. *)
Definition startButton (room : Room) (players : list Player) (currentPlayerId : string)
    : bool :=
  isHost players currentPlayerId && canStart room players.

End LobbyScreen.

Module ScoreboardScreen.

(** [[...players].sort((a, b) => b.total_score - a.total_score)]. *)
Definition sortedPlayers (players : list Player) : list Player :=
  Js.sort (λ a b, Player.total_score b - Player.total_score a) players.

(** [lastGameResults.slice().sort((a, b) => a.rank - b.rank)]. *)
Definition sortedResults (lastGameResults : list GameResult) : list GameResult :=
  Js.sort (λ a b, GameResult.rank a - GameResult.rank b) lastGameResults.

End ScoreboardScreen.

Module App.

Inductive Screen := Home | Lobby | Playing | Scoreboard | Final.

#[global] Instance Screen_eq_dec : EqDecision Screen.
Proof. solve_decision. Defined.

(** The state of the component. *)
Record State := {
  appState : Screen;
  room : option Room;
  currentPlayer : option Player;
  players : list Player;
  currentGame : option GameSession;
  lastGameResults : list GameResult;
  loading : bool;
}.

Definition initial : State :=
  {| appState := Home; room := None; currentPlayer := None; players := [];
     currentGame := None; lastGameResults := []; loading := false |}.

Definition set_appState (v : Screen) (s : State) : State :=
  {| appState := v; room := room s; currentPlayer := currentPlayer s;
     players := players s; currentGame := currentGame s;
     lastGameResults := lastGameResults s; loading := loading s |}.
Definition set_room (v : option Room) (s : State) : State :=
  {| appState := appState s; room := v; currentPlayer := currentPlayer s;
     players := players s; currentGame := currentGame s;
     lastGameResults := lastGameResults s; loading := loading s |}.
Definition set_currentPlayer (v : option Player) (s : State) : State :=
  {| appState := appState s; room := room s; currentPlayer := v;
     players := players s; currentGame := currentGame s;
     lastGameResults := lastGameResults s; loading := loading s |}.
Definition set_players (v : list Player) (s : State) : State :=
  {| appState := appState s; room := room s; currentPlayer := currentPlayer s;
     players := v; currentGame := currentGame s;
     lastGameResults := lastGameResults s; loading := loading s |}.
Definition set_currentGame (v : option GameSession) (s : State) : State :=
  {| appState := appState s; room := room s; currentPlayer := currentPlayer s;
     players := players s; currentGame := v;
     lastGameResults := lastGameResults s; loading := loading s |}.
Definition set_lastGameResults (v : list GameResult) (s : State) : State :=
  {| appState := appState s; room := room s; currentPlayer := currentPlayer s;
     players := players s; currentGame := currentGame s;
     lastGameResults := v; loading := loading s |}.
Definition set_loading (v : bool) (s : State) : State :=
  {| appState := appState s; room := room s; currentPlayer := currentPlayer s;
     players := players s; currentGame := currentGame s;
     lastGameResults := lastGameResults s; loading := v |}.

(** [fetchPlayers()], run when the room is set and on every poll. *)
Definition fetchPlayers (s : State) : Api.M State :=
  match room s with
  | Some r =>
      fetchedPlayers ← RoomManager.getPlayers (Room.id r);
      mret (set_players fetchedPlayers s)
  | None => mret s
  end.

(** [handleCreateRoom(hostName, minPlayers, maxGames)]; [random] gives the
    values of [Math.random()] in the order they are drawn, and [room_id],
    [player_id], [session_id] the keys the database draws. *)
Definition handleCreateRoom (hostName : string) (minPlayers maxGames : Z)
    (random : nat → Q) (room_id player_id : string) (session_id : nat → string)
    (s : State) : Api.M State :=
  result ← RoomManager.createRoom hostName minPlayers maxGames random room_id player_id;
  match result with
  | Some (r, p) =>
      _ ← GameManager.createGameSessions (Room.id r) maxGames
            (λ i, random (7 + i)%nat) session_id;
      mret (set_loading false
              (set_appState Lobby (set_currentPlayer (Some p) (set_room (Some r) s))))
  | None => mret (set_loading false s)
  end.

(** [handleJoinRoom(roomCode, playerName)]. *)
Definition handleJoinRoom (roomCode playerName : string) (u : Q) (new_id : string)
    (s : State) : Api.M State :=
  Api.try_catch
    (let roomCodeUpper := Js.toUpperCase (Js.trim roomCode) in
     result ← RoomManager.joinRoom roomCodeUpper playerName u new_id;
     match result with
     | Some (r, p) =>
         if negb (bool_decide (Room.id r = EmptyString))
            && negb (bool_decide (Room.room_code r = EmptyString))
         then mret (set_loading false
                      (set_appState Lobby
                         (set_currentPlayer (Some p) (set_room (Some r) s))))
         else mret (set_loading false s)
     | None => mret (set_loading false s)
     end)
    (mret (set_loading false s)).

(** The tail shared by [handleStartGame] and [handleContinueToNextGame]:
    the next pending game is started and shown. *)
Definition startNext (roomId : string) (now : string) (s : State) : Api.M State :=
  nextGame ← GameManager.getNextGame roomId;
  match nextGame with
  | Some g =>
      _ ← GameManager.startGame (GameSession.id g) now;
      mret (set_appState Playing (set_currentGame (Some g) s))
  | None => mret s
  end.

(** [handleStartGame()]; [now] is the time [startGame] reads. *)
Definition handleStartGame (now : string) (s : State) : Api.M State :=
  match room s, currentPlayer s with
  | Some r, Some p =>
      if negb (LobbyScreen.isHost (players s) (Player.id p)) then mret s
      else
        _ ← RoomManager.updateRoomStatus (Room.id r) playing;
        s' ← startNext (Room.id r) now s;
        mret (set_loading false s')
  | _, _ => mret s
  end.

(** [handleGameComplete(results)]; [now] is the time [completeGame]
    reads. *)
Definition handleGameComplete (results : list GameResult) (now : string) (s : State)
    : Api.M State :=
  match currentGame s, room s with
  | Some g, Some r =>
      _ ← GameManager.completeGame (GameSession.id g) results now;
      let s := set_lastGameResults results s in
      updatedPlayers ← RoomManager.getPlayers (Room.id r);
      let s := set_players updatedPlayers s in
      allGames ← GameManager.getAllGames (Room.id r);
      let completedGames := filter (λ g, GameSession.status g = completed) allGames in
      if Room.max_games r <=? Z.of_nat (length completedGames)
      then
        _ ← RoomManager.updateRoomStatus (Room.id r) finished;
        mret (set_appState Final s)
      else mret (set_appState Scoreboard s)
  | _, _ => mret s
  end.

(** [handleContinueToNextGame()]. *)
Definition handleContinueToNextGame (now : string) (s : State) : Api.M State :=
  match room s with
  | Some r => startNext (Room.id r) now s
  | None => mret s
  end.

(** [handleBackToMenu()]. *)
Definition handleBackToMenu (s : State) : State :=
  set_lastGameResults []
    (set_currentGame None
       (set_players [] (set_currentPlayer None (set_room None (set_appState Home s))))).

(** A press on the start button of the lobby, which is there only while
    the lobby is shown and [LobbyScreen] renders the button. *)
Definition pressStart (now : string) (s : State) : Api.M State :=
  match room s, currentPlayer s with
  | Some r, Some p =>
      if negb (loading s) && bool_decide (appState s = Lobby)
         && LobbyScreen.startButton r (players s) (Player.id p)
      then handleStartGame now s
      else mret s
  | _, _ => mret s
  end.

(** One run of [checkStatus()], the poll of the lobby, while the effect
    stays mounted; the count of failed polls in a row is left out. *)
Definition checkStatus (now : string) (s : State) : Api.M State :=
  match room s with
  | Some r =>
      if negb (bool_decide (appState s = Lobby))
         || bool_decide (Room.room_code r = EmptyString)
         || bool_decide (Room.id r = EmptyString)
      then mret s
      else
        let currentRoomCode := Js.toUpperCase (Js.trim (Room.room_code r)) in
        if negb (String.length currentRoomCode =? 6)%nat then mret s
        else
          Api.try_catch
            (updatedRoom ← RoomManager.getRoomByCode currentRoomCode;
             match updatedRoom with
             | None => mret s
             | Some updatedRoom =>
                 if negb (bool_decide (Room.id updatedRoom = Room.id r)) then mret s
                 else
                   let s := set_room (Some updatedRoom) s in
                   if bool_decide (Room.status updatedRoom = playing)
                   then
                     activeGame ← GameManager.getCurrentGame (Room.id updatedRoom);
                     activeGame ←
                       match activeGame with
                       | Some g => mret (Some g)
                       | None =>
                           activeGame ← GameManager.getNextGame (Room.id updatedRoom);
                           match activeGame with
                           | Some g =>
                               _ ← GameManager.startGame (GameSession.id g) now;
                               mret (Some g)
                           | None => mret None
                           end
                       end;
                     match activeGame with
                     | Some g => mret (set_appState Playing (set_currentGame (Some g) s))
                     | None => mret s
                     end
                   else mret s
             end)
            (mret s)
  | None => mret s
  end.

(** The poll of the scoreboard: an active game other than the one just
    played is shown. *)
Definition checkNextGame (s : State) : Api.M State :=
  match room s with
  | Some r =>
      if negb (bool_decide (appState s = Scoreboard)) then mret s
      else
        activeGame ← GameManager.getCurrentGame (Room.id r);
        match activeGame with
        | Some g =>
            if negb (bool_decide (Some (GameSession.id g)
                                  = GameSession.id <$> currentGame s))
            then mret (set_appState Playing (set_currentGame (Some g) s))
            else mret s
        | None => mret s
        end
  | None => mret s
  end.

End App.

(** ** Sample data *)

Module Sample.

(** A host whose square root is the integer square root and whose
    collation is the order of the character codes. *)
Definition codeCompare (a b : string) : Z :=
  match String.compare a b with Lt => -1 | Eq => 0 | Gt => 1 end.

Definition host : Js.Host :=
  {| Js.Math_sqrt := λ q, inject_Z (Z.sqrt (Qfloor q)); Js.localeCompare := codeCompare |}.

(** A host of another locale: in its collation [aa] counts as the letter
    a with a ring, which comes after [z], as in Danish.  The key of a text
    is the text with every [aa] replaced by that letter (character 229). *)
Fixpoint danishKey (s : string) : string :=
  match s with
  | String c s' =>
      match s' with
      | String c' s'' =>
          if Ascii.eqb c "a" && Ascii.eqb c' "a"
          then String (ascii_of_N 229) (danishKey s'')
          else String c (danishKey s')
      | EmptyString => String c EmptyString
      end
  | EmptyString => EmptyString
  end.

Definition host_da : Js.Host :=
  {| Js.Math_sqrt := λ q, inject_Z (Z.sqrt (Qfloor q));
     Js.localeCompare := λ a b, codeCompare (danishKey a) (danishKey b) |}.

Definition ghost_idle : Ghost := Ghost.new "p1" "Ana" "red" 150 150.
Definition ghost_cooling : Ghost := Ghost.set_dashCooldown 2000 ghost_idle.

Definition room_waiting : Room :=
  {| Room.id := "r1"; Room.room_code := "ABCDEF"; Room.host_name := "Ana";
     Room.min_players := 2; Room.max_games := 3; Room.status := waiting |}.
Definition room_playing : Room := Room.set_status playing room_waiting.

Definition player (i n c : string) : Player :=
  {| Player.id := i; Player.room_id := "r1"; Player.player_name := n;
     Player.ghost_color := c; Player.total_score := 0 |}.

Definition session1 : GameSession :=
  {| GameSession.id := "s1"; GameSession.room_id := "r1";
     GameSession.game_type := "tag_bomb"; GameSession.game_number := 1;
     GameSession.status := active; GameSession.results := [];
     GameSession.game_state := ∅; GameSession.started_at := None;
     GameSession.completed_at := None |}.

Definition db_waiting : Server.Db :=
  {| Server.rooms := [room_waiting];
     Server.players := [player "p1" "Ana" "red"; player "p2" "Bo" "blue"];
     Server.game_sessions := [session1] |}.
Definition db_playing : Server.Db := Server.set_rooms [room_playing] db_waiting.

Definition world : Api.World := {| Api.db := db_waiting; Api.requests := [] |}.

(** A waiting room whose code ends in [SS], with its host, and a code of
    five characters that ends in a sharp s. *)
Definition room_ss : Room :=
  {| Room.id := "r2"; Room.room_code := "ABCDSS"; Room.host_name := "Ana";
     Room.min_players := 2; Room.max_games := 3; Room.status := waiting |}.
Definition world_ss : Api.World :=
  {| Api.db := {| Server.rooms := [room_ss];
                  Server.players := [ {| Player.id := "p1"; Player.room_id := "r2";
                                         Player.player_name := "Ana";
                                         Player.ghost_color := "red";
                                         Player.total_score := 0 |} ];
                  Server.game_sessions := [] |};
     Api.requests := [] |}.
Definition code_sharp_s : string := "abcd" +:+ String Js.sharp_s EmptyString.
Definition world_playing : Api.World := {| Api.db := db_playing; Api.requests := [] |}.

Definition ranking2 : list GameResult :=
  [ {| GameResult.player_id := "p2"; GameResult.player_name := "Bo";
       GameResult.rank := 1; GameResult.points := 2 |};
    {| GameResult.player_id := "p1"; GameResult.player_name := "Ana";
       GameResult.rank := 2; GameResult.points := 1 |} ].

Definition roster3 : list Player :=
  [player "p1" "Ana" "red"; player "p2" "Bo" "blue"; player "p3" "Cy" "green"].

(** A frame of the bomb game with no key held down, and a clock that
    reads the same wherever the frame looks at it. *)
Definition bomb_frame (timestamp now : Q) : TagBomb.Frame :=
  {| TagBomb.timestamp := timestamp; TagBomb.keys := [];
     TagBomb.now_pass := now; TagBomb.now_published := now;
     TagBomb.now_timer := now; TagBomb.now_reselect := now |}.

(** A frame of the boulder game with no key held down. *)
Definition boulder_frame (t : Q) : BoulderRun.Frame :=
  {| BoulderRun.t := t; BoulderRun.keys := [];
     BoulderRun.random_radius := 1 # 2; BoulderRun.random_x := 1 # 2;
     BoulderRun.random_speed := 1 # 2 |}.

(** The boulder game of [roster3] some frames in, with two boulders over
    the first entity. *)
Definition boulders_over_first : BoulderRun.Component :=
  {| BoulderRun.state :=
       {| BoulderRun.ghosts := BoulderRun.ghosts (BoulderRun.state (BoulderRun.start roster3));
          BoulderRun.eliminatedPlayers := [];
          BoulderRun.boulders :=
            [ {| BoulderRun.x := 200; BoulderRun.y := 500; BoulderRun.radius := 20;
                 BoulderRun.speed := 1 |};
              {| BoulderRun.x := 210; BoulderRun.y := 505; BoulderRun.radius := 25;
                 BoulderRun.speed := 1 |} ];
          BoulderRun.gameCompleted := false |};
     BoulderRun.lastTime := 1000; BoulderRun.lastSpawn := 1000 |}.

(** Three players whose keys start with [aa], [b] and [c]. *)
Definition roster_aa : list Player :=
  [player "aa11" "Ana" "red"; player "b222" "Bo" "blue"; player "c333" "Cy" "green"].

Definition roster4 : list Player :=
  [player "p1" "Ana" "red"; player "p2" "Bo" "blue"; player "p3" "Cy" "green";
   player "p4" "Di" "pink"].

(** The bomb game of [roster4] with the third and the second player
    eliminated, in that order, and the bomb about to go off in the hands of
    the fourth. *)
Definition bomb_last_two : TagBomb.GameState :=
  {| TagBomb.ghosts := TagBomb.initGhosts host roster4;
     TagBomb.bombHolderId := Some "p4";
     TagBomb.bombTimer := 0;
     TagBomb.eliminatedPlayers := ["p3"; "p2"];
     TagBomb.gameStartTime := 1000;
     TagBomb.bombPassCooldown := 0;
     TagBomb.lastBombPassTime := 1000;
     TagBomb.gameCompleted := false |}.

(** The lobby of [room_waiting]: both players are in, no game session has
    been drawn yet. *)
Definition db_lobby : Server.Db := Server.set_game_sessions [] db_waiting.
Definition world_lobby : Api.World := {| Api.db := db_lobby; Api.requests := [] |}.

(** Draws of [Math.random()] that go round 0, 1/4, 1/2, 3/4, and keys the
    database draws for game sessions. *)
Definition draws (i : nat) : Q := Z.of_nat (i `mod` 4) # 4.
Definition session_key (i : nat) : string := "g" +:+ pretty i.

End Sample.

(** * Properties *)

(** ** Comparisons on rationals *)

Lemma Qleb_true (a b : Q) : Js.Qleb a b = true ↔ (a <= b)%Q.
Proof. apply Qle_bool_iff. Qed.

Lemma Qleb_false (a b : Q) : Js.Qleb a b = false ↔ (b < a)%Q.
Proof.
  unfold Js.Qleb. split.
  - intros Hf. apply Qnot_le_lt. intros Hle. apply Qle_bool_iff in Hle. congruence.
  - intros Hlt. destruct (Qle_bool a b) eqn:E; [|done].
    apply Qle_bool_iff in E. exfalso. by apply (Qlt_not_le _ _ Hlt).
Qed.

Lemma Qltb_true (a b : Q) : Js.Qltb a b = true ↔ (a < b)%Q.
Proof.
  unfold Js.Qltb. rewrite negb_true_iff. apply (Qleb_false b a).
Qed.

Lemma Qltb_false (a b : Q) : Js.Qltb a b = false ↔ (b <= a)%Q.
Proof.
  unfold Js.Qltb. rewrite negb_false_iff. apply Qle_bool_iff.
Qed.

Lemma Qmax_lower (a b : Q) : (a <= Js.Qmax a b)%Q.
Proof.
  unfold Js.Qmax. destruct (Js.Qleb a b) eqn:E.
  - by apply Qleb_true.
  - apply Qle_refl.
Qed.

Lemma Qmax_right (a b : Q) : (a <= b)%Q → Js.Qmax a b = b.
Proof. intros Hle. unfold Js.Qmax. apply Qleb_true in Hle. by rewrite Hle. Qed.

Lemma Qmax_left (a b : Q) : (b < a)%Q → Js.Qmax a b = a.
Proof. intros Hlt. unfold Js.Qmax. apply Qleb_false in Hlt. by rewrite Hlt. Qed.

(** ** The entity model *)

Lemma activateDash_guard (g : Ghost) :
  Js.Qleb (Ghost.dashCooldown g) 0 && negb (Ghost.isDashing g) = true
  ↔ (Ghost.dashCooldown g <= 0)%Q ∧ Ghost.isDashing g = false.
Proof.
  rewrite andb_true_iff, negb_true_iff, Qleb_true. done.
Qed.

(** C9.  [activateDash] puts an entity that is not dashing into the dashing
    state exactly when its cooldown is zero or less; when it does, only the
    dashing flag and the timer handle change, and when it does not, the
    entity is left as it was and no timer is armed.  [updateCooldown]
    replaces a positive cooldown by the larger of zero and the cooldown
    less the elapsed time, so the cooldown drops by exactly the elapsed
    time as long as that does not cross zero, stops at zero otherwise,
    and a cooldown that is not negative never becomes negative; a cooldown
    that is not positive, and every other field, is left alone. *)
Theorem ghost_dash_and_cooldown (h : Z) (deltaTime : Q) (g : Ghost) :
  ((Ghost.dashCooldown g <= 0)%Q ∧ Ghost.isDashing g = false
     ↔ Ghost.isDashing g = false ∧ Ghost.isDashing (Ghost.activateDash h g).1 = true)
  ∧ ((Ghost.dashCooldown g <= 0)%Q ∧ Ghost.isDashing g = false →
       Ghost.activateDash h g
       = (Ghost.set_dashTimeout (Some h) (Ghost.set_isDashing true g),
          Some {| Ghost.handle := h; Ghost.delay := 500 |}))
  ∧ (¬ ((Ghost.dashCooldown g <= 0)%Q ∧ Ghost.isDashing g = false) →
       Ghost.activateDash h g = (g, None))
  ∧ Ghost.updateCooldown deltaTime g
    = Ghost.set_dashCooldown (Ghost.dashCooldown (Ghost.updateCooldown deltaTime g)) g
  ∧ ((0 < Ghost.dashCooldown g)%Q →
       Ghost.dashCooldown (Ghost.updateCooldown deltaTime g)
       = Js.Qmax 0 (Ghost.dashCooldown g - deltaTime))
  ∧ ((0 < Ghost.dashCooldown g)%Q → (deltaTime <= Ghost.dashCooldown g)%Q →
       Ghost.dashCooldown (Ghost.updateCooldown deltaTime g)
       = (Ghost.dashCooldown g - deltaTime)%Q)
  ∧ ((0 < Ghost.dashCooldown g)%Q → (Ghost.dashCooldown g < deltaTime)%Q →
       Ghost.dashCooldown (Ghost.updateCooldown deltaTime g) = 0%Q)
  ∧ ((Ghost.dashCooldown g <= 0)%Q → Ghost.updateCooldown deltaTime g = g)
  ∧ ((0 <= Ghost.dashCooldown g)%Q →
       (0 <= Ghost.dashCooldown (Ghost.updateCooldown deltaTime g))%Q).
Proof.
  assert (Hstep : (0 < Ghost.dashCooldown g)%Q →
            Ghost.updateCooldown deltaTime g
            = Ghost.set_dashCooldown (Js.Qmax 0 (Ghost.dashCooldown g - deltaTime)) g).
  { intros Hpos. unfold Ghost.updateCooldown. apply Qltb_true in Hpos. by rewrite Hpos. }
  assert (Hkeep : (Ghost.dashCooldown g <= 0)%Q → Ghost.updateCooldown deltaTime g = g).
  { intros Hle. unfold Ghost.updateCooldown. apply Qltb_false in Hle. by rewrite Hle. }
  split_and!.
  - split.
    + intros [Hc Hd]. split; [done|]. unfold Ghost.activateDash.
      destruct (activateDash_guard g) as [_ ->]; done.
    + intros [Hd Hon]. split; [|done].
      destruct (Js.Qleb (Ghost.dashCooldown g) 0) eqn:E.
      * by apply Qleb_true.
      * unfold Ghost.activateDash in Hon. rewrite E in Hon. simpl in Hon. congruence.
  - intros Hguard. unfold Ghost.activateDash.
    destruct (activateDash_guard g) as [_ ->]; done.
  - intros Hn. unfold Ghost.activateDash.
    destruct (Js.Qleb (Ghost.dashCooldown g) 0 && negb (Ghost.isDashing g)) eqn:E; [|done].
    apply activateDash_guard in E. done.
  - destruct (Qlt_le_dec 0 (Ghost.dashCooldown g)) as [Hpos|Hle].
    + rewrite (Hstep Hpos). done.
    + rewrite (Hkeep Hle). by destruct g.
  - intros Hpos. by rewrite (Hstep Hpos).
  - intros Hpos Hle. rewrite (Hstep Hpos). simpl. apply Qmax_right.
    apply (Qplus_le_l _ _ deltaTime). ring_simplify. done.
  - intros Hpos Hlt. rewrite (Hstep Hpos). simpl. apply Qmax_left.
    apply (Qplus_lt_l _ _ deltaTime). ring_simplify. done.
  - done.
  - intros Hnn. destruct (Qlt_le_dec 0 (Ghost.dashCooldown g)) as [Hpos|Hle].
    + rewrite (Hstep Hpos). simpl. apply Qmax_lower.
    + by rewrite (Hkeep Hle).
Qed.

Lemma ghost_dash_and_cooldown_witness :
  ((Ghost.dashCooldown Sample.ghost_idle <= 0)%Q ∧ Ghost.isDashing Sample.ghost_idle = false)
  ∧ Ghost.isDashing (Ghost.activateDash 7 Sample.ghost_idle).1 = true
  ∧ (0 < Ghost.dashCooldown Sample.ghost_cooling)%Q
  ∧ (16 <= Ghost.dashCooldown Sample.ghost_cooling)%Q
  ∧ Ghost.dashCooldown (Ghost.updateCooldown 16 Sample.ghost_cooling) = (2000 - 16)%Q.
Proof.
  assert (Hguard : (Ghost.dashCooldown Sample.ghost_idle <= 0)%Q
                   ∧ Ghost.isDashing Sample.ghost_idle = false).
  { split; [apply Qle_refl | reflexivity]. }
  assert (Hpos : (0 < Ghost.dashCooldown Sample.ghost_cooling)%Q) by reflexivity.
  assert (Hle : (16 <= Ghost.dashCooldown Sample.ghost_cooling)%Q) by (by vm_compute).
  destruct (ghost_dash_and_cooldown 7 16 Sample.ghost_idle) as (Hdash & _).
  destruct (ghost_dash_and_cooldown 7 16 Sample.ghost_cooling)
    as (_ & _ & _ & _ & _ & Hdrop & _).
  split_and!; first [done | by apply Hdash | by apply Hdrop].
Defined.

(** ** Strings *)


Lemma toUpperCase_empty (s : string) :
  Js.toUpperCase s = EmptyString ↔ s = EmptyString.
Proof.
  split; [| by intros ->]. destruct s as [|c s]; [done|]. cbn [Js.toUpperCase].
  by destruct (Ascii.eqb c Js.sharp_s).
Qed.


Lemma floor_mul_range (u : Q) (n : nat) :
  (0 <= u)%Q → (u < 1)%Q → (0 < n)%nat →
  0 ≤ Js.floor_mul u n < Z.of_nat n.
Proof.
  intros H0 H1 Hn. unfold Js.floor_mul.
  set (m := inject_Z (Z.of_nat n)).
  assert (Hm : (0 < m)%Q).
  { unfold m. rewrite <- (Zlt_Qlt 0). lia. }
  split.
  - change 0 with (Qfloor 0). apply Qfloor_resp_le.
    apply Qmult_le_0_compat; [done | by apply Qlt_le_weak].
  - rewrite Zlt_Qlt. eapply Qle_lt_trans; [apply Qfloor_le|].
    fold m. rewrite <- (Qmult_1_l m) at 2.
    by apply Qmult_lt_compat_r.
Qed.


(** ** Joining a room *)




Example join_sharp_s_sample :
  String.length (Js.trim Sample.code_sharp_s) = 5%nat
  ∧ Js.toUpperCase (Js.trim Sample.code_sharp_s) = "ABCDSS"
  ∧ Room.room_code
    <$> (fst <$> (RoomManager.joinRoom Sample.code_sharp_s "Bo" (1 # 2) "p9"
                    Sample.world_ss).2 ≫= id)
    = Some "ABCDSS"
  ∧ length (Server.players
              (Api.db (RoomManager.joinRoom Sample.code_sharp_s "Bo" (1 # 2) "p9"
                         Sample.world_ss).1))
    = 2%nat.
Proof. split_and!; by vm_compute. Qed.

Lemma post_player_players room_id player_name color new_id db db' p :
  Server.post_player room_id player_name color new_id db = (db', Server.Ok p) →
  ∃ c, color = Some c
       ∧ p = {| Player.id := new_id; Player.room_id := room_id;
                Player.player_name := player_name; Player.ghost_color := c;
                Player.total_score := 0 |}
       ∧ db' = Server.set_players (Server.players db ++ [p]) db.
Proof.
  unfold Server.post_player. intros Hp.
  destruct color as [c|]; [|by simplify_eq].
  destruct (_ || _); simplify_eq. by exists c.
Qed.

Lemma post_player_error room_id player_name color new_id db db' e :
  Server.post_player room_id player_name color new_id db = (db', Server.Error e) →
  db' = db.
Proof.
  unfold Server.post_player. intros Hp.
  destruct color as [c|]; [|by simplify_eq].
  destruct (_ || _); by simplify_eq.
Qed.

Lemma nth_elem_of {A} (l : list A) (i : Z) (a : A) : Js.nth l i = Some a → a ∈ l.
Proof.
  unfold Js.nth. destruct (i <? 0); [done|]. apply list_elem_of_lookup_2.
Qed.

(** [joinRoom] with the plumbing of promises unfolded: the requests it sends
    and the answer it gives, by cases. *)
Lemma joinRoom_run (roomCode playerName : string) (u : Q) (new_id : string) (w : Api.World) :
  RoomManager.joinRoom roomCode playerName u new_id w =
  let code := Js.toUpperCase (Js.trim roomCode) in
  if bool_decide (code = EmptyString) || negb (String.length code =? 6)%nat
  then (w, Some None)
  else
    let w1 := Api.logged w "GET" ("/api/rooms/" +:+ code) in
    match Server.get_room code (Api.db w) with
    | Server.Error _ => (w1, Some None)
    | Server.Ok room =>
        if negb (bool_decide (Room.status room = waiting)) then (w1, Some None)
        else
          let w2 := Api.logged w1 "GET" ("/api/rooms/" +:+ Room.id room +:+ "/players") in
          let members :=
            Server.select_where Player.room_id (Room.id room) (Server.players (Api.db w)) in
          let availableColors :=
            filter (λ color, color ∉ (Player.ghost_color <$> members)) RoomManager.palette in
          if (length availableColors =? 0)%nat then (w2, Some None)
          else if (10 <=? length members)%nat then (w2, Some None)
          else
            match Server.post_player (Room.id room) playerName
                    (Js.nth availableColors (Js.floor_mul u (length availableColors)))
                    new_id (Api.db w) with
            | (db', Server.Ok player) =>
                ({| Api.db := db'; Api.requests := Api.requests w2 ++ [("POST", "/api/players")] |},
                 Some (Some (room, player)))
            | (db', Server.Error _) =>
                ({| Api.db := db'; Api.requests := Api.requests w2 ++ [("POST", "/api/players")] |},
                 Some None)
            end
    end.
Proof.
  unfold RoomManager.joinRoom, Api.try_catch, mbind, Api_bind, Api.bind, mret, Api_ret,
    Api.ret, Api.rooms_getByCode, Api.players_getByRoom, Api.players_create, Api.request,
    Server.get_room_players, Api.logged.
  cbv zeta. cbn [Api.db Api.requests].
  repeat (case_match; cbn [Api.db Api.requests] in *; simplify_eq; try reflexivity).
Qed.

Theorem joinRoom_rejections (roomCode playerName : string) (u : Q) (new_id : string)
    (w : Api.World) :
  let code := Js.toUpperCase (Js.trim roomCode) in
  let out := RoomManager.joinRoom roomCode playerName u new_id w in
  (∀ room,
     Server.get_room code (Api.db w) = Server.Ok room →
     let members :=
       Server.select_where Player.room_id (Room.id room) (Server.players (Api.db w)) in
     Room.status room ≠ waiting
     ∨ (10 ≤ length members)%nat
     ∨ (∀ c, c ∈ RoomManager.palette → c ∈ (Player.ghost_color <$> members)) →
     out.2 = Some None ∧ Api.db out.1 = Api.db w)
  ∧ (∃ r, out.2 = Some r)
  ∧ (out.2 = Some None → Api.db out.1 = Api.db w)
  ∧ (∀ room player,
       out.2 = Some (Some (room, player)) →
       let members :=
         Server.select_where Player.room_id (Room.id room) (Server.players (Api.db w)) in
       Server.get_room code (Api.db w) = Server.Ok room
       ∧ Room.status room = waiting
       ∧ (length members < 10)%nat
       ∧ Player.ghost_color player ∈ RoomManager.palette
       ∧ (Player.ghost_color player ∉ (Player.ghost_color <$> members))
       ∧ Player.room_id player = Room.id room
       ∧ Server.players (Api.db out.1) = Server.players (Api.db w) ++ [player]).
Proof.
  intros code out. subst out. rewrite joinRoom_run. fold code. cbv zeta.
  destruct (bool_decide (code = EmptyString) || negb (String.length code =? 6)%nat).
  { split_and!; [done | by eexists | done | done]. }
  destruct (Server.get_room code (Api.db w)) as [room|e] eqn:Eroom.
  2:{ split_and!; [done | by eexists | done | done]. }
  destruct (decide (Room.status room = waiting)) as [Hst|Hst].
  2:{ rewrite bool_decide_false by done.
      split_and!; [by intros ? [= <-] | by eexists | done | done]. }
  rewrite bool_decide_true by done. cbn [negb].
  set (members := Server.select_where Player.room_id (Room.id room)
                    (Server.players (Api.db w))).
  set (availableColors := filter (λ color, color ∉ (Player.ghost_color <$> members))
                            RoomManager.palette).
  destruct (Nat.eqb_spec (length availableColors) 0) as [Hnone|Hsome].
  { split_and!; [by intros ? [= <-] | by eexists | done | done]. }
  destruct (Nat.leb_spec 10 (length members)) as [Hfull|Hroom].
  { split_and!; [by intros ? [= <-] | by eexists | done | done]. }
  destruct (Server.post_player _ _ _ _ _) as [db' [player|e]] eqn:Epost.
  - apply post_player_players in Epost as (c & Hc & Hp & ->).
    apply nth_elem_of in Hc. apply list_elem_of_filter in Hc as [Hfree Hpal].
    split_and!.
    + intros room' [= <-] [Hw|[Hten|Hused]].
      * done.
      * fold members in Hten. lia.
      * exfalso. apply Hfree. by apply Hused.
    + by eexists.
    + done.
    + intros room' player' [= <- <-]. subst player. by split_and!.
  - apply post_player_error in Epost as ->.
    split_and!; [by intros ? [= <-] | by eexists | done | done].
Qed.

Lemma joinRoom_rejections_witness :
  (RoomManager.joinRoom "abcdef" "Cy" (1 # 2) "p3" Sample.world_playing).2 = Some None
  ∧ Api.db (RoomManager.joinRoom "abcdef" "Cy" (1 # 2) "p3" Sample.world_playing).1
    = Sample.db_playing.
Proof.
  destruct (joinRoom_rejections "abcdef" "Cy" (1 # 2) "p3" Sample.world_playing)
    as (Hreject & _).
  apply (Hreject Sample.room_playing); [reflexivity|].
  left. discriminate.
Defined.

(** ** Completing a game *)

(** What the score update of one ranking record does to the database. *)
Lemma NoDup_fmap_eq {A B} (f : A → B) (l : list A) (a b : A) :
  NoDup (f <$> l) → a ∈ l → b ∈ l → f a = f b → a = b.
Proof.
  induction l as [|c l IH]; intros Hnd Ha Hb Hf; [by apply elem_of_nil in Ha|].
  rewrite fmap_cons in Hnd. apply NoDup_cons in Hnd as [Hc Hnd].
  apply elem_of_cons in Ha as [->|Ha]; apply elem_of_cons in Hb as [->|Hb].
  - done.
  - exfalso. apply Hc. rewrite Hf. by apply list_elem_of_fmap_2.
  - exfalso. apply Hc. rewrite <- Hf. by apply list_elem_of_fmap_2.
  - by apply IH.
Qed.

Lemma select_where_elem {A} (key : A → string) (k : string) (rows : list A) (r : A) :
  r ∈ Server.select_where key k rows ↔ key r = k ∧ r ∈ rows.
Proof. unfold Server.select_where. by rewrite list_elem_of_filter. Qed.

Lemma select_where_nil {A} (key : A → string) (k : string) (rows : list A) :
  Server.select_where key k rows = [] ↔ k ∉ key <$> rows.
Proof.
  split.
  - intros Hnil Hin. apply list_elem_of_fmap in Hin as (r & -> & Hr).
    assert (r ∈ Server.select_where key (key r) rows) as Hsel
      by by apply select_where_elem.
    rewrite Hnil in Hsel. by apply elem_of_nil in Hsel.
  - intros Hnot. apply elem_of_nil_inv. intros r [<- Hr]%select_where_elem.
    apply Hnot. by apply list_elem_of_fmap_2.
Qed.

Lemma update_where_id {A} (key : A → string) (k : string) (f : A → A) (rows : list A) :
  k ∉ key <$> rows → Server.update_where key k f rows = rows.
Proof.
  intros Hnot. unfold Server.update_where.
  rewrite <- (list_fmap_id rows) at 2. apply Forall_fmap_ext, Forall_forall.
  intros r Hr. destruct (decide (key r = k)) as [<-|]; [|done].
  exfalso. apply Hnot. by apply list_elem_of_fmap_2.
Qed.

(** The database after the score update of one ranking record. *)
Lemma credit_run (result : GameResult) (w : Api.World) :
  let body := GameManager.creditPlayer result in
  (body w).2 = Some ()
  ∧ Server.rooms (Api.db (body w).1) = Server.rooms (Api.db w)
  ∧ Server.game_sessions (Api.db (body w).1) = Server.game_sessions (Api.db w)
  ∧ (NoDup (Player.id <$> Server.players (Api.db w)) →
       Server.players (Api.db (body w).1)
       = (λ p, if decide (Player.id p = GameResult.player_id result)
               then Player.set_total_score (Player.total_score p + GameResult.points result) p
               else p) <$> Server.players (Api.db w)).
Proof.
  cbv zeta.
  unfold GameManager.creditPlayer, Api.try_catch, mbind, Api_bind, Api.bind, mret, Api_ret, Api.ret,
    Api.players_getById, Api.players_update, Api.request, Server.get_player,
    Server.patch_player.
  cbn [Api.db Api.requests].
  destruct (Server.select_where Player.id (GameResult.player_id result)
              (Server.players (Api.db w))) as [|p0 rest] eqn:Esel;
    cbn [Api.db Api.requests fst snd Server.set_players Server.rooms Server.players
         Server.game_sessions].
  - split_and!; [done..|]. intros _.
    apply select_where_nil in Esel.
    rewrite <- (update_where_id Player.id (GameResult.player_id result)
                 (Player.set_total_score 0) _ Esel) at 1.
    unfold Server.update_where. apply Forall_fmap_ext, Forall_forall.
    intros p Hp. destruct (decide _) as [E|]; [|done].
    exfalso. apply Esel. rewrite <- E. by apply list_elem_of_fmap_2.
  - split_and!; [done..|]. intros Hnd.
    unfold Server.update_where. apply Forall_fmap_ext, Forall_forall.
    intros p Hp. destruct (decide _) as [E|]; [|done].
    assert (p0 ∈ Server.select_where Player.id (GameResult.player_id result)
                   (Server.players (Api.db w))) as [E0 Hp0]%select_where_elem
      by (rewrite Esel; apply list_elem_of_here).
    assert (p = p0) as -> by (apply (NoDup_fmap_eq Player.id _ _ _ Hnd Hp Hp0); congruence).
    done.
Qed.

(** The score a player has after the loop over a ranking: the points of the
    player's record are added, and a player without a record keeps the
    score. *)
Lemma credit_all (results : list GameResult) (w : Api.World) :
  let out := Api.for_of results GameManager.creditPlayer w in
  out.2 = Some ()
  ∧ Server.rooms (Api.db out.1) = Server.rooms (Api.db w)
  ∧ Server.game_sessions (Api.db out.1) = Server.game_sessions (Api.db w)
  ∧ (NoDup (Player.id <$> Server.players (Api.db w)) →
     NoDup (GameResult.player_id <$> results) →
       Server.players (Api.db out.1)
       = (λ p, match find (λ r, bool_decide (GameResult.player_id r = Player.id p)) results with
               | Some r => Player.set_total_score (Player.total_score p + GameResult.points r) p
               | None => p
               end) <$> Server.players (Api.db w)).
Proof.
  revert w. induction results as [|r results IH]; intros w; cbv zeta.
  { cbn [Api.for_of]. split_and!; [done..|]. intros _ _. cbn [find].
    by rewrite list_fmap_id. }
  destruct (credit_run r w) as (Hok & Hrooms & Hsess & Hplayers).
  assert (Hstep : Api.for_of (r :: results) GameManager.creditPlayer w
                  = Api.for_of results GameManager.creditPlayer
                      (GameManager.creditPlayer r w).1).
  { cbn [Api.for_of]. unfold Api.bind.
    destruct (GameManager.creditPlayer r w) as [w1 o1]. cbn [fst snd] in *. by subst o1. }
  rewrite Hstep. clear Hstep.
  destruct (GameManager.creditPlayer r w) as [w1 o1]. cbn [fst snd] in *. subst o1.
  destruct (IH w1) as (Hok' & Hrooms' & Hsess' & Hplayers').
  split_and!; [done | congruence | congruence |].
  intros Hnd Hres. rewrite fmap_cons in Hres. apply NoDup_cons in Hres as [Hr Hres].
  specialize (Hplayers Hnd).
  assert (Hnd1 : NoDup (Player.id <$> Server.players (Api.db w1))).
  { rewrite Hplayers, <- list_fmap_compose.
    replace ((Player.id ∘ _) <$> Server.players (Api.db w))
      with (Player.id <$> Server.players (Api.db w)); [done|].
    apply Forall_fmap_ext, Forall_forall. intros p _. cbn [compose].
    by destruct (decide _). }
  rewrite (Hplayers' Hnd1 Hres).
  rewrite Hplayers, <- list_fmap_compose.
  apply Forall_fmap_ext, Forall_forall. intros p _. cbn [compose find].
  destruct (decide (Player.id p = GameResult.player_id r)) as [E|E].
  - rewrite (bool_decide_true (GameResult.player_id r = Player.id p)) by done.
    cbn [Player.set_total_score Player.id].
    destruct (find _ results) as [r'|] eqn:Efind; [|done].
    apply find_some in Efind as [Hin Heq]. apply bool_decide_eq_true in Heq.
    exfalso. apply Hr. rewrite <- E, <- Heq. by apply list_elem_of_fmap_2, list_elem_of_In.
  - rewrite (bool_decide_false (GameResult.player_id r = Player.id p)) by done. done.
Qed.

(** [completeGame] with the plumbing of promises unfolded. *)
Lemma completeGame_run (gameId : string) (results : list GameResult) (now : string)
    (w : Api.World) :
  GameManager.completeGame gameId results now w =
  let body := {| Server.patch_status := Some completed;
                 Server.patch_results := Some results;
                 Server.patch_started_at := None;
                 Server.patch_completed_at := Some now;
                 Server.patch_game_state := None |} in
  match Server.select_where GameSession.id gameId (Server.game_sessions (Api.db w)) with
  | [] => (Api.logged w "PATCH" ("/api/game-sessions/" +:+ gameId), Some false)
  | _ :: _ =>
      let w1 :=
        {| Api.db := Server.set_game_sessions
                       (Server.update_where GameSession.id gameId (Server.apply_patch body)
                          (Server.game_sessions (Api.db w))) (Api.db w);
           Api.requests := Api.requests w ++ [("PATCH", "/api/game-sessions/" +:+ gameId)] |} in
      match Api.for_of results GameManager.creditPlayer w1 with
      | (w2, Some _) => (w2, Some true)
      | (w2, None) => (w2, Some false)
      end
  end.
Proof.
  unfold GameManager.completeGame, Api.try_catch, mbind, Api_bind, Api.bind, mret, Api_ret,
    Api.ret, Api.gameSessions_update, Api.request, Server.patch_game_session, Api.logged.
  cbn [Server.patch_is_empty Server.patch_status]. cbv zeta.
  destruct (Server.select_where GameSession.id gameId (Server.game_sessions (Api.db w)));
    [reflexivity|].
  by destruct (Api.for_of _ _ _) as [w2 [[]|]].
Qed.

(** C8.  [completeGame] on a session that exists, in a database whose player
    keys are unique, with a ranking that lists no player twice, resolves to
    [true]; afterwards the session has status [completed], the ranking as
    its results and the completion time, every other session is as it was,
    and every player with a record in the ranking has the former score plus
    the points of that record, every other player the former score. *)
Theorem completeGame_records_and_credits (gameId : string) (results : list GameResult)
    (now : string) (w : Api.World) :
  gameId ∈ GameSession.id <$> Server.game_sessions (Api.db w) →
  NoDup (Player.id <$> Server.players (Api.db w)) →
  NoDup (GameResult.player_id <$> results) →
  let out := GameManager.completeGame gameId results now w in
  out.2 = Some true
  ∧ Server.game_sessions (Api.db out.1)
    = (λ s, if decide (GameSession.id s = gameId)
            then {| GameSession.id := GameSession.id s;
                    GameSession.room_id := GameSession.room_id s;
                    GameSession.game_type := GameSession.game_type s;
                    GameSession.game_number := GameSession.game_number s;
                    GameSession.status := completed;
                    GameSession.results := results;
                    GameSession.game_state := GameSession.game_state s;
                    GameSession.started_at := GameSession.started_at s;
                    GameSession.completed_at := Some now |}
            else s) <$> Server.game_sessions (Api.db w)
  ∧ Server.players (Api.db out.1)
    = (λ p, match find (λ r, bool_decide (GameResult.player_id r = Player.id p)) results with
            | Some r => Player.set_total_score (Player.total_score p + GameResult.points r) p
            | None => p
            end) <$> Server.players (Api.db w)
  ∧ (∀ p r, p ∈ Server.players (Api.db w) → r ∈ results →
            GameResult.player_id r = Player.id p →
            Player.set_total_score (Player.total_score p + GameResult.points r) p
            ∈ Server.players (Api.db out.1))
  ∧ Server.rooms (Api.db out.1) = Server.rooms (Api.db w).
Proof.
  intros Hsession Hkeys Hres out. subst out. rewrite completeGame_run. cbv zeta.
  destruct (Server.select_where GameSession.id gameId (Server.game_sessions (Api.db w)))
    as [|s0 rest] eqn:Esel.
  { apply select_where_nil in Esel. done. }
  set (w1 := {| Api.db := _; Api.requests := _ |}).
  destruct (credit_all results w1) as (Hok & Hrooms & Hsess & Hplayers).
  destruct (Api.for_of results GameManager.creditPlayer w1) as [w2 o2].
  cbn [fst snd] in *. subst o2. cbn [fst snd].
  assert (Hcredited : Server.players (Api.db w2)
            = (λ p, match find (λ r, bool_decide (GameResult.player_id r = Player.id p))
                            results with
                    | Some r => Player.set_total_score
                                  (Player.total_score p + GameResult.points r) p
                    | None => p
                    end) <$> Server.players (Api.db w)).
  { by apply Hplayers. }
  split_and!.
  - done.
  - rewrite Hsess. reflexivity.
  - done.
  - intros p r Hp Hr Hid. rewrite Hcredited.
    apply list_elem_of_fmap. exists p. split; [|done].
    destruct (find _ results) as [r'|] eqn:Efind.
    + apply find_some in Efind as [Hin Heq]. apply bool_decide_eq_true in Heq.
      apply list_elem_of_In in Hin.
      assert (r' = r) as -> by (apply (NoDup_fmap_eq GameResult.player_id results); congruence).
      done.
    + exfalso. apply list_elem_of_In in Hr.
      apply (find_none _ _ Efind) in Hr. by apply bool_decide_eq_false in Hr.
  - by rewrite Hrooms.
Qed.

Lemma completeGame_records_and_credits_witness :
  (GameManager.completeGame "s1" Sample.ranking2 "2025-01-01T00:00:00.000Z" Sample.world).2
  = Some true
  ∧ Player.total_score <$>
      Server.players
        (Api.db (GameManager.completeGame "s1" Sample.ranking2 "2025-01-01T00:00:00.000Z"
                   Sample.world).1)
    = [1; 2].
Proof.
  destruct (completeGame_records_and_credits "s1" Sample.ranking2
              "2025-01-01T00:00:00.000Z" Sample.world) as (Hok & _ & Hplayers & _).
  - apply (bool_decide_unpack _). by vm_compute.
  - apply (bool_decide_unpack _). by vm_compute.
  - apply (bool_decide_unpack _). by vm_compute.
  - split; [exact Hok|]. rewrite Hplayers. reflexivity.
Defined.

(** ** The status of a room *)

Lemma select_update_where {A} (key : A → string) (k : string) (f : A → A) (rows : list A) :
  (∀ r, key (f r) = key r) →
  Server.select_where key k (Server.update_where key k f rows)
  = f <$> Server.select_where key k rows.
Proof.
  intros Hkey. unfold Server.select_where, Server.update_where.
  induction rows as [|r rows IH]; [done|].
  cbn. destruct (decide (key r = k)) as [E|E].
  - rewrite decide_True by (by rewrite Hkey). cbn. f_equal. apply IH.
  - rewrite decide_False by done. apply IH.
Qed.

Lemma last_cons_default {A} (l : list A) (a d : A) : List.last (a :: l) d = List.last l a.
Proof.
  revert a d. induction l as [|b l IH]; intros a d; [done|].
  change (List.last (a :: b :: l) d) with (List.last (b :: l) d).
  by rewrite !IH.
Qed.

(** One call of [updateRoomStatus] on a room that exists stores the
    requested status, whatever the status was. *)
Lemma updateRoomStatus_stores (roomId : string) (status s0 : RoomStatus) (w : Api.World) :
  status_of roomId (Api.db w) = Some s0 →
  (RoomManager.updateRoomStatus roomId status w).2 = Some true
  ∧ status_of roomId (Api.db (RoomManager.updateRoomStatus roomId status w).1) = Some status.
Proof.
  unfold status_of, RoomManager.updateRoomStatus, Api.try_catch, mbind, Api_bind, Api.bind,
    Api.rooms_update, Api.request, Server.patch_room.
  intros Hs.
  destruct (Server.select_where Room.id roomId (Server.rooms (Api.db w))) as [|r rest] eqn:E;
    [done|].
  cbn [Api.db fst snd mret Api_ret Api.ret Server.set_rooms Server.rooms].
  split; [done|].
  rewrite select_update_where by done. by rewrite E.
Qed.

(** C4, as the code has it.  Neither the client nor the server compares the
    requested status with the current one: after any sequence of status
    updates on a room that exists, the status of the room is the one
    requested last (the initial one if nothing was requested).  So the
    status stays at or after its starting point whenever the last request
    does, and nothing else keeps it from going back. *)
Theorem room_status_follows_requests (roomId : string) (requested : list RoomStatus)
    (s0 : RoomStatus) (w : Api.World) :
  status_of roomId (Api.db w) = Some s0 →
  status_of roomId (Api.db (RoomManager.updateRoomStatus_seq roomId requested w))
  = Some (List.last requested s0)
  ∧ ((status_rank s0 ≤ status_rank (List.last requested s0))%nat →
     ∃ s, status_of roomId (Api.db (RoomManager.updateRoomStatus_seq roomId requested w))
          = Some s
          ∧ (status_rank s0 ≤ status_rank s)%nat).
Proof.
  intros Hs.
  assert (Hlast : status_of roomId
                    (Api.db (RoomManager.updateRoomStatus_seq roomId requested w))
                  = Some (List.last requested s0)).
  { revert s0 w Hs. induction requested as [|s requested IH]; intros s0 w Hs; [done|].
    unfold RoomManager.updateRoomStatus_seq. cbn [fold_left].
    destruct (updateRoomStatus_stores roomId s s0 w Hs) as [_ Hs'].
    specialize (IH s _ Hs'). unfold RoomManager.updateRoomStatus_seq in IH.
    rewrite IH. by rewrite last_cons_default. }
  split; [done|]. intros Hle. eexists. split; [exact Hlast | done].
Qed.

Lemma room_status_follows_requests_witness :
  status_of "r1" (Api.db (RoomManager.updateRoomStatus_seq "r1" [playing; finished]
                            Sample.world))
  = Some finished.
Proof.
  destruct (room_status_follows_requests "r1" [playing; finished] waiting Sample.world)
    as [Hlast _]; [reflexivity|].
  exact Hlast.
Defined.

(** C4, as the specification has it, fails: a status update can take a room
    from playing back to waiting. *)
Lemma room_status_can_regress :
  ¬ (∀ (roomId : string) (requested : list RoomStatus) (w : Api.World) (s s' : RoomStatus),
       status_of roomId (Api.db w) = Some s →
       status_of roomId (Api.db (RoomManager.updateRoomStatus_seq roomId requested w))
       = Some s' →
       (status_rank s ≤ status_rank s')%nat).
Proof.
  intros Hmono.
  specialize (Hmono "r1" [waiting] Sample.world_playing playing waiting).
  cbn [status_rank] in Hmono.
  assert (1 ≤ 0)%nat as Habs; [|lia].
  apply Hmono; reflexivity.
Qed.

(** ** The persisted game state *)

(** [game-state-update] on a session that exists leaves the published
    object as the whole stored blob: what was stored before is gone. *)
Lemma on_game_state_update_replaces (gameSessionId : string) (gameState : gmap string Json)
    (db : Server.Db) :
  gameSessionId ∈ GameSession.id <$> Server.game_sessions db →
  Server.select_game_state gameSessionId
    (Server.on_game_state_update gameSessionId gameState db).1
  = Some gameState.
Proof.
  intros Hin. unfold Server.select_game_state, Server.on_game_state_update,
    Server.update_game_state.
  cbn [fst Server.game_sessions Server.set_game_sessions].
  rewrite select_update_where by done.
  destruct (Server.select_where GameSession.id gameSessionId (Server.game_sessions db))
    as [|s rest] eqn:E; [|done].
  by apply select_where_nil in E.
Qed.

(** The sibling handler [player-state-update] reads the stored blob and
    writes it back with one entry changed: every key but [players] keeps
    its value. *)
Lemma set_player_entry_keeps (playerId : string) (entry : Json) (gs : gmap string Json)
    (k : string) :
  k ≠ "players" → Server.set_player_entry playerId entry gs !! k = gs !! k.
Proof.
  intros Hk. unfold Server.set_player_entry.
  destruct (gs !! "players") as [[]|]; try destruct (truthy _);
    by rewrite ?lookup_insert_ne by done.
Qed.

(** So does the [disconnect] handler for every key but
    [disconnected_players]. *)
Lemma add_disconnected_keeps (playerId : string) (gs : gmap string Json) (k : string) :
  k ≠ "disconnected_players" → Server.add_disconnected playerId gs !! k = gs !! k.
Proof.
  intros Hk. unfold Server.add_disconnected.
  destruct (gs !! "disconnected_players") as [[]|]; try destruct (truthy _);
    try destruct (existsb _ _); by rewrite ?lookup_insert_ne by done.
Qed.

(** C3 at the failing input.  The server stores each published object in
    place of the blob: publishing [{a:1}] then [{b:2}] leaves [{b:2}],
    publishing them the other way round leaves [{a:1}], the two stored
    blobs differ, and neither has both keys.  In the bomb game, the object
    published on a pass after the one published on an explosion leaves a
    stored blob without the elimination list, and any published object
    wipes the [players] entries that the [player-state-update] handler
    merges into the same blob. *)
Theorem game_state_update_overwrites_blob :
  let a : gmap string Json := {[ "a" := JNum 1 ]} in
  let b : gmap string Json := {[ "b" := JNum 2 ]} in
  let publish gs db := (Server.on_game_state_update "s1" gs db).1 in
  let stored db := Server.select_game_state "s1" db in
  stored Sample.db_waiting = Some ∅
  ∧ stored (publish b (publish a Sample.db_waiting)) = Some b
  ∧ stored (publish a (publish b Sample.db_waiting)) = Some a
  ∧ stored (publish b (publish a Sample.db_waiting))
    ≠ stored (publish a (publish b Sample.db_waiting))
  ∧ b !! "a" = None ∧ a !! "b" = None
  ∧ (∃ gs, stored (publish (Msg.to_json (TagBomb.msg_pass "p2" 1500))
                     (publish (Msg.to_json (TagBomb.msg_exploded ["p1"]))
                        Sample.db_waiting)) = Some gs
           ∧ gs !! "eliminated_players" = None)
  ∧ (∃ gs gs',
       stored (Server.on_player_state_update "s1" "p1" JNull (JBool true) "t0"
                 Sample.db_waiting).1 = Some gs
       ∧ is_Some (gs !! "players")
       ∧ stored (publish a (Server.on_player_state_update "s1" "p1" JNull (JBool true) "t0"
                              Sample.db_waiting).1) = Some gs'
       ∧ gs' !! "players" = None).
Proof.
  cbv zeta. split_and!.
  - reflexivity.
  - apply on_game_state_update_replaces. apply (bool_decide_unpack _). by vm_compute.
  - apply on_game_state_update_replaces. apply (bool_decide_unpack _). by vm_compute.
  - rewrite !on_game_state_update_replaces by (apply (bool_decide_unpack _); by vm_compute).
    intros Hab. apply (f_equal (λ o : option (gmap string Json), o ≫= (.!! "a"))) in Hab.
    by vm_compute in Hab.
  - reflexivity.
  - reflexivity.
  - eexists. split.
    + apply on_game_state_update_replaces. apply (bool_decide_unpack _). by vm_compute.
    + reflexivity.
  - eexists _, _. split_and!.
    + reflexivity.
    + vm_compute. by eexists.
    + apply on_game_state_update_replaces. apply (bool_decide_unpack _). by vm_compute.
    + reflexivity.
Qed.

(** The client side does merge: [handleGameStateChange] overwrites the
    local counterpart of each key the received object has and leaves the
    others alone. *)
Lemma handleGameStateChange_per_key (gameState : Msg) (state : TagBomb.GameState) :
  let state' := next (TagBomb.handleGameStateChange gameState state) in
  (Msg.bomb_holder_id gameState = None →
     TagBomb.bombHolderId state' = TagBomb.bombHolderId state
     ∧ TagBomb.ghosts state' = TagBomb.ghosts state)
  ∧ (Msg.eliminated_players gameState = None →
       TagBomb.eliminatedPlayers state' = TagBomb.eliminatedPlayers state
       ∧ TagBomb.gameCompleted state' = TagBomb.gameCompleted state)
  ∧ (Msg.bomb_timer gameState = None → TagBomb.bombTimer state' = TagBomb.bombTimer state)
  ∧ (∀ holder, Msg.bomb_holder_id gameState = Some holder →
               TagBomb.bombHolderId state' = holder)
  ∧ (∀ eliminated, Msg.eliminated_players gameState = Some eliminated →
                   TagBomb.eliminatedPlayers state' = eliminated)
  ∧ (∀ t, Msg.bomb_timer gameState = Some t → TagBomb.bombTimer state' = t).
Proof.
  unfold TagBomb.handleGameStateChange. cbv zeta.
  destruct (Msg.bomb_holder_id gameState) as [holder|];
    destruct (Msg.eliminated_players gameState) as [eliminated|];
    destruct (Msg.bomb_timer gameState) as [t|];
    repeat match goal with |- context [if ?b then _ else _] => destruct b end;
    cbn; split_and!; intros; simplify_eq; done.
Qed.

(** ** The start of a minigame *)

Lemma everyone_first_spec (players : list Player) (r : GameResult) :
  r ∈ everyone_first players → GameResult.rank r = 1 ∧ GameResult.points r = 1.
Proof.
  unfold everyone_first. intros (p & -> & _)%list_elem_of_fmap. done.
Qed.

(** The three minigames with a guard complete at once on a roster of fewer
    than two, with every present player ranked first with one point. *)
Lemma guarded_games_short_circuit (H : Js.Host) (players : list Player)
    (gameSessionId : string) (now : Q) :
  (length players < 2)%nat →
  TagBomb.start H players gameSessionId now = TagBomb.Completed (everyone_first players)
  ∧ PlatformPush.start_guard players = Some (everyone_first players)
  ∧ FallingTiles.start_guard players = Some (everyone_first players)
  ∧ length (everyone_first players) = length players.
Proof.
  intros Hlt. unfold TagBomb.start, PlatformPush.start_guard, FallingTiles.start_guard.
  destruct (Nat.ltb_spec (length players) 2) as [_|?]; [|lia].
  split_and!; [done..|]. unfold everyone_first. by rewrite length_fmap.
Qed.

(** The loop of the boulder game on a game without entities: nobody is
    alive, so no frame hands over a ranking. *)
Lemma boulder_loop_no_entities (H : Js.Host) (players : list Player) (currentPlayerId : string)
    (f : BoulderRun.Frame) (c : BoulderRun.Component) :
  BoulderRun.ghosts (BoulderRun.state c) = [] →
  finished_with (BoulderRun.loop H players currentPlayerId f c) = None
  ∧ BoulderRun.ghosts (BoulderRun.state (next (BoulderRun.loop H players currentPlayerId f c)))
    = [].
Proof.
  intros Hg. unfold BoulderRun.loop.
  destruct (Js.Qeqb (BoulderRun.lastTime c) 0); [done|].
  rewrite Hg. cbn [BoulderRun.moveCurrent Js.Map_get fmap list_fmap].
  destruct (if Js.Qltb 800 _ then _ else _) as [spawned lastSpawn'].
  unfold BoulderRun.collide. cbn [Js.Map_values fmap list_fmap fold_left filter list_filter].
  done.
Qed.

(** C7 at the failing input.  On a roster of one player the bomb game, the
    platform game and the tile game complete at once with that player
    ranked first with one point.  The boulder game has no such guard: its
    mounting effect sets the game up with nothing completed, the first call
    of its loop hands over nothing, the ranking only comes out of the
    second call, after the elimination pass, and on an empty roster no
    sequence of frames ever hands over a ranking. *)
Theorem boulder_game_has_no_short_circuit :
  let p := Sample.player "p1" "Ana" "red" in
  let first := {| GameResult.player_id := "p1"; GameResult.player_name := "Ana";
                  GameResult.rank := 1; GameResult.points := 1 |} in
  TagBomb.start Sample.host [p] "s1" 1000 = TagBomb.Completed [first]
  ∧ PlatformPush.start_guard [p] = Some [first]
  ∧ FallingTiles.start_guard [p] = Some [first]
  ∧ BoulderRun.gameCompleted (BoulderRun.state (BoulderRun.start [p])) = false
  ∧ BoulderRun.eliminatedPlayers (BoulderRun.state (BoulderRun.start [p])) = []
  ∧ finished_with (BoulderRun.loop Sample.host [p] "p1" (Sample.boulder_frame 16)
                     (BoulderRun.start [p])) = None
  ∧ (BoulderRun.run Sample.host [p] "p1" [Sample.boulder_frame 16; Sample.boulder_frame 32]
       (BoulderRun.start [p])).2 = Some [first]
  ∧ (∀ (H : Js.Host) (currentPlayerId : string) (frames : list BoulderRun.Frame),
       (BoulderRun.run H [] currentPlayerId frames (BoulderRun.start [])).2 = None).
Proof.
  cbv zeta. split_and!; try reflexivity.
  intros H currentPlayerId frames.
  assert (Hrun : ∀ c, BoulderRun.ghosts (BoulderRun.state c) = [] →
                      (BoulderRun.run H [] currentPlayerId frames c).2 = None).
  { induction frames as [|f frames IH]; intros c Hc; [done|].
    cbn [BoulderRun.run].
    destruct (boulder_loop_no_entities H [] currentPlayerId f c Hc) as [-> Hnext].
    by apply IH. }
  by apply Hrun.
Qed.

(** ** The elimination list *)

Lemma includes_true (l : list string) (a : string) : Js.includes l a = true ↔ a ∈ l.
Proof. unfold Js.includes. apply bool_decide_eq_true. Qed.

Lemma includes_false (l : list string) (a : string) : Js.includes l a = false ↔ a ∉ l.
Proof. unfold Js.includes. apply bool_decide_eq_false. Qed.

Lemma NoDup_snoc_fresh (l : list string) (a : string) : NoDup l → a ∉ l → NoDup (l ++ [a]).
Proof.
  intros Hnd Ha. apply NoDup_app. split_and!; [done | | apply NoDup_singleton].
  intros b Hb ->%list_elem_of_singleton. done.
Qed.

(** The appends that test membership first keep the list free of
    duplicates: the disconnect handler of the bomb game and the gameplay
    eliminations of the platform and tile games. *)
Lemma guarded_appends_keep_NoDup (players : list Player) (currentPlayerId playerId : string)
    (state : TagBomb.GameState) (flag : bool) (eliminated : list string) :
  (NoDup (TagBomb.eliminatedPlayers state) →
     NoDup (TagBomb.eliminatedPlayers
              (next (TagBomb.handlePlayerDisconnected players currentPlayerId playerId state))))
  ∧ (NoDup eliminated → NoDup (PlatformPush.eliminate flag playerId eliminated))
  ∧ (NoDup eliminated → NoDup (FallingTiles.eliminate flag playerId eliminated)).
Proof.
  split_and!.
  - intros Hnd. unfold TagBomb.handlePlayerDisconnected.
    destruct (bool_decide (playerId = currentPlayerId)); [done|].
    destruct (Js.includes (TagBomb.eliminatedPlayers state) playerId) eqn:E; [done|].
    apply includes_false in E.
    cbn [TagBomb.eliminatedPlayers TagBomb.set_eliminatedPlayers TagBomb.ghosts
         TagBomb.gameCompleted].
    destruct (_ && _); [destruct (TagBomb.remainingPlayers _ _)|];
      by apply NoDup_snoc_fresh.
  - intros Hnd. unfold PlatformPush.eliminate.
    destruct flag; [|done]. cbn [andb].
    destruct (Js.includes eliminated playerId) eqn:E; [done|].
    apply includes_false in E. by apply NoDup_snoc_fresh.
  - intros Hnd. unfold FallingTiles.eliminate.
    destruct (Js.includes eliminated playerId) eqn:E; [done|].
    apply includes_false in E. destruct flag; [|done]. by apply NoDup_snoc_fresh.
Qed.

(** C5 at the failing inputs.  In the bomb game of a roster of three, the
    holder of the bomb disconnects: the disconnect handler appends the
    holder, and the bomb stays with it.  When the timer of the bomb then
    runs out, the loop appends the holder again, without a membership
    test, and publishes the list with the identity twice.  In the boulder
    game an entity under two boulders in one frame is appended once per
    boulder. *)
Theorem elimination_list_gets_duplicates :
  (∃ st0,
     TagBomb.start Sample.host Sample.roster3 "s1" 1000 = TagBomb.Running st0
     ∧ TagBomb.bombHolderId st0 = Some "p3"
     ∧ let gone := TagBomb.handlePlayerDisconnected Sample.roster3 "p1" "p3" st0 in
       let frame1 := TagBomb.gameLoop Sample.host Sample.roster3 "p1" "s1"
                       (Sample.bomb_frame 16 1016) (0%Q, next gone) in
       let frame2 := TagBomb.gameLoop Sample.host Sample.roster3 "p1" "s1"
                       (Sample.bomb_frame 32 31100) (next frame1) in
       TagBomb.eliminatedPlayers (next gone) = ["p3"]
       ∧ TagBomb.bombHolderId (next gone) = Some "p3"
       ∧ TagBomb.eliminatedPlayers (next frame2).2 = ["p3"; "p3"]
       ∧ published frame2 = [TagBomb.msg_exploded ["p3"; "p3"]]
       ∧ ¬ NoDup (TagBomb.eliminatedPlayers (next frame2).2))
  ∧ (let frame := BoulderRun.loop Sample.host Sample.roster3 "p2"
                    (Sample.boulder_frame 1016) Sample.boulders_over_first in
     BoulderRun.eliminatedPlayers (BoulderRun.state (next frame)) = ["p1"; "p1"]
     ∧ published frame = [BoulderRun.msg_eliminated ["p1"];
                          BoulderRun.msg_eliminated ["p1"; "p1"]]
     ∧ ¬ NoDup (BoulderRun.eliminatedPlayers (BoulderRun.state (next frame)))).
Proof.
  assert (Hdup : ∀ a : string, ¬ NoDup [a; a]).
  { intros a [Ha _]%NoDup_cons. apply Ha, list_elem_of_here. }
  split.
  - eexists. split; [by vm_compute|]. cbv zeta.
    split_and!; try (by vm_compute).
    replace (TagBomb.eliminatedPlayers _) with ["p3"; "p3"] by (by vm_compute).
    apply Hdup.
  - cbv zeta. split_and!; try (by vm_compute).
    replace (BoulderRun.eliminatedPlayers _) with ["p1"; "p1"] by (by vm_compute).
    apply Hdup.
Qed.

(** ** Sorting with a comparator *)

Section SortFacts.
Context {A : Type} (cmp : A → A → Z).

Lemma insert_sorted_perm (x : A) (l : list A) : Js.insert_sorted cmp x l ≡ₚ x :: l.
Proof.
  induction l as [|y l IH]; [done|]. cbn [Js.insert_sorted].
  destruct (cmp x y <=? 0); [done|].
  rewrite IH. apply Permutation_swap.
Qed.

Lemma sort_perm (l : list A) : Js.sort cmp l ≡ₚ l.
Proof.
  induction l as [|x l IH]; [done|]. unfold Js.sort in *. cbn [foldr].
  by rewrite insert_sorted_perm, IH.
Qed.

Lemma sort_length (l : list A) : length (Js.sort cmp l) = length l.
Proof. by rewrite sort_perm. Qed.

(** A list in which every element compares at most equal to its successor
    is left as it is. *)
Lemma sort_sorted_id (l : list A) :
  Sorted (λ a b, cmp a b ≤ 0) l → Js.sort cmp l = l.
Proof.
  induction 1 as [|x l Hl IH Hx]; [done|].
  unfold Js.sort in *. cbn [foldr]. rewrite IH.
  destruct Hx as [|y l Hxy]; [done|]. cbn [Js.insert_sorted].
  destruct (Z.leb_spec (cmp x y) 0); [done | lia].
Qed.

(** On elements among which the comparator is total and transitive, the
    result is sorted. *)
Section Order.
Context (P : A → Prop).
Hypothesis cmp_total : ∀ a b, P a → P b → cmp a b ≤ 0 ∨ cmp b a ≤ 0.
Hypothesis cmp_trans : ∀ a b c, P a → P b → P c → cmp a b ≤ 0 → cmp b c ≤ 0 → cmp a c ≤ 0.

Lemma insert_sorted_StronglySorted (x : A) (l : list A) :
  P x → Forall P l →
  StronglySorted (λ a b, cmp a b ≤ 0) l →
  StronglySorted (λ a b, cmp a b ≤ 0) (Js.insert_sorted cmp x l).
Proof.
  intros Hx Hl Hs. induction Hs as [|y l Hs IH Hy]; cbn [Js.insert_sorted].
  { repeat constructor. }
  apply Forall_cons in Hl as [HPy Hl].
  destruct (Z.leb_spec (cmp x y) 0) as [Hxy|Hxy].
  - constructor; [by constructor|]. constructor; [done|].
    rewrite Forall_forall in Hy, Hl |- *. intros z Hz.
    apply (cmp_trans x y z); auto.
  - constructor; [by apply IH|].
    rewrite insert_sorted_perm. constructor; [|done].
    destruct (cmp_total x y Hx HPy); [lia | done].
Qed.

Lemma sort_StronglySorted (l : list A) :
  Forall P l → StronglySorted (λ a b, cmp a b ≤ 0) (Js.sort cmp l).
Proof.
  induction l as [|x l IH]; intros Hl; [constructor|].
  apply Forall_cons in Hl as [Hx Hl]. unfold Js.sort in *. cbn [foldr].
  apply insert_sorted_StronglySorted; [done | | by apply IH].
  fold (Js.sort cmp l). by rewrite sort_perm.
Qed.
End Order.
End SortFacts.

Lemma sort_fmap {A B} (f : A → B) (cmp : B → B → Z) (l : list A) :
  f <$> Js.sort (λ a b, cmp (f a) (f b)) l = Js.sort cmp (f <$> l).
Proof.
  unfold Js.sort. induction l as [|x l IH]; [done|].
  rewrite fmap_cons. cbn [foldr]. rewrite <- IH. clear IH.
  generalize (foldr (Js.insert_sorted (λ a b, cmp (f a) (f b))) [] l). intros k.
  induction k as [|y k IH]; [done|]. cbn [Js.insert_sorted]. rewrite fmap_cons.
  cbn [Js.insert_sorted]. destruct (cmp (f x) (f y) <=? 0); [done|].
  by rewrite fmap_cons, IH.
Qed.

(** ** The seed selector *)

Lemma simpleHash_nonneg (str : string) : 0 ≤ simpleHash str.
Proof. apply Z.abs_nonneg. Qed.

(** The hash is the absolute value of a 32-bit integer. *)
Lemma toInt32_range (z : Z) : - 2 ^ 31 ≤ Js.toInt32 z < 2 ^ 31.
Proof. unfold Js.toInt32. pose proof (Z.mod_pos_bound (z + 2 ^ 31) (2 ^ 32)). lia. Qed.

Lemma simpleHash_bound (str : string) : simpleHash str ≤ 2 ^ 31.
Proof.
  unfold simpleHash.
  assert (Hloop : ∀ s h, - 2 ^ 31 ≤ h < 2 ^ 31 → - 2 ^ 31 ≤ simpleHash_loop s h < 2 ^ 31).
  { induction s as [|c s IH]; intros h Hh; [done|]. cbn [simpleHash_loop]. apply IH.
    unfold simpleHash_step, Js.band. apply toInt32_range. }
  specialize (Hloop str 0 ltac:(lia)). lia.
Qed.

Lemma nth_rem_Some {A} (l : list A) (seed : Z) :
  0 ≤ seed → l ≠ [] → ∃ a, a ∈ l ∧ Js.nth l (Z.rem seed (Z.of_nat (length l))) = Some a.
Proof.
  intros Hseed Hl.
  assert (0 < length l)%nat by (destruct l; [done | cbn; lia]).
  pose proof (Z.rem_bound_pos seed (Z.of_nat (length l)) Hseed ltac:(lia)) as Hr.
  unfold Js.nth. destruct (Z.ltb_spec (Z.rem seed (Z.of_nat (length l))) 0); [lia|].
  destruct (lookup_lt_is_Some_2 l (Z.to_nat (Z.rem seed (Z.of_nat (length l)))))
    as [a Ha]; [lia|].
  exists a. split; [by eapply list_elem_of_lookup_2 | done].
Qed.

Lemma nth_fmap {A B} (f : A → B) (l : list A) (i : Z) :
  Js.nth (f <$> l) i = f <$> Js.nth l i.
Proof. unfold Js.nth. destruct (i <? 0); [done|]. apply list_lookup_fmap. Qed.

(** Under one collation the selection is a function of the text and of
    the set of identities.  The hash of a text is a non-negative integer.
    The selection over a non-empty list of participants is one of them.
    When the [localeCompare] of the host is a total order on these
    identities, two listings of the same identities, in any order and with
    whatever else the records hold, select the same identity for the same
    text.  A single participant is selected whatever the text. *)
Theorem seed_selection_deterministic {A B} (H : Js.Host) (key : A → string)
    (key' : B → string) (text : string) (l : list A) (l' : list B) :
  (∀ a b, a ∈ key <$> l → b ∈ key <$> l →
          Js.localeCompare H a b ≤ 0 ∨ Js.localeCompare H b a ≤ 0) →
  (∀ a b c, a ∈ key <$> l → b ∈ key <$> l → c ∈ key <$> l →
            Js.localeCompare H a b ≤ 0 → Js.localeCompare H b c ≤ 0 →
            Js.localeCompare H a c ≤ 0) →
  (∀ a b, a ∈ key <$> l → b ∈ key <$> l →
          Js.localeCompare H a b ≤ 0 → Js.localeCompare H b a ≤ 0 → a = b) →
  l ≠ [] →
  key' <$> l' ≡ₚ key <$> l →
  0 ≤ simpleHash text
  ∧ (∃ a, a ∈ l ∧ selectBySeed H key text l = Some a)
  ∧ key' <$> selectBySeed H key' text l' = key <$> selectBySeed H key text l
  ∧ (∀ a : A, selectBySeed H key text [a] = Some a).
Proof.
  intros Htotal Htrans Hanti Hne Hperm.
  split_and!.
  - apply simpleHash_nonneg.
  - unfold selectBySeed.
    destruct (nth_rem_Some (Js.sort (λ a b, Js.localeCompare H (key a) (key b)) l)
                (simpleHash text)) as (a & Ha & Hnth).
    + apply simpleHash_nonneg.
    + intros Hnil. apply Hne. apply Permutation_nil_r. by rewrite <- Hnil, sort_perm.
    + exists a. split; [by rewrite sort_perm in Ha | done].
  - unfold selectBySeed. rewrite <- !nth_fmap, !sort_fmap, !sort_length.
    assert (Hlen : length l' = length l).
    { by rewrite <- (length_fmap key' l'), Hperm, length_fmap. }
    rewrite Hlen. f_equal.
    apply (StronglySorted_unique_strong (λ a b, Js.localeCompare H a b ≤ 0)).
    + intros a b Ha Hb. rewrite sort_perm in Ha, Hb. rewrite Hperm in Ha. by apply Hanti.
    + apply (sort_StronglySorted _ (λ a, a ∈ key <$> l)); [done..|].
      apply Forall_forall. intros a Ha. by rewrite <- Hperm.
    + apply (sort_StronglySorted _ (λ a, a ∈ key <$> l)); [done..|].
      by apply Forall_forall.
    + by rewrite !sort_perm.
  - intros a. unfold selectBySeed. cbn. by rewrite Z.rem_1_r.
Qed.

Lemma codeCompare_le (a b : string) : Sample.codeCompare a b ≤ 0 ↔ String.le a b.
Proof.
  unfold Sample.codeCompare, String.le, String.leb.
  destruct (String.compare a b); cbn; split; (done || lia).
Qed.

Lemma seed_selection_deterministic_witness :
  Player.id <$> selectBySeed Sample.host Player.id "s1" (rev Sample.roster3)
  = Player.id <$> selectBySeed Sample.host Player.id "s1" Sample.roster3.
Proof.
  destruct (seed_selection_deterministic Sample.host Player.id Player.id "s1"
              Sample.roster3 (rev Sample.roster3)) as (_ & _ & Hsame & _).
  - intros a b _ _. rewrite !codeCompare_le. apply (total String.le).
  - intros a b c _ _ _. rewrite !codeCompare_le. apply transitivity.
  - intros a b _ _. rewrite !codeCompare_le. apply (anti_symm String.le).
  - discriminate.
  - apply (bool_decide_unpack _). by vm_compute.
  - exact Hsame.
Defined.

(** C2.  The selection is not a function of the session and the
    participants alone.  [localeCompare] is called without a locale, so the
    identities are sorted in the order of the client's own locale, and two
    clients need not sort them alike.  For the players [aa11], [b222],
    [c333] and the session [s1], whose hash is 3614, a client that sorts by
    character code puts the bomb on [c333], and a client in whose locale
    [aa] comes after [z] puts it on [aa11]; each of the two collations is a
    total order on the three identities, and the hash is the same non-negative
    number on both. *)
Theorem seed_selection_depends_on_collation :
  let ids := Player.id <$> Sample.roster_aa in
  let total_order (H : Js.Host) :=
    (∀ a b, a ∈ ids → b ∈ ids → Js.localeCompare H a b ≤ 0 ∨ Js.localeCompare H b a ≤ 0)
    ∧ (∀ a b c, a ∈ ids → b ∈ ids → c ∈ ids →
                Js.localeCompare H a b ≤ 0 → Js.localeCompare H b c ≤ 0 →
                Js.localeCompare H a c ≤ 0)
    ∧ (∀ a b, a ∈ ids → b ∈ ids →
              Js.localeCompare H a b ≤ 0 → Js.localeCompare H b a ≤ 0 → a = b) in
  let holder (H : Js.Host) :=
    match TagBomb.start H Sample.roster_aa "s1" 1000 with
    | TagBomb.Running st => TagBomb.bombHolderId st
    | _ => None
    end in
  total_order Sample.host ∧ total_order Sample.host_da
  ∧ simpleHash "s1" = 3614
  ∧ Player.id <$> selectBySeed Sample.host Player.id "s1" Sample.roster_aa = Some "c333"
  ∧ Player.id <$> selectBySeed Sample.host_da Player.id "s1" Sample.roster_aa = Some "aa11"
  ∧ holder Sample.host = Some "c333"
  ∧ holder Sample.host_da = Some "aa11".
Proof.
  cbn zeta.
  assert (Hids : ∀ a, a ∈ Player.id <$> Sample.roster_aa →
                      a = "aa11" ∨ a = "b222" ∨ a = "c333").
  { intros a Ha. cbn in Ha.
    repeat (apply elem_of_cons in Ha as [-> | Ha]; [tauto |]).
    by apply elem_of_nil in Ha. }
  split_and!; try (by vm_compute).
  - intros a b [-> | [-> | ->]]%Hids [-> | [-> | ->]]%Hids; vm_compute; intuition congruence.
  - intros a b c [-> | [-> | ->]]%Hids [-> | [-> | ->]]%Hids [-> | [-> | ->]]%Hids;
      vm_compute; intuition congruence.
  - intros a b [-> | [-> | ->]]%Hids [-> | [-> | ->]]%Hids; vm_compute; intuition congruence.
  - intros a b [-> | [-> | ->]]%Hids [-> | [-> | ->]]%Hids; vm_compute; intuition congruence.
  - intros a b c [-> | [-> | ->]]%Hids [-> | [-> | ->]]%Hids [-> | [-> | ->]]%Hids;
      vm_compute; intuition congruence.
  - intros a b [-> | [-> | ->]]%Hids [-> | [-> | ->]]%Hids; vm_compute; intuition congruence.
Qed.

(** ** The ranking *)

Lemma roster_ids (players : list Player) (ghosts : Js.Map Ghost) :
  TagBomb.ghosts_of_roster players ghosts →
  Ghost.id <$> Js.Map_values ghosts = Player.id <$> players.
Proof.
  unfold Js.Map_values. induction 1 as [|p kg players ghosts (_ & Hid & _) _ IH]; [done|].
  rewrite !fmap_cons. by rewrite Hid, IH.
Qed.

Lemma roster_lookup (players : list Player) (ghosts : Js.Map Ghost) (p : Player) :
  TagBomb.ghosts_of_roster players ghosts →
  NoDup (Player.id <$> players) →
  p ∈ players →
  ∃ g, Js.Map_get (Player.id p) ghosts = Some g
       ∧ Ghost.id g = Player.id p ∧ Ghost.name g = Player.player_name p.
Proof.
  induction 1 as [|p0 kg players ghosts (Hkey & Hid & Hname) _ IH]; intros Hnd Hp.
  { by apply elem_of_nil in Hp. }
  destruct kg as [k g]. cbn [fst snd] in *. cbn [Js.Map_get].
  destruct (decide (k = Player.id p)) as [E|E].
  - assert (p = p0) as ->.
    { apply (NoDup_fmap_eq Player.id (p0 :: players)); [done | done | left | congruence]. }
    by exists g.
  - rewrite fmap_cons in Hnd. apply NoDup_cons in Hnd as [_ Hnd].
    apply elem_of_cons in Hp as [->|Hp]; [congruence|]. by apply IH.
Qed.

Lemma roster_modify (players : list Player) (ghosts : Js.Map Ghost) (k : string)
    (f : Ghost → Ghost) :
  (∀ g, Ghost.id (f g) = Ghost.id g ∧ Ghost.name (f g) = Ghost.name g) →
  TagBomb.ghosts_of_roster players ghosts →
  TagBomb.ghosts_of_roster players (Js.Map_modify k f ghosts).
Proof.
  intros Hf. unfold TagBomb.ghosts_of_roster, Js.Map_modify.
  induction 1 as [|p kg players ghosts (Hkey & Hid & Hname) _ IH]; [constructor|].
  rewrite fmap_cons. constructor; [|done].
  destruct (decide (kg.1 = k)); [|done]. cbn [fst snd].
  destruct (Hf kg.2) as [-> ->]. done.
Qed.

(** The loop over the eliminated, when each of them has an entity. *)
Lemma ranking_loop (ghosts : Js.Map Ghost) (totalPlayers : Z) (gh : string → Ghost)
    (l : list string) :
  (∀ playerId, playerId ∈ l → Js.Map_get playerId ghosts = Some (gh playerId)) →
  ∀ (k : nat) (acc : list GameResult),
    Js.forEach_from
      (λ results playerId index,
         match Js.Map_get playerId ghosts with
         | Some ghost =>
             let rank := Z.of_nat index + 2 in
             results ++ [ {| GameResult.player_id := Ghost.id ghost;
                             GameResult.player_name := Ghost.name ghost;
                             GameResult.rank := rank;
                             GameResult.points := totalPlayers - rank + 1 |} ]
         | None => results
         end) l k acc
    = acc ++ zip_with
               (λ playerId index,
                  {| GameResult.player_id := Ghost.id (gh playerId);
                     GameResult.player_name := Ghost.name (gh playerId);
                     GameResult.rank := Z.of_nat index + 2;
                     GameResult.points := totalPlayers - (Z.of_nat index + 2) + 1 |})
               l (seq k (length l)).
Proof.
  induction l as [|playerId l IH]; intros Hl k acc.
  { cbn. by rewrite app_nil_r. }
  cbn [Js.forEach_from length seq zip_with].
  rewrite (Hl playerId) by left. cbv zeta.
  rewrite IH by (intros; apply Hl; by right).
  by rewrite <- app_assoc.
Qed.

(** The loop over the roster, when every player is already listed. *)
Lemma ranking_fallback_skips (players : list Player) (known : list string) (total : Z)
    (results : list GameResult) :
  (∀ p, p ∈ players → Player.id p ∈ known) →
  fold_left
    (λ results player,
       if Js.includes known (Player.id player) then results
       else
         let rank := total in
         results ++ [ {| GameResult.player_id := Player.id player;
                         GameResult.player_name := Player.player_name player;
                         GameResult.rank := rank; GameResult.points := 1 |} ])
    players results
  = results.
Proof.
  induction players as [|p players IH]; intros Hk; [done|]. cbn [fold_left].
  rewrite (proj2 (includes_true known (Player.id p))) by (apply Hk; left).
  apply IH. intros; apply Hk; by right.
Qed.

Lemma ranks_sorted (l : list GameResult) (k : nat) :
  GameResult.rank <$> l = Z.of_nat <$> seq k (length l) →
  Sorted (λ a b, GameResult.rank a - GameResult.rank b ≤ 0) l.
Proof.
  revert k. induction l as [|a l IH]; intros k Hr; [constructor|].
  cbn [length seq] in Hr. rewrite !fmap_cons in Hr. injection Hr as Ha Hl.
  constructor; [by apply (IH (S k))|].
  destruct l as [|b l]; [constructor|]. constructor.
  cbn [length seq] in Hl. rewrite !fmap_cons in Hl. injection Hl as Hb _. lia.
Qed.

Lemma zip_with_seq_ranks (gh : string → Ghost) (total : Z) (l : list string) (k : nat) :
  GameResult.rank <$>
    zip_with
      (λ playerId index,
         {| GameResult.player_id := Ghost.id (gh playerId);
            GameResult.player_name := Ghost.name (gh playerId);
            GameResult.rank := Z.of_nat index + 2;
            GameResult.points := total - (Z.of_nat index + 2) + 1 |})
      l (seq k (length l))
  = Z.of_nat <$> seq (k + 2) (length l).
Proof.
  revert k. induction l as [|a l IH]; intros k; [done|].
  cbn [length seq zip_with]. rewrite !fmap_cons. cbn [GameResult.rank].
  f_equal; [lia|]. apply (IH (S k)).
Qed.

Lemma zip_with_seq_ids (gh : string → Ghost) (total : Z) (l : list string) (k : nat) :
  (∀ playerId, playerId ∈ l → Ghost.id (gh playerId) = playerId) →
  GameResult.player_id <$>
    zip_with
      (λ playerId index,
         {| GameResult.player_id := Ghost.id (gh playerId);
            GameResult.player_name := Ghost.name (gh playerId);
            GameResult.rank := Z.of_nat index + 2;
            GameResult.points := total - (Z.of_nat index + 2) + 1 |})
      l (seq k (length l))
  = l.
Proof.
  revert k. induction l as [|a l IH]; intros k Hl; [done|].
  cbn [length seq zip_with]. rewrite !fmap_cons. cbn [GameResult.player_id].
  f_equal; [apply Hl; left|]. apply (IH (S k)). intros; apply Hl; by right.
Qed.

Lemma zip_with_seq_points (gh : string → Ghost) (total : Z) (l : list string) (k : nat) :
  Forall (λ r, GameResult.points r = total - GameResult.rank r + 1)
    (zip_with
       (λ playerId index,
          {| GameResult.player_id := Ghost.id (gh playerId);
             GameResult.player_name := Ghost.name (gh playerId);
             GameResult.rank := Z.of_nat index + 2;
             GameResult.points := total - (Z.of_nat index + 2) + 1 |})
       l (seq k (length l))).
Proof.
  revert k. induction l as [|a l IH]; intros k; [constructor|].
  cbn [length seq zip_with]. constructor; [done | apply (IH (S k))].
Qed.

Lemma filter_none {A} (P : A → Prop) `{∀ a, Decision (P a)} (l : list A) :
  (∀ a, a ∈ l → ¬ P a) → filter P l = [].
Proof.
  intros Hl. apply elem_of_nil_inv. intros a [Ha Hin]%list_elem_of_filter.
  by apply (Hl a).
Qed.

Lemma filter_agree {A} (P Q : A → Prop) `{∀ a, Decision (P a)} `{∀ a, Decision (Q a)}
    (l : list A) :
  (∀ a, a ∈ l → P a ↔ Q a) → filter P l = filter Q l.
Proof.
  induction l as [|a l IH]; intros Hl; [done|].
  assert (Ha : P a ↔ Q a) by (apply Hl; left).
  rewrite !filter_cons, IH by (intros; apply Hl; by right).
  destruct (decide (P a)), (decide (Q a)); tauto.
Qed.

Lemma filter_unique_key {A} (f : A → string) (w : string) (l : list A) :
  NoDup (f <$> l) → w ∈ f <$> l →
  ∃ a, filter (λ a, f a = w) l = [a] ∧ f a = w.
Proof.
  induction l as [|a l IH]; intros Hnd Hw; [by apply elem_of_nil in Hw|].
  rewrite fmap_cons in Hnd, Hw. apply NoDup_cons in Hnd as [Ha Hnd]. cbn.
  destruct (decide (f a = w)) as [E|E].
  - exists a. split; [|done]. f_equal. apply filter_none.
    intros b Hb Hfb. apply Ha. rewrite E, <- Hfb. by apply list_elem_of_fmap_2.
  - apply elem_of_cons in Hw as [Hw|Hw]; [congruence|]. by apply IH.
Qed.

Lemma elem_of_rev {A} (l : list A) (a : A) : a ∈ rev l ↔ a ∈ l.
Proof. by rewrite <- Permutation_rev. Qed.

(** With everyone but the winner eliminated, one entity remains. *)
Lemma remaining_is_winner (players : list Player) (ghosts : Js.Map Ghost)
    (eliminated : list string) (w : string) :
  NoDup (Player.id <$> players) →
  TagBomb.ghosts_of_roster players ghosts →
  w ∈ Player.id <$> players →
  (∀ i, i ∈ eliminated ↔ i ∈ Player.id <$> players ∧ i ≠ w) →
  ∃ g, TagBomb.remainingPlayers ghosts eliminated = [g] ∧ Ghost.id g = w.
Proof.
  intros Hnd Hroster Hw Helim. unfold TagBomb.remainingPlayers.
  pose proof (roster_ids players ghosts Hroster) as Hids.
  rewrite (filter_agree _ (λ g, Ghost.id g = w)).
  - apply filter_unique_key; by rewrite Hids.
  - intros g Hg. rewrite includes_false, Helim.
    assert (Ghost.id g ∈ Player.id <$> players).
    { rewrite <- Hids. by apply list_elem_of_fmap_2. }
    destruct (decide (Ghost.id g = w)); tauto.
Qed.

(** The ranking computed from a roster with unique identities, the entities
    of that roster and a duplicate-free elimination list that holds
    everyone but the winner. *)
Lemma ranking_complete (players : list Player) (ghosts : Js.Map Ghost)
    (eliminated : list string) (winner : Ghost) :
  NoDup (Player.id <$> players) →
  TagBomb.ghosts_of_roster players ghosts →
  NoDup eliminated →
  Ghost.id winner ∈ Player.id <$> players →
  (∀ i, i ∈ eliminated ↔ i ∈ Player.id <$> players ∧ i ≠ Ghost.id winner) →
  let results := TagBomb.ranking players ghosts eliminated winner in
  length results = length players
  ∧ GameResult.rank <$> results = Z.of_nat <$> seq 1 (length players)
  ∧ GameResult.player_id <$> results = Ghost.id winner :: rev eliminated
  ∧ Forall (λ r, GameResult.points r
                 = Z.of_nat (length players) - GameResult.rank r + 1) results.
Proof.
  intros Hnd Hroster Hnde Hw Helim.
  set (gh := λ playerId, default winner (Js.Map_get playerId ghosts)).
  assert (Hgh : ∀ playerId, playerId ∈ rev eliminated →
                  Js.Map_get playerId ghosts = Some (gh playerId)
                  ∧ Ghost.id (gh playerId) = playerId).
  { intros playerId Hin. rewrite elem_of_rev in Hin.
    apply Helim in Hin as [(p & -> & Hp)%list_elem_of_fmap _].
    destruct (roster_lookup players ghosts p Hroster Hnd Hp) as (g & Hg & Hid & _).
    unfold gh. by rewrite Hg. }
  assert (Hlen : S (length eliminated) = length players).
  { rewrite <- (length_fmap Player.id players).
    change (S (length eliminated)) with (length (Ghost.id winner :: eliminated)).
    apply Permutation_length, NoDup_Permutation; [|done|].
    - apply NoDup_cons. split; [|done]. intros Hin. apply Helim in Hin. tauto.
    - intros i. rewrite elem_of_cons, Helim.
      destruct (decide (i = Ghost.id winner)) as [->|]; tauto. }
  intros results. subst results. unfold TagBomb.ranking, Js.forEach_i. cbv zeta.
  rewrite (ranking_loop ghosts (Z.of_nat (length players)) gh (rev eliminated))
    by (intros; by apply Hgh).
  cbn [app]. rewrite length_rev.
  set (W := {| GameResult.player_id := Ghost.id winner;
               GameResult.player_name := Ghost.name winner;
               GameResult.rank := 1;
               GameResult.points := Z.of_nat (length players) |}).
  set (rest := zip_with _ (rev eliminated) (seq 0 (length eliminated))).
  assert (Hrest_ranks : GameResult.rank <$> rest
                        = Z.of_nat <$> seq 2 (length eliminated)).
  { subst rest. rewrite <- (length_rev eliminated). apply (zip_with_seq_ranks gh _ _ 0). }
  assert (Hrest_ids : GameResult.player_id <$> rest = rev eliminated).
  { subst rest. rewrite <- (length_rev eliminated). apply zip_with_seq_ids.
    intros; by apply Hgh. }
  assert (Hrest_points : Forall (λ r, GameResult.points r
                            = Z.of_nat (length players) - GameResult.rank r + 1) rest).
  { subst rest. rewrite <- (length_rev eliminated). apply zip_with_seq_points. }
  assert (Hrest_len : length rest = length eliminated).
  { by rewrite <- (length_fmap GameResult.player_id), Hrest_ids, length_rev. }
  rewrite ranking_fallback_skips.
  2:{ intros p Hp. rewrite fmap_cons, Hrest_ids. cbn [GameResult.player_id W].
      destruct (decide (Player.id p = Ghost.id winner)) as [->|Hne]; [left|right].
      rewrite elem_of_rev. apply Helim.
      split; [by apply list_elem_of_fmap_2 | done]. }
  rewrite sort_sorted_id.
  2:{ apply (ranks_sorted _ 1). rewrite fmap_cons. cbn [length seq].
      rewrite fmap_cons, Hrest_ranks, Hrest_len. done. }
  split_and!.
  - cbn [length]. by rewrite Hrest_len.
  - rewrite <- Hlen, fmap_cons. cbn [seq]. by rewrite fmap_cons, Hrest_ranks.
  - by rewrite fmap_cons, Hrest_ids.
  - constructor; [|done]. cbn [W GameResult.points GameResult.rank]. lia.
Qed.

(** C1.  In the bomb game of a roster of N >= 2 players with unique
    identities, take the frame in which the bomb goes off in the hands of
    [holder], and suppose the elimination list with [holder] appended is
    free of duplicates and holds exactly the roster without one player,
    [winner].  Then the frame detects the single remaining entity and
    hands over a ranking with exactly N records; the ranks are 1, 2, ..., N
    in that order, so no rank occurs twice; the records are, in order, the
    winner and the eliminated players from the last to the first, that is
    one record per roster player; and every record has
    points = N - rank + 1 = [calculatePoints(rank, N)], so the points are
    N, N - 1, ..., 1. *)
Theorem completed_ranking_is_permutation (H : Js.Host) (players : list Player)
    (gameSessionId : string) (f : TagBomb.Frame) (state : TagBomb.GameState)
    (holder winner : string) :
  (2 ≤ length players)%nat →
  NoDup (Player.id <$> players) →
  TagBomb.ghosts_of_roster players (TagBomb.ghosts state) →
  TagBomb.bombHolderId state = Some holder →
  holder ≠ EmptyString →
  (TagBomb.bombTimer state <= 0)%Q →
  TagBomb.gameCompleted state = false →
  NoDup (TagBomb.eliminatedPlayers state ++ [holder]) →
  winner ∈ Player.id <$> players →
  (∀ i, i ∈ TagBomb.eliminatedPlayers state ++ [holder]
        ↔ i ∈ Player.id <$> players ∧ i ≠ winner) →
  ∃ results,
    finished_with (TagBomb.explode H players gameSessionId f state) = Some results
    ∧ length results = length players
    ∧ GameResult.rank <$> results = Z.of_nat <$> seq 1 (length players)
    ∧ NoDup (GameResult.rank <$> results)
    ∧ GameResult.player_id <$> results
      = winner :: rev (TagBomb.eliminatedPlayers state ++ [holder])
    ∧ GameResult.player_id <$> results ≡ₚ Player.id <$> players
    ∧ Forall (λ r, GameResult.points r
                   = Z.of_nat (length players) - GameResult.rank r + 1
                   ∧ GameResult.points r
                     = GameManager.calculatePoints (GameResult.rank r)
                         (Z.of_nat (length players))) results
    ∧ GameResult.points <$> results
      = (λ k, Z.of_nat (length players) - Z.of_nat k + 1) <$> seq 1 (length players).
Proof.
  intros _ Hnd Hroster Hholder Hne Htimer Hopen Hnde Hw Helim.
  set (ghosts' := Js.Map_modify holder (Ghost.set_hasBomb false) (TagBomb.ghosts state)).
  set (eliminated := TagBomb.eliminatedPlayers state ++ [holder]) in *.
  assert (Hroster' : TagBomb.ghosts_of_roster players ghosts').
  { by apply roster_modify. }
  destruct (remaining_is_winner players ghosts' eliminated winner Hnd Hroster' Hw Helim)
    as (g & Hrem & Hg).
  subst winner.
  destruct (ranking_complete players ghosts' eliminated g Hnd Hroster' Hnde Hw Helim)
    as (Hlen & Hranks & Hids & Hpoints).
  exists (TagBomb.ranking players ghosts' eliminated g).
  split_and!.
  - unfold TagBomb.explode. rewrite Hholder.
    rewrite (proj2 (Qleb_true _ _) Htimer), bool_decide_false by done.
    cbn [andb negb]. cbv zeta.
    cbn [TagBomb.ghosts TagBomb.eliminatedPlayers TagBomb.gameCompleted
         TagBomb.set_ghosts TagBomb.set_eliminatedPlayers TagBomb.set_gameCompleted].
    fold eliminated. fold ghosts'. rewrite Hrem, Hopen. reflexivity.
  - done.
  - done.
  - rewrite Hranks. apply NoDup_fmap; [apply _ | apply NoDup_seq].
  - done.
  - rewrite Hids. symmetry. apply NoDup_Permutation; [done | |].
    + apply NoDup_cons. split.
      * rewrite elem_of_rev. intros Hin. apply Helim in Hin. tauto.
      * by rewrite <- Permutation_rev.
    + intros i. rewrite elem_of_cons, elem_of_rev, Helim.
      destruct (decide (i = Ghost.id g)) as [->|]; tauto.
  - eapply Forall_impl; [exact Hpoints|]. intros r Hr. split; [done|].
    unfold GameManager.calculatePoints. done.
  - transitivity ((λ z, Z.of_nat (length players) - z + 1)
                    <$> (GameResult.rank <$> TagBomb.ranking players ghosts' eliminated g)).
    + rewrite <- list_fmap_compose. by apply Forall_fmap_ext.
    + by rewrite Hranks, <- list_fmap_compose.
Qed.

Lemma completed_ranking_is_permutation_witness :
  ∃ results,
    finished_with (TagBomb.explode Sample.host Sample.roster4 "s1"
                     (Sample.bomb_frame 32 31100) Sample.bomb_last_two) = Some results
    ∧ GameResult.player_id <$> results = ["p1"; "p4"; "p2"; "p3"]
    ∧ GameResult.rank <$> results = [1; 2; 3; 4]
    ∧ GameResult.points <$> results = [4; 3; 2; 1].
Proof.
  destruct (completed_ranking_is_permutation Sample.host Sample.roster4 "s1"
              (Sample.bomb_frame 32 31100) Sample.bomb_last_two "p4" "p1")
    as (results & Hfin & _ & Hranks & _ & Hids & _ & _ & Hpoints).
  - cbn. lia.
  - apply (bool_decide_unpack _). by vm_compute.
  - repeat constructor.
  - reflexivity.
  - discriminate.
  - apply Qle_refl.
  - reflexivity.
  - apply (bool_decide_unpack _). by vm_compute.
  - apply (bool_decide_unpack _). by vm_compute.
  - intros i. cbn [Sample.bomb_last_two TagBomb.eliminatedPlayers app Sample.roster4
                   fmap list_fmap Sample.player Player.id].
    rewrite !elem_of_cons, !elem_of_nil. split.
    + intros [->|[->|[->|[]]]]; split; (discriminate || tauto).
    + intros [[->|[->|[->|[->|[]]]]] Hne]; tauto.
  - exists results. split_and!; [exact Hfin | exact Hids | exact Hranks | exact Hpoints].
Defined.

(** The entities the mounting effect of the bomb game sets up are those of
    the roster, and nothing the game does to them afterwards changes
    that. *)
Lemma Map_set_fresh {V} (k : string) (v : V) (m : Js.Map V) :
  k ∉ m.*1 → Js.Map_set k v m = m ++ [(k, v)].
Proof.
  induction m as [|[k' v'] m IH]; intros Hk; [done|]. cbn [Js.Map_set].
  rewrite fmap_cons in Hk. apply not_elem_of_cons in Hk as [Hne Hk]. cbn [fst] in Hne.
  rewrite decide_False by done. by rewrite IH.
Qed.

Lemma roster_keys (players : list Player) (ghosts : Js.Map Ghost) :
  TagBomb.ghosts_of_roster players ghosts → ghosts.*1 = Player.id <$> players.
Proof.
  induction 1 as [|p kg players ghosts (Hkey & _) _ IH]; [done|].
  rewrite !fmap_cons. by rewrite Hkey, IH.
Qed.

Lemma initGhosts_of_roster (H : Js.Host) (players : list Player) :
  NoDup (Player.id <$> players) →
  TagBomb.ghosts_of_roster players (TagBomb.initGhosts H players).
Proof.
  unfold TagBomb.initGhosts, Js.forEach_i. cbv zeta.
  generalize (Qceiling (Js.Math_sqrt H (inject_Z (Z.of_nat (length players))))).
  intros gridCols Hnd.
  assert (Hgen : ∀ (l placed : list Player) (acc : Js.Map Ghost) (k : nat),
            TagBomb.ghosts_of_roster placed acc →
            NoDup (Player.id <$> (placed ++ l)) →
            TagBomb.ghosts_of_roster (placed ++ l)
              (Js.forEach_from
                 (λ ghosts player index,
                    Js.Map_set (Player.id player)
                      (Ghost.new (Player.id player) (Player.player_name player)
                         (Player.ghost_color player)
                         (inject_Z (150 + Z.rem (Z.of_nat index) gridCols * 150))
                         (inject_Z (150 + Z.of_nat index / gridCols * 150))) ghosts)
                 l k acc)).
  { induction l as [|p l IH]; intros placed acc k Hacc Hnd'.
    { by rewrite app_nil_r. }
    cbn [Js.forEach_from].
    replace (placed ++ p :: l) with ((placed ++ [p]) ++ l) in * by by rewrite <- app_assoc.
    apply IH; [|done].
    rewrite Map_set_fresh.
    - apply Forall2_app; [done|]. by repeat constructor.
    - rewrite (roster_keys _ _ Hacc). rewrite !fmap_app in Hnd'.
      apply NoDup_app in Hnd' as [Hnd' _]. apply NoDup_app in Hnd' as (_ & Hfresh & _).
      intros Hin. apply (Hfresh _ Hin). left. }
  apply (Hgen players [] [] 0%nat); [constructor | done].
Qed.

Lemma roster_fmap (players : list Player) (ghosts : Js.Map Ghost)
    (F : string * Ghost → string * Ghost) :
  (∀ kg, (F kg).1 = kg.1 ∧ Ghost.id (F kg).2 = Ghost.id kg.2
         ∧ Ghost.name (F kg).2 = Ghost.name kg.2) →
  TagBomb.ghosts_of_roster players ghosts →
  TagBomb.ghosts_of_roster players (F <$> ghosts).
Proof.
  intros HF. unfold TagBomb.ghosts_of_roster.
  induction 1 as [|p kg players ghosts (Hkey & Hid & Hname) _ IH]; [constructor|].
  rewrite fmap_cons. constructor; [|done].
  destruct (HF kg) as (-> & -> & ->). done.
Qed.

Lemma updateCooldown_same (deltaTime : Q) (g : Ghost) :
  Ghost.id (Ghost.updateCooldown deltaTime g) = Ghost.id g
  ∧ Ghost.name (Ghost.updateCooldown deltaTime g) = Ghost.name g.
Proof. unfold Ghost.updateCooldown. by destruct (Js.Qltb _ _). Qed.

Lemma start_of_roster (H : Js.Host) (players : list Player) (gameSessionId : string)
    (now : Q) (st : TagBomb.GameState) :
  NoDup (Player.id <$> players) →
  TagBomb.start H players gameSessionId now = TagBomb.Running st →
  TagBomb.ghosts_of_roster players (TagBomb.ghosts st)
  ∧ TagBomb.eliminatedPlayers st = [] ∧ TagBomb.gameCompleted st = false.
Proof.
  intros Hnd. unfold TagBomb.start.
  destruct (length players <? 2)%nat; [done|].
  destruct (selectBySeed _ _ _ _); [|done].
  intros [= <-]. cbn. split; [|done].
  apply roster_modify; [done | by apply initGhosts_of_roster].
Qed.

Lemma gameLoop_of_roster (H : Js.Host) (players : list Player)
    (currentPlayerId gameSessionId : string) (f : TagBomb.Frame) (c : Q * TagBomb.GameState) :
  TagBomb.ghosts_of_roster players (TagBomb.ghosts c.2) →
  TagBomb.ghosts_of_roster players
    (TagBomb.ghosts (next (TagBomb.gameLoop H players currentPlayerId gameSessionId f c)).2).
Proof.
  destruct c as [lastTime state]. cbn [snd]. intros Hr. unfold TagBomb.gameLoop.
  destruct (Js.Qeqb lastTime 0); [done|]. cbv zeta.
  set (deltaTime := (TagBomb.timestamp f - lastTime)%Q).
  assert (H1 : TagBomb.ghosts_of_roster players
                 (TagBomb.ghosts (TagBomb.moveCurrent H currentPlayerId (TagBomb.keys f)
                                    deltaTime state))).
  { unfold TagBomb.moveCurrent. destruct (Js.Map_get _ _); [|done].
    destruct (Js.includes _ _); [done|]. cbn. apply roster_modify; [|done].
    intros g. by rewrite (proj1 (updateCooldown_same _ _)), (proj2 (updateCooldown_same _ _)). }
  set (s1 := TagBomb.moveCurrent _ _ _ _ _) in *.
  assert (H2 : TagBomb.ghosts_of_roster players
                 (TagBomb.ghosts (TagBomb.coolOthers currentPlayerId deltaTime s1))).
  { unfold TagBomb.coolOthers. cbn. apply roster_fmap; [|done].
    intros kg. destruct (Js.includes _ _); [done|]. destruct (bool_decide _); [|done].
    cbn. split; [done|]. apply updateCooldown_same. }
  set (s2 := TagBomb.coolOthers _ _ _) in *.
  assert (H3 : TagBomb.ghosts_of_roster players
                 (TagBomb.ghosts (TagBomb.coolPass deltaTime s2))).
  { unfold TagBomb.coolPass. by destruct (Js.Qltb _ _). }
  set (s3 := TagBomb.coolPass _ _) in *.
  assert (H4 : TagBomb.ghosts_of_roster players (TagBomb.ghosts (TagBomb.passBomb H f s3).1)).
  { unfold TagBomb.passBomb. destruct (TagBomb.bombHolderId s3); [|done].
    destruct (_ && _); [|done]. destruct (Js.Map_get _ _); [|done].
    destruct (Js.includes _ _); [done|]. destruct (TagBomb.closest _ _ _); [|done].
    cbn. by do 2 (apply roster_modify; [done|]). }
  destruct (TagBomb.passBomb H f s3) as [s4 sent]. cbn [fst] in H4.
  assert (H5 : TagBomb.ghosts_of_roster players (TagBomb.ghosts (TagBomb.runTimer f s4)))
    by done.
  set (s5 := TagBomb.runTimer f s4) in *.
  cbn [next snd]. unfold TagBomb.explode.
  destruct (TagBomb.bombHolderId s5); [|done].
  destruct (_ && _); [|done]. cbv zeta.
  cbn [TagBomb.ghosts TagBomb.eliminatedPlayers TagBomb.gameCompleted
       TagBomb.set_ghosts TagBomb.set_eliminatedPlayers TagBomb.set_gameCompleted].
  assert (H6 : TagBomb.ghosts_of_roster players
                 (Js.Map_modify s (Ghost.set_hasBomb false) (TagBomb.ghosts s5)))
    by (by apply roster_modify).
  destruct (_ && _).
  { by destruct (TagBomb.remainingPlayers _ _). }
  destruct (0 <? _)%nat; [|done].
  destruct (selectBySeed _ _ _ _); [|done].
  cbn. by apply roster_modify.
Qed.

(** The same ranking comes out when the last elimination is a disconnect,
    and the boulder game ranks the way the bomb game does. *)
Lemma disconnect_ranking_complete (players : list Player) (currentPlayerId playerId : string)
    (state : TagBomb.GameState) (winner : string) :
  NoDup (Player.id <$> players) →
  TagBomb.ghosts_of_roster players (TagBomb.ghosts state) →
  playerId ≠ currentPlayerId →
  TagBomb.gameCompleted state = false →
  NoDup (TagBomb.eliminatedPlayers state ++ [playerId]) →
  winner ∈ Player.id <$> players →
  (∀ i, i ∈ TagBomb.eliminatedPlayers state ++ [playerId]
        ↔ i ∈ Player.id <$> players ∧ i ≠ winner) →
  ∃ results,
    finished_with (TagBomb.handlePlayerDisconnected players currentPlayerId playerId state)
    = Some results
    ∧ GameResult.rank <$> results = Z.of_nat <$> seq 1 (length players)
    ∧ GameResult.player_id <$> results
      = winner :: rev (TagBomb.eliminatedPlayers state ++ [playerId])
    ∧ Forall (λ r, GameResult.points r
                   = Z.of_nat (length players) - GameResult.rank r + 1) results.
Proof.
  intros Hnd Hroster Hne Hopen Hnde Hw Helim.
  set (eliminated := TagBomb.eliminatedPlayers state ++ [playerId]) in *.
  destruct (remaining_is_winner players (TagBomb.ghosts state) eliminated winner
              Hnd Hroster Hw Helim) as (g & Hrem & Hg).
  subst winner.
  destruct (ranking_complete players (TagBomb.ghosts state) eliminated g
              Hnd Hroster Hnde Hw Helim) as (_ & Hranks & Hids & Hpoints).
  exists (TagBomb.ranking players (TagBomb.ghosts state) eliminated g).
  split_and!; [|done..].
  unfold TagBomb.handlePlayerDisconnected.
  rewrite bool_decide_false by done.
  assert (Hfresh : playerId ∉ TagBomb.eliminatedPlayers state).
  { apply NoDup_app in Hnde as (_ & Hfresh & _). intros Hin.
    apply (Hfresh _ Hin). left. }
  rewrite (proj2 (includes_false _ _) Hfresh). cbv zeta.
  cbn [TagBomb.ghosts TagBomb.eliminatedPlayers TagBomb.gameCompleted
       TagBomb.set_eliminatedPlayers TagBomb.set_gameCompleted].
  fold eliminated. rewrite Hrem, Hopen. reflexivity.
Qed.

Lemma forEach_from_ext {A S} (f g : S → A → nat → S) (l : list A) (k : nat) (s : S) :
  (∀ s a i, f s a i = g s a i) → Js.forEach_from f l k s = Js.forEach_from g l k s.
Proof.
  intros Hfg. revert k s. induction l as [|a l IH]; intros k s; [done|].
  cbn [Js.forEach_from]. by rewrite Hfg, IH.
Qed.

Lemma boulder_ranking_same (players : list Player) (ghosts : Js.Map Ghost)
    (eliminated : list string) (winner : Ghost) :
  BoulderRun.ranking players ghosts eliminated winner
  = TagBomb.ranking players ghosts eliminated winner.
Proof.
  unfold BoulderRun.ranking, TagBomb.ranking, Js.forEach_i. cbv zeta.
  erewrite forEach_from_ext; [reflexivity|].
  intros results playerId i. cbv beta. destruct (Js.Map_get playerId ghosts); [|done].
  do 3 f_equal. lia.
Qed.

(** ** Worked examples *)

Example simpleHash_abc : simpleHash "abc" = 96354.
Proof. reflexivity. Qed.

Example simpleHash_wraps :
  simpleHash "550e8400-e29b-41d4-a716-446655440000" = 1716781005.
Proof. by vm_compute. Qed.

Example generateRoomCode_sample :
  RoomManager.generateRoomCode (λ i, (Z.of_nat i # 6)%Q) = "AFLSX4".
Proof. by vm_compute. Qed.

(** A third player joins a waiting room of two: the first free colour of
    the palette in the middle of the eight left is drawn. *)
Example joinRoom_sample :
  (RoomManager.joinRoom " abcdef " "Cy" (1 # 2) "p3" Sample.world).2
  = Some (Some (Sample.room_waiting,
                {| Player.id := "p3"; Player.room_id := "r1"; Player.player_name := "Cy";
                   Player.ghost_color := "green"; Player.total_score := 0 |})).
Proof. by vm_compute. Qed.

(** Four players; the third, then the second are eliminated, then the
    fourth disconnects: the first wins with 4 points, then come the
    fourth with 3, the second with 2 and the third with 1. *)
Example disconnect_scenario :
  GameResult.points <$>
    default [] (finished_with
                  (TagBomb.handlePlayerDisconnected Sample.roster4 "p1" "p4"
                     Sample.bomb_last_two))
  = [4; 3; 2; 1]
  ∧ GameResult.player_id <$>
      default [] (finished_with
                    (TagBomb.handlePlayerDisconnected Sample.roster4 "p1" "p4"
                       Sample.bomb_last_two))
    = ["p1"; "p4"; "p2"; "p3"].
Proof. by vm_compute. Qed.

(** With the duplicate left by two boulders in one frame, the ranking of a
    roster of three has four records and a rank that is no rank. *)
Example boulder_duplicate_ranking :
  GameResult.rank <$>
    BoulderRun.ranking Sample.roster3 (BoulderRun.ghosts (BoulderRun.state
                                         (BoulderRun.start Sample.roster3)))
      ["p1"; "p1"; "p2"] (Ghost.new "p3" "Cy" "green" 0 0)
  = [1; 2; 3; 4].
Proof. by vm_compute. Qed.

(** * Further properties of the code *)

(** ** The entity: bounds of a move, and the dash over several frames *)

Lemma Qmin_upper (a b : Q) : (Js.Qmin a b <= a)%Q.
Proof.
  unfold Js.Qmin. destruct (Js.Qleb a b) eqn:E.
  - apply Qle_refl.
  - apply Qleb_false in E. by apply Qlt_le_weak.
Qed.

Lemma Qmax_upper (a b c : Q) : (a <= c)%Q → (b <= c)%Q → (Js.Qmax a b <= c)%Q.
Proof. intros Ha Hb. unfold Js.Qmax. by destruct (Js.Qleb a b). Qed.

Lemma clamp_range (lo hi v : Q) :
  (lo <= hi)%Q → (lo <= Js.Qmax lo (Js.Qmin hi v) <= hi)%Q.
Proof.
  intros Hle. split; [apply Qmax_lower |].
  apply Qmax_upper; [done | apply Qmin_upper].
Qed.

(** X1.  Whatever the direction, the speed and the square root of the
    host, [move] leaves the entity at least 20 units inside each edge of
    a canvas that is 40 units or more wide and high, and changes nothing
    but its position and its velocity. *)
Theorem move_stays_inside (H : Js.Host) (dx dy width height : Q) (g : Ghost) :
  (40 <= width)%Q → (40 <= height)%Q →
  let g' := Ghost.move H dx dy width height g in
  (20 <= GhostPosition.x (Ghost.position g') <= width - 20)%Q
  ∧ (20 <= GhostPosition.y (Ghost.position g') <= height - 20)%Q
  ∧ g' = Ghost.set_position (Ghost.position g') (Ghost.set_velocity (Ghost.velocity g') g).
Proof.
  intros Hw Hh. cbn zeta. split; [| split].
  - apply clamp_range.
    apply (Qplus_le_l _ _ 20). ring_simplify. exact Hw.
  - apply clamp_range.
    apply (Qplus_le_l _ _ 20). ring_simplify. exact Hh.
  - reflexivity.
Qed.

Lemma move_stays_inside_witness :
  (20 <= GhostPosition.x
           (Ghost.position (Ghost.move Sample.host 1 0 canvas_width canvas_height
                              Sample.ghost_idle)) <= canvas_width - 20)%Q.
Proof.
  apply (move_stays_inside Sample.host 1 0 canvas_width canvas_height Sample.ghost_idle);
    by vm_compute.
Defined.





(** ** The hash behind the seed selection *)

Lemma toInt32_repr (z : Z) : ∃ k, Js.toInt32 z = z + k * 2 ^ 32.
Proof.
  exists (- ((z + 2 ^ 31) / 2 ^ 32)). unfold Js.toInt32.
  pose proof (Z.div_mod (z + 2 ^ 31) (2 ^ 32) ltac:(lia)). lia.
Qed.

Lemma toInt32_congr (a b k : Z) : a = b + k * 2 ^ 32 → Js.toInt32 a = Js.toInt32 b.
Proof.
  intros ->. unfold Js.toInt32.
  replace (b + k * 2 ^ 32 + 2 ^ 31) with (b + 2 ^ 31 + k * 2 ^ 32) by lia.
  by rewrite Z.mod_add by lia.
Qed.

Lemma toInt32_small (z : Z) : - 2 ^ 31 ≤ z < 2 ^ 31 → Js.toInt32 z = z.
Proof. intros Hz. unfold Js.toInt32. rewrite Z.mod_small; lia. Qed.

Lemma simpleHash_step_wraps (a : Z) (c : ascii) :
  simpleHash_step (Js.toInt32 a) c = Js.toInt32 (31 * a + Js.charCode c).
Proof.
  unfold simpleHash_step, Js.band, Js.shl.
  rewrite Z.land_diag, Z.shiftl_mul_pow2 by lia.
  rewrite (toInt32_small (Js.toInt32 _)) by apply toInt32_range.
  rewrite (toInt32_small (Js.toInt32 a)) by apply toInt32_range.
  destruct (toInt32_repr a) as [k1 H1].
  destruct (toInt32_repr (Js.toInt32 a * 2 ^ 5)) as [k2 H2].
  apply (toInt32_congr _ _ (31 * k1 + k2)). lia.
Qed.

Lemma simpleHash_loop_cons (c : ascii) (str : string) (hash : Z) :
  simpleHash_loop (String c str) hash = simpleHash_loop str (simpleHash_step hash c).
Proof. unfold simpleHash_loop. reflexivity. Qed.

Lemma hash31_cons (c : ascii) (str : string) (acc : Z) :
  hash31 (String c str) acc = hash31 str (31 * acc + Js.charCode c).
Proof. unfold hash31. reflexivity. Qed.

Lemma simpleHash_loop_wraps (str : string) (a : Z) :
  simpleHash_loop str (Js.toInt32 a) = Js.toInt32 (hash31 str a).
Proof.
  revert a. induction str as [| c str IH]; intros a; [reflexivity |].
  rewrite simpleHash_loop_cons, hash31_cons, simpleHash_step_wraps. apply IH.
Qed.

(** X3.  [simpleHash] is the absolute value of the polynomial hash of base
    31 over the character codes, taken as a signed 32-bit integer: the
    shift, the subtraction and the self-conjunction of each turn of its loop
    amount to a multiplication by 31 that wraps around. *)
Theorem simpleHash_is_wrapped_polynomial (str : string) :
  simpleHash str = Z.abs (Js.toInt32 (hash31 str 0)).
Proof.
  unfold simpleHash. f_equal.
  change 0 with (Js.toInt32 0) at 1. apply simpleHash_loop_wraps.
Qed.

(** ** The boulders *)

(** X4.  With the three draws in [0, 1), a boulder is spawned with a
    radius from 20 to 45 and a speed from 1 to 2.5, wholly above the top
    edge of the canvas and wholly between its left and right edges.  The
    bounds are closed: the largest draws may reach 45 and 2.5 once the sums
    are rounded. *)
Theorem spawnBoulder_within_canvas (f : BoulderRun.Frame) :
  (0 <= BoulderRun.random_radius f < 1)%Q →
  (0 <= BoulderRun.random_x f < 1)%Q →
  (0 <= BoulderRun.random_speed f < 1)%Q →
  let b := BoulderRun.spawnBoulder f in
  (20 <= BoulderRun.radius b <= 45)%Q
  ∧ (1 <= BoulderRun.speed b <= 5 # 2)%Q
  ∧ (BoulderRun.y b + BoulderRun.radius b == 0)%Q
  ∧ (0 <= BoulderRun.x b - BoulderRun.radius b)%Q
  ∧ (BoulderRun.x b + BoulderRun.radius b <= canvas_width)%Q.
Proof.
  intros [Hr0 Hr1] [Hx0 Hx1] [Hs0 Hs1]. cbn zeta.
  unfold BoulderRun.spawnBoulder, canvas_width. cbn.
  set (r := BoulderRun.random_radius f) in *.
  set (u := BoulderRun.random_x f) in *.
  set (s := BoulderRun.random_speed f) in *.
  split_and!; try lra.
  - nra.
  - nra.
Qed.

Lemma spawnBoulder_within_canvas_witness :
  (20 <= BoulderRun.radius (BoulderRun.spawnBoulder (Sample.boulder_frame 1000)) <= 45)%Q.
Proof.
  apply (spawnBoulder_within_canvas (Sample.boulder_frame 1000)); by vm_compute.
Defined.

(** ** The elimination lists of the minigames *)

Lemma boulder_hits_one (ghost : Ghost) (boulders : list BoulderRun.Boulder)
    (acc : list string * list Msg) :
  ∃ k, (fold_left
          (λ (acc : list string * list Msg) b,
             if BoulderRun.hits ghost b
             then (acc.1 ++ [Ghost.id ghost],
                   acc.2 ++ [BoulderRun.msg_eliminated (acc.1 ++ [Ghost.id ghost])])
             else acc)
          boulders acc).1 = acc.1 ++ replicate k (Ghost.id ghost).
Proof.
  revert acc. induction boulders as [| b bs IH]; intros acc.
  - exists 0%nat. cbn. by rewrite app_nil_r.
  - cbn [fold_left]. destruct (BoulderRun.hits ghost b).
    + destruct (IH (acc.1 ++ [Ghost.id ghost],
                    acc.2 ++ [BoulderRun.msg_eliminated (acc.1 ++ [Ghost.id ghost])]))
        as [k Hk].
      exists (S k). rewrite Hk. cbn. by rewrite <- app_assoc.
    + apply IH.
Qed.

Lemma collide_appends (ghosts : Js.Map Ghost) (boulders : list BoulderRun.Boulder)
    (acc : list string * list Msg) :
  ∃ added, (BoulderRun.collide ghosts boulders acc).1 = acc.1 ++ added
           ∧ Forall (λ i, (i ∉ acc.1) ∧ i ∈ Ghost.id <$> Js.Map_values ghosts) added.
Proof.
  unfold BoulderRun.collide. cbn zeta.
  assert (Hgen : ∀ gs acc, ∃ added,
            (fold_left
               (λ (acc : list string * list Msg) ghost,
                  if Js.includes acc.1 (Ghost.id ghost) then acc
                  else
                    fold_left
                      (λ (acc : list string * list Msg) b,
                         if BoulderRun.hits ghost b
                         then (acc.1 ++ [Ghost.id ghost],
                               acc.2 ++ [BoulderRun.msg_eliminated
                                           (acc.1 ++ [Ghost.id ghost])])
                         else acc)
                      boulders acc)
               gs acc).1 = acc.1 ++ added
            ∧ Forall (λ i, (i ∉ acc.1) ∧ i ∈ Ghost.id <$> gs) added).
  { clear acc. induction gs as [| g gs IH]; intros acc.
    - exists []. cbn. by rewrite app_nil_r.
    - cbn [fold_left]. destruct (Js.includes acc.1 (Ghost.id g)) eqn:E.
      + destruct (IH acc) as (added & Heq & Hall). exists added. split; [done |].
        eapply Forall_impl; [exact Hall |]. intros i [? ?]. split; [done |].
        rewrite fmap_cons. by apply elem_of_cons; right.
      + apply includes_false in E.
        destruct (boulder_hits_one g boulders acc) as [k Hk].
        match goal with |- context [fold_left ?F gs ?a] =>
          destruct (IH a) as (added & Heq & Hall) end.
        exists (replicate k (Ghost.id g) ++ added).
        rewrite Heq, Hk, <- app_assoc. split; [done |].
        apply Forall_app. split.
        * apply Forall_replicate. split; [done |]. rewrite fmap_cons. apply elem_of_cons; by left.
        * eapply Forall_impl; [exact Hall |]. intros i [Hi ?]. split.
          -- rewrite Hk in Hi. intros Hin. apply Hi. apply elem_of_app; by left.
          -- rewrite fmap_cons. by apply elem_of_cons; right. }
  apply Hgen.
Qed.

Lemma boulder_ids_kept (H : Js.Host) (currentPlayerId : string) (keys : list string)
    (ghosts : Js.Map Ghost) (eliminated : list string) :
  Ghost.id <$> Js.Map_values
    ((λ kv : string * Ghost, (kv.1, BoulderRun.drift currentPlayerId eliminated kv.2))
       <$> BoulderRun.moveCurrent H currentPlayerId keys ghosts eliminated)
  = Ghost.id <$> Js.Map_values ghosts.
Proof.
  unfold Js.Map_values. rewrite <- !list_fmap_compose.
  assert (Hm : (Ghost.id ∘ snd) <$> BoulderRun.moveCurrent H currentPlayerId keys ghosts eliminated
               = (Ghost.id ∘ snd) <$> ghosts).
  { unfold BoulderRun.moveCurrent.
    destruct (Js.Map_get currentPlayerId ghosts); [| done].
    destruct (Js.includes eliminated currentPlayerId); [done |].
    unfold Js.Map_modify. rewrite <- list_fmap_compose. apply list_fmap_ext.
    intros _ [k g] _. cbn. by destruct (decide (k = currentPlayerId)). }
  rewrite <- Hm. apply list_fmap_ext. intros _ [k g] _. cbn.
  unfold BoulderRun.drift. by destruct (_ && _).
Qed.

(** X5.  A frame of the boulder game only appends to the elimination
    list: what was listed stays, in its order, and each identity the frame
    adds is that of an entity of the game that was not listed when the
    frame began. *)
Theorem boulder_frame_appends (H : Js.Host) (players : list Player)
    (currentPlayerId : string) (f : BoulderRun.Frame) (c : BoulderRun.Component) :
  let before := BoulderRun.eliminatedPlayers (BoulderRun.state c) in
  let after :=
    BoulderRun.eliminatedPlayers
      (BoulderRun.state (next (BoulderRun.loop H players currentPlayerId f c))) in
  ∃ added, after = before ++ added
           ∧ Forall (λ i, (i ∉ before)
                          ∧ i ∈ Ghost.id <$> Js.Map_values
                                               (BoulderRun.ghosts (BoulderRun.state c)))
                    added.
Proof.
  cbn zeta. unfold BoulderRun.loop.
  destruct (Js.Qeqb (BoulderRun.lastTime c) 0).
  { exists []. cbn. by rewrite app_nil_r. }
  destruct (if Js.Qltb 800 _ then _ else _) as [spawned lastSpawn'].
  match goal with |- context [BoulderRun.collide ?g ?k ?a] =>
    destruct (collide_appends g k a) as (added & Heq & Hall);
    destruct (BoulderRun.collide g k a) as [eliminated sent] end.
  cbn [fst] in Heq. rewrite boulder_ids_kept in Hall.
  exists added. split; [| exact Hall].
  destruct (_ && _); [destruct (filter _ _) |]; exact Heq.
Qed.

Lemma fold_left_invariant {A B} (P : B → Prop) (f : B → A → B) (l : list A) (b : B) :
  P b → (∀ b a, a ∈ l → P b → P (f b a)) → P (fold_left f l b).
Proof.
  revert b. induction l as [| a l IH]; intros b Hb Hstep; [done |].
  cbn. apply IH.
  - apply Hstep; [by left | done].
  - intros b' a' Ha'. apply Hstep. by right.
Qed.

(** X6.  [checkTileCollisions] lists nobody twice: from a list without
    repetitions it makes a list without repetitions that extends it, and
    every identity it adds is that of an entity whose centre lies strictly
    inside a tile that has fallen. *)
Theorem tile_collisions_list_once (tiles : list FallingTiles.Tile) (ghosts : Js.Map Ghost)
    (eliminated : list string) (sent : list Msg) :
  NoDup eliminated →
  let after := (FallingTiles.checkTileCollisions tiles ghosts (eliminated, sent)).1 in
  NoDup after
  ∧ ∃ added, after = eliminated ++ added
             ∧ Forall (λ i, ∃ ghost tile,
                          ghost ∈ Js.Map_values ghosts ∧ Ghost.id ghost = i
                          ∧ tile ∈ tiles ∧ FallingTiles.status tile = FallingTiles.fallen
                          ∧ FallingTiles.inside ghost tile = true)
                      added.
Proof.
  intros Hnd. cbn zeta. unfold FallingTiles.checkTileCollisions.
  apply (fold_left_invariant
           (λ acc : list string * list Msg,
              NoDup acc.1
              ∧ ∃ added, acc.1 = eliminated ++ added
                  ∧ Forall (λ i, ∃ ghost tile,
                               ghost ∈ Js.Map_values ghosts ∧ Ghost.id ghost = i
                               ∧ tile ∈ tiles
                               ∧ FallingTiles.status tile = FallingTiles.fallen
                               ∧ FallingTiles.inside ghost tile = true)
                           added)).
  { split; [done |]. exists []. by rewrite app_nil_r. }
  intros acc tile Htile Hacc.
  destruct (bool_decide (FallingTiles.status tile ≠ FallingTiles.fallen)) eqn:Est; [done |].
  apply bool_decide_eq_false in Est. apply dec_stable in Est.
  apply fold_left_invariant; [done |].
  clear acc Hacc. intros acc ghost Hghost (Hnd' & added & Heq & Hall).
  destruct (Js.includes acc.1 (Ghost.id ghost)) eqn:Ein; [by eauto |].
  apply includes_false in Ein.
  destruct (FallingTiles.inside ghost tile) eqn:Eins; [| by eauto].
  cbn. split; [by apply NoDup_snoc_fresh |].
  exists (added ++ [Ghost.id ghost]). rewrite Heq, <- app_assoc. split; [done |].
  apply Forall_app. split; [done |]. apply Forall_singleton. by exists ghost, tile.
Qed.

Lemma tile_collisions_list_once_witness :
  NoDup
    (FallingTiles.checkTileCollisions
       [ {| FallingTiles.id := "0-0"; FallingTiles.x := 100; FallingTiles.y := 100;
            FallingTiles.size := 74; FallingTiles.status := FallingTiles.fallen;
            FallingTiles.warnStart := None |} ]
       (TagBomb.initGhosts Sample.host Sample.roster3) (["p3"], [])).1.
Proof.
  apply (tile_collisions_list_once _ (TagBomb.initGhosts Sample.host Sample.roster3)
           ["p3"] []).
  apply (bool_decide_unpack _). by vm_compute.
Defined.

(** ** The bomb game: timer, passes and hand-over *)

Lemma before_pass_fields (H : Js.Host) (currentPlayerId : string) (keys : list string)
    (deltaTime : Q) (state : TagBomb.GameState) :
  let state' :=
    TagBomb.coolPass deltaTime
      (TagBomb.coolOthers currentPlayerId deltaTime
         (TagBomb.moveCurrent H currentPlayerId keys deltaTime state)) in
  TagBomb.eliminatedPlayers state' = TagBomb.eliminatedPlayers state
  ∧ TagBomb.bombHolderId state' = TagBomb.bombHolderId state
  ∧ TagBomb.lastBombPassTime state' = TagBomb.lastBombPassTime state
  ∧ TagBomb.gameCompleted state' = TagBomb.gameCompleted state.
Proof.
  cbn zeta. unfold TagBomb.coolPass, TagBomb.coolOthers, TagBomb.moveCurrent.
  destruct (Js.Map_get currentPlayerId (TagBomb.ghosts state));
    [destruct (Js.includes (TagBomb.eliminatedPlayers state) currentPlayerId) |];
    cbn; by destruct (Js.Qltb 0 (TagBomb.bombPassCooldown state)).
Qed.

Lemma passBomb_fields (H : Js.Host) (f : TagBomb.Frame) (state : TagBomb.GameState) :
  let r := TagBomb.passBomb H f state in
  TagBomb.eliminatedPlayers r.1 = TagBomb.eliminatedPlayers state
  ∧ TagBomb.gameCompleted r.1 = TagBomb.gameCompleted state
  ∧ (r = (state, [])
     ∨ ∃ target, TagBomb.lastBombPassTime r.1 = TagBomb.now_pass f
                 ∧ TagBomb.bombHolderId r.1 = Some target
                 ∧ r.2 = [TagBomb.msg_pass target (TagBomb.now_published f)]).
Proof.
  cbn zeta. unfold TagBomb.passBomb.
  destruct (TagBomb.bombHolderId state) as [holderId |]; [| by auto].
  destruct (_ && _); [| by auto].
  destruct (Js.Map_get holderId (TagBomb.ghosts state)) as [bombHolder |]; [| by auto].
  destruct (Js.includes (TagBomb.eliminatedPlayers state) holderId); [by auto |].
  destruct (TagBomb.closest H bombHolder state) as [closestGhost |]; [| by auto].
  cbn. split_and!; [done | done |]. right. by exists (Ghost.id closestGhost).
Qed.

(** X7.  The bomb does not go off before the client's own clock of the
    bomb has run 30 s: a frame whose clock reads less than 30 s after the
    [lastBombPassTime] the client holds, and less than 30 s after the pass
    the frame itself may make, eliminates nobody and completes nothing.
    [lastBombPassTime] is the time at which this client mounted the game,
    last passed the bomb itself or last handed it on after an explosion; a
    pass made by another client and relayed to this one is not counted. *)
Theorem bomb_waits_thirty_seconds (H : Js.Host) (players : list Player)
    (currentPlayerId gameSessionId : string) (f : TagBomb.Frame)
    (lastTime : Q) (state : TagBomb.GameState) :
  (TagBomb.now_timer f < TagBomb.lastBombPassTime state + 30000)%Q →
  (TagBomb.now_timer f < TagBomb.now_pass f + 30000)%Q →
  let r := TagBomb.gameLoop H players currentPlayerId gameSessionId f (lastTime, state) in
  TagBomb.eliminatedPlayers (next r).2 = TagBomb.eliminatedPlayers state
  ∧ TagBomb.gameCompleted (next r).2 = TagBomb.gameCompleted state
  ∧ finished_with r = None.
Proof.
  intros Hold Hnew. cbn zeta. unfold TagBomb.gameLoop.
  destruct (Js.Qeqb lastTime 0); [done |].
  set (state1 := TagBomb.coolPass _ _).
  destruct (before_pass_fields H currentPlayerId (TagBomb.keys f)
              (TagBomb.timestamp f - lastTime) state) as (He & _ & Ht & Hc).
  fold state1 in He, Ht, Hc.
  destruct (passBomb_fields H f state1) as (He2 & Hc2 & Hpass).
  destruct (TagBomb.passBomb H f state1) as [state2 sent]. cbn [fst snd] in *.
  assert (Hlast : (TagBomb.now_timer f < TagBomb.lastBombPassTime state2 + 30000)%Q).
  { destruct Hpass as [[= -> _] | (target & -> & _)]; [by rewrite Ht | done]. }
  assert (Hpos : Js.Qleb (TagBomb.bombTimer (TagBomb.runTimer f state2)) 0 = false).
  { apply Qleb_false. cbn. unfold Js.Qmax.
    destruct (Js.Qleb 0 _) eqn:E; [lra |].
    apply Qleb_false in E. lra. }
  unfold TagBomb.explode.
  change (TagBomb.bombHolderId (TagBomb.runTimer f state2))
    with (TagBomb.bombHolderId state2).
  destruct (TagBomb.bombHolderId state2) as [holderId |]; cbn [next finished_with snd].
  - rewrite Hpos. cbn. by rewrite He2, Hc2, He, Hc.
  - cbn. by rewrite He2, Hc2, He, Hc.
Qed.

Lemma bomb_waits_thirty_seconds_witness :
  finished_with
    (TagBomb.gameLoop Sample.host Sample.roster4 "p1" "s1" (Sample.bomb_frame 2016 20000)
       (2000%Q, Sample.bomb_last_two)) = None.
Proof.
  apply (bomb_waits_thirty_seconds Sample.host Sample.roster4 "p1" "s1"
           (Sample.bomb_frame 2016 20000) 2000 Sample.bomb_last_two); by vm_compute.
Defined.

Lemma explode_when_due (H : Js.Host) (players : list Player)
    (gameSessionId : string) (f : TagBomb.Frame) (state : TagBomb.GameState) (h : string) :
  TagBomb.bombHolderId state = Some h → h ≠ EmptyString →
  (TagBomb.bombTimer state <= 0)%Q →
  TagBomb.eliminatedPlayers (next (TagBomb.explode H players gameSessionId f state))
  = TagBomb.eliminatedPlayers state ++ [h].
Proof.
  intros Hh Hne Ht. unfold TagBomb.explode. rewrite Hh.
  apply Qleb_true in Ht. rewrite Ht, (bool_decide_eq_false_2 _ Hne). cbn [andb negb].
  cbn zeta. destruct (_ && _).
  - by destruct (TagBomb.remainingPlayers _ _).
  - destruct (0 <? _)%nat; [| done]. by destruct (selectBySeed _ _ _ _).
Qed.

(** X30.  A pass relayed from another client changes the holder and the
    timer shown, but not the clock of the bomb: [handleGameStateChange]
    leaves [lastBombPassTime] as it was, and the next frame works the
    timer out from it again.  So when 30 s have gone by on the client's own
    clock, the frame that follows a relayed pass eliminates the player who
    has just received the bomb, however recent the pass, unless that frame
    itself passes the bomb on. *)
Theorem relayed_pass_keeps_the_local_clock (H : Js.Host) (players : list Player)
    (currentPlayerId gameSessionId : string) (f : TagBomb.Frame)
    (lastTime : Q) (state : TagBomb.GameState) (target : string) (sentAt : Q) :
  target ≠ EmptyString → ¬ (lastTime == 0)%Q →
  (TagBomb.lastBombPassTime state + 30000 <= TagBomb.now_timer f)%Q →
  let relayed :=
    next (TagBomb.handleGameStateChange (TagBomb.msg_pass target sentAt) state) in
  let r := TagBomb.gameLoop H players currentPlayerId gameSessionId f (lastTime, relayed) in
  TagBomb.bombHolderId relayed = Some target
  ∧ TagBomb.bombTimer relayed = 30000%Q
  ∧ TagBomb.lastBombPassTime relayed = TagBomb.lastBombPassTime state
  ∧ TagBomb.eliminatedPlayers relayed = TagBomb.eliminatedPlayers state
  ∧ ((∃ holder, TagBomb.msg_pass holder (TagBomb.now_published f) ∈ published r)
     ∨ TagBomb.eliminatedPlayers (next r).2 = TagBomb.eliminatedPlayers state ++ [target]).
Proof.
  intros Hne Hlast Hdue. cbn zeta.
  set (relayed := next (TagBomb.handleGameStateChange _ state)).
  assert (Hfields : TagBomb.bombHolderId relayed = Some target
                    ∧ TagBomb.bombTimer relayed = 30000%Q
                    ∧ TagBomb.lastBombPassTime relayed = TagBomb.lastBombPassTime state
                    ∧ TagBomb.eliminatedPlayers relayed = TagBomb.eliminatedPlayers state).
  { by unfold relayed, TagBomb.handleGameStateChange. }
  destruct Hfields as (Hh & Hshown & Hclock & Hel). split_and!; try done.
  unfold TagBomb.gameLoop.
  destruct (Js.Qeqb lastTime 0) eqn:E0.
  { exfalso. apply Hlast. by apply Qeq_bool_eq. }
  set (state1 := TagBomb.coolPass _ _).
  destruct (before_pass_fields H currentPlayerId (TagBomb.keys f)
              (TagBomb.timestamp f - lastTime) relayed) as (He1 & Hh1 & Ht1 & _).
  fold state1 in He1, Hh1, Ht1.
  destruct (passBomb_fields H f state1) as (_ & _ & Hpass).
  destruct (TagBomb.passBomb H f state1) as [state2 sent]. cbn [fst snd] in *.
  destruct Hpass as [[= -> ->] | (holder & _ & _ & ->)].
  - right. cbn [next snd app].
    rewrite (explode_when_due H players gameSessionId f _ target).
    + cbn. by rewrite He1, Hel.
    + cbn. by rewrite Hh1.
    + done.
    + cbn. rewrite Ht1, Hclock. unfold Js.Qmax.
      destruct (Js.Qleb 0 _) eqn:E; [| lra]. apply Qleb_true in E. lra.
  - left. exists holder. cbn [published]. apply elem_of_app. left.
    by apply list_elem_of_singleton.
Qed.

Lemma relayed_pass_keeps_the_local_clock_witness :
  let relayed :=
    next (TagBomb.handleGameStateChange (TagBomb.msg_pass "p1" 31000) Sample.bomb_last_two) in
  TagBomb.eliminatedPlayers
    (next (TagBomb.gameLoop Sample.host Sample.roster4 "p4" "s1"
             (Sample.bomb_frame 31016 31000) (31000%Q, relayed))).2
  = ["p3"; "p2"; "p1"].
Proof.
  destruct (relayed_pass_keeps_the_local_clock Sample.host Sample.roster4 "p4" "s1"
              (Sample.bomb_frame 31016 31000) 31000 Sample.bomb_last_two "p1" 31000)
    as (_ & _ & _ & _ & [[holder Hpass] | Hgone]).
  - done.
  - by vm_compute.
  - by vm_compute.
  - exfalso. vm_compute in Hpass.
    repeat (apply elem_of_cons in Hpass as [Hpass | Hpass]; [discriminate Hpass |]).
    by apply elem_of_nil in Hpass.
  - exact Hgone.
Defined.

Lemma explode_eliminates_holder (H : Js.Host) (players : list Player)
    (gameSessionId : string) (f : TagBomb.Frame) (state : TagBomb.GameState) :
  let r := TagBomb.explode H players gameSessionId f state in
  TagBomb.eliminatedPlayers (next r) = TagBomb.eliminatedPlayers state
  ∨ ∃ h, TagBomb.bombHolderId state = Some h
         ∧ TagBomb.eliminatedPlayers (next r) = TagBomb.eliminatedPlayers state ++ [h].
Proof.
  cbn zeta. unfold TagBomb.explode.
  destruct (TagBomb.bombHolderId state) as [holderId |]; [| by left].
  destruct (_ && _); [| by left].
  right. exists holderId. split; [done |]. cbn zeta.
  destruct (_ && _).
  - by destruct (TagBomb.remainingPlayers _ _).
  - destruct (0 <? _)%nat; [| done]. by destruct (selectBySeed _ _ _ _).
Qed.

(** X8.  A frame of the bomb game eliminates at most one player, at the
    end of the list and keeping what was listed: the player who holds the
    bomb, that is the holder at the start of the frame or the one the frame
    has just published as the new holder. *)
Theorem bomb_frame_eliminates_holder (H : Js.Host) (players : list Player)
    (currentPlayerId gameSessionId : string) (f : TagBomb.Frame)
    (lastTime : Q) (state : TagBomb.GameState) :
  let r := TagBomb.gameLoop H players currentPlayerId gameSessionId f (lastTime, state) in
  let after := TagBomb.eliminatedPlayers (next r).2 in
  after = TagBomb.eliminatedPlayers state
  ∨ ∃ h, after = TagBomb.eliminatedPlayers state ++ [h]
         ∧ (TagBomb.bombHolderId state = Some h
            ∨ TagBomb.msg_pass h (TagBomb.now_published f) ∈ published r).
Proof.
  cbn zeta. unfold TagBomb.gameLoop.
  destruct (Js.Qeqb lastTime 0); [by left |].
  set (state1 := TagBomb.coolPass _ _).
  destruct (before_pass_fields H currentPlayerId (TagBomb.keys f)
              (TagBomb.timestamp f - lastTime) state) as (He & Hh & _ & _).
  fold state1 in He, Hh.
  destruct (passBomb_fields H f state1) as (He2 & _ & Hpass).
  destruct (TagBomb.passBomb H f state1) as [state2 sent]. cbn [fst snd] in *.
  destruct (explode_eliminates_holder H players gameSessionId f (TagBomb.runTimer f state2))
    as [Hsame | (h & Hholder & Happ)]; cbn [next published snd].
  - left. rewrite Hsame. cbn. by rewrite He2, He.
  - right. exists h. rewrite Happ. cbn. rewrite He2, He. split; [done |].
    change (TagBomb.bombHolderId (TagBomb.runTimer f state2))
      with (TagBomb.bombHolderId state2) in Hholder.
    destruct Hpass as [[= -> ->] | (target & _ & Htarget & ->)].
    + left. by rewrite <- Hh.
    + right. rewrite Htarget in Hholder. injection Hholder as ->.
      apply elem_of_app. left. by apply list_elem_of_singleton.
Qed.

Lemma closest_is_nearest (H : Js.Host) (bombHolder : Ghost) (state : TagBomb.GameState) :
  let reach g := Ghost.id g ≠ Ghost.id bombHolder
                 ∧ (Ghost.id g ∉ TagBomb.eliminatedPlayers state) in
  match TagBomb.closest H bombHolder state with
  | Some target =>
      target ∈ Js.Map_values (TagBomb.ghosts state) ∧ reach target
      ∧ (Ghost.distanceTo H bombHolder target < 40)%Q
      ∧ ∀ other, other ∈ Js.Map_values (TagBomb.ghosts state) → reach other →
                 (Ghost.distanceTo H bombHolder target
                  <= Ghost.distanceTo H bombHolder other)%Q
  | None =>
      ∀ other, other ∈ Js.Map_values (TagBomb.ghosts state) → reach other →
               (40 <= Ghost.distanceTo H bombHolder other)%Q
  end.
Proof.
  cbn zeta. unfold TagBomb.closest.
  set (reach g := Ghost.id g ≠ Ghost.id bombHolder
                  ∧ (Ghost.id g ∉ TagBomb.eliminatedPlayers state)).
  set (d g := Ghost.distanceTo H bombHolder g).
  set (Inv (seen : list Ghost) (acc : option Ghost * option Q) :=
         match acc with
         | (Some g, Some c) =>
             g ∈ seen ∧ reach g ∧ c = d g ∧ (d g < 40)%Q
             ∧ ∀ x, x ∈ seen → reach x → (d g <= d x)%Q
         | (None, None) => ∀ x, x ∈ seen → reach x → (40 <= d x)%Q
         | _ => False
         end).
  match goal with |- context [fold_left ?F _ _] => set (F' := F) end.
  assert (Hgen : ∀ l seen acc, Inv seen acc → Inv (seen ++ l) (fold_left F' l acc)).
  { induction l as [| x l IH]; intros seen acc Hacc.
    - by rewrite app_nil_r.
    - cbn [fold_left]. replace (seen ++ x :: l) with ((seen ++ [x]) ++ l)
        by (by rewrite <- app_assoc).
      apply IH. unfold F'.
      destruct (bool_decide (Ghost.id x ≠ Ghost.id bombHolder)) eqn:E1; cbn [andb].
      2:{ apply bool_decide_eq_false in E1.
          destruct acc as [[g |] [c |]]; try done; cbn in *.
          - destruct Hacc as (Hin & Hr & Hc & Hlt & Hmin). split_and!; try done.
            + apply elem_of_app; by left.
            + intros y [Hy | Hy%list_elem_of_singleton]%elem_of_app Hry; [by apply Hmin |].
              subst y. by destruct Hry.
          - intros y [Hy | Hy%list_elem_of_singleton]%elem_of_app Hry; [by apply Hacc |].
            subst y. by destruct Hry. }
      apply bool_decide_eq_true in E1.
      destruct (Js.includes (TagBomb.eliminatedPlayers state) (Ghost.id x)) eqn:E2;
        cbn [negb].
      { apply includes_true in E2.
        destruct acc as [[g |] [c |]]; try done; cbn in *.
        - destruct Hacc as (Hin & Hr & Hc & Hlt & Hmin). split_and!; try done.
          + apply elem_of_app; by left.
          + intros y [Hy | Hy%list_elem_of_singleton]%elem_of_app Hry; [by apply Hmin |].
            subst y. by destruct Hry.
        - intros y [Hy | Hy%list_elem_of_singleton]%elem_of_app Hry; [by apply Hacc |].
          subst y. by destruct Hry. }
      apply includes_false in E2.
      fold (d x).
      destruct (Js.Qltb (d x) 40) eqn:E3; cbn [andb].
      + apply Qltb_true in E3.
        destruct acc as [[g |] [c |]]; try done; cbn [snd] in *.
        * destruct Hacc as (Hin & Hr & Hc & Hlt & Hmin). subst c.
          destruct (Js.Qltb (d x) (d g)) eqn:E4.
          -- apply Qltb_true in E4. cbn. split_and!; try done.
             ++ apply elem_of_app; right. by apply list_elem_of_singleton.
             ++ intros y [Hy | Hy%list_elem_of_singleton]%elem_of_app Hry.
                ** specialize (Hmin y Hy Hry). lra.
                ** subst y. lra.
          -- apply Qltb_false in E4. cbn. split_and!; try done.
             ++ apply elem_of_app; by left.
             ++ intros y [Hy | Hy%list_elem_of_singleton]%elem_of_app Hry;
                  [by apply Hmin |]. by subst y.
        * cbn. split_and!; try done.
          -- apply elem_of_app; right. by apply list_elem_of_singleton.
          -- intros y [Hy | Hy%list_elem_of_singleton]%elem_of_app Hry.
             ++ specialize (Hacc y Hy Hry). lra.
             ++ subst y. lra.
      + apply Qltb_false in E3.
        destruct acc as [[g |] [c |]]; try done; cbn in *.
        * destruct Hacc as (Hin & Hr & Hc & Hlt & Hmin). split_and!; try done.
          -- apply elem_of_app; by left.
          -- intros y [Hy | Hy%list_elem_of_singleton]%elem_of_app Hry;
               [by apply Hmin |]. subst y. lra.
        * intros y [Hy | Hy%list_elem_of_singleton]%elem_of_app Hry; [by apply Hacc |].
          by subst y. }
  specialize (Hgen (Js.Map_values (TagBomb.ghosts state)) [] (None, None)).
  cbn [app] in Hgen.
  destruct (fold_left F' _ _) as [[g |] [c |]]; cbn in *.
  - destruct Hgen as (? & ? & ? & ? & ?); [by intros ? ?%elem_of_nil |]. done.
  - destruct Hgen. by intros ? ?%elem_of_nil.
  - destruct Hgen. by intros ? ?%elem_of_nil.
  - apply Hgen. by intros ? ?%elem_of_nil.
Qed.

(** X9.  When a frame passes the bomb, it passes it to the nearest
    entity within reach: the pass happens only with the pass cooldown at
    zero and a holder who is in the game; the entity that receives the
    bomb is another one, not eliminated, less than 40 units from the
    holder, and no other such entity is nearer.  The pass names the new
    holder, restarts the clock of the bomb and sets a cooldown of 500 ms. *)
Theorem bomb_passes_to_nearest (H : Js.Host) (f : TagBomb.Frame)
    (state state' : TagBomb.GameState) (sent : list Msg) :
  TagBomb.passBomb H f state = (state', sent) → sent ≠ [] →
  ∃ holderId bombHolder target,
    TagBomb.bombHolderId state = Some holderId
    ∧ Js.Map_get holderId (TagBomb.ghosts state) = Some bombHolder
    ∧ (TagBomb.bombPassCooldown state == 0)%Q
    ∧ (holderId ∉ TagBomb.eliminatedPlayers state)
    ∧ target ∈ Js.Map_values (TagBomb.ghosts state)
    ∧ Ghost.id target ≠ Ghost.id bombHolder
    ∧ (Ghost.id target ∉ TagBomb.eliminatedPlayers state)
    ∧ (Ghost.distanceTo H bombHolder target < 40)%Q
    ∧ (∀ other, other ∈ Js.Map_values (TagBomb.ghosts state) →
                Ghost.id other ≠ Ghost.id bombHolder →
                (Ghost.id other ∉ TagBomb.eliminatedPlayers state) →
                (Ghost.distanceTo H bombHolder target
                 <= Ghost.distanceTo H bombHolder other)%Q)
    ∧ TagBomb.bombHolderId state' = Some (Ghost.id target)
    ∧ TagBomb.bombPassCooldown state' = 500%Q
    ∧ TagBomb.lastBombPassTime state' = TagBomb.now_pass f
    ∧ sent = [TagBomb.msg_pass (Ghost.id target) (TagBomb.now_published f)].
Proof.
  unfold TagBomb.passBomb. intros Hrun Hsent.
  destruct (TagBomb.bombHolderId state) as [holderId |] eqn:Eh; [| by simplify_eq].
  destruct (negb _ && Js.Qeqb _ _) eqn:Eguard; [| by simplify_eq].
  apply andb_true_iff in Eguard as [_ Ecool]. apply Qeq_bool_iff in Ecool.
  destruct (Js.Map_get holderId (TagBomb.ghosts state)) as [bombHolder |] eqn:Eg;
    [| by simplify_eq].
  destruct (Js.includes (TagBomb.eliminatedPlayers state) holderId) eqn:Ein;
    [by simplify_eq |].
  apply includes_false in Ein.
  pose proof (closest_is_nearest H bombHolder state) as Hnear. cbn zeta in Hnear.
  destruct (TagBomb.closest H bombHolder state) as [target |]; [| by simplify_eq].
  destruct Hnear as (Hin & [Hne Hel] & Hlt & Hmin).
  injection Hrun as <- <-.
  exists holderId, bombHolder, target. split_and!; try done.
  intros other ? ? ?. by apply Hmin.
Qed.

Lemma bomb_passes_to_nearest_witness :
  let state :=
    {| TagBomb.ghosts := [("p1", Ghost.new "p1" "Ana" "red" 100 100);
                          ("p2", Ghost.new "p2" "Bo" "blue" 110 100);
                          ("p3", Ghost.new "p3" "Cy" "green" 103 104)];
       TagBomb.bombHolderId := Some "p1"; TagBomb.bombTimer := 30000;
       TagBomb.eliminatedPlayers := []; TagBomb.gameStartTime := 0;
       TagBomb.bombPassCooldown := 0; TagBomb.lastBombPassTime := 0;
       TagBomb.gameCompleted := false |} in
  ∃ holderId bombHolder target,
    TagBomb.bombHolderId state = Some holderId
    ∧ Js.Map_get holderId (TagBomb.ghosts state) = Some bombHolder
    ∧ (TagBomb.bombPassCooldown state == 0)%Q
    ∧ (holderId ∉ TagBomb.eliminatedPlayers state)
    ∧ target ∈ Js.Map_values (TagBomb.ghosts state)
    ∧ Ghost.id target ≠ Ghost.id bombHolder
    ∧ (Ghost.id target ∉ TagBomb.eliminatedPlayers state)
    ∧ (Ghost.distanceTo Sample.host bombHolder target < 40)%Q
    ∧ (∀ other, other ∈ Js.Map_values (TagBomb.ghosts state) →
                Ghost.id other ≠ Ghost.id bombHolder →
                (Ghost.id other ∉ TagBomb.eliminatedPlayers state) →
                (Ghost.distanceTo Sample.host bombHolder target
                 <= Ghost.distanceTo Sample.host bombHolder other)%Q)
    ∧ TagBomb.bombHolderId (TagBomb.passBomb Sample.host (Sample.bomb_frame 2016 500) state).1
      = Some (Ghost.id target)
    ∧ TagBomb.bombPassCooldown
        (TagBomb.passBomb Sample.host (Sample.bomb_frame 2016 500) state).1 = 500%Q
    ∧ TagBomb.lastBombPassTime
        (TagBomb.passBomb Sample.host (Sample.bomb_frame 2016 500) state).1
      = TagBomb.now_pass (Sample.bomb_frame 2016 500)
    ∧ (TagBomb.passBomb Sample.host (Sample.bomb_frame 2016 500) state).2
      = [TagBomb.msg_pass (Ghost.id target)
           (TagBomb.now_published (Sample.bomb_frame 2016 500))].
Proof.
  intros state.
  apply (bomb_passes_to_nearest Sample.host (Sample.bomb_frame 2016 500) state).
  - apply surjective_pairing.
  - by vm_compute.
Defined.

Lemma explode_completion (H : Js.Host) (players : list Player) (gameSessionId : string)
    (f : TagBomb.Frame) (state : TagBomb.GameState) :
  let r := TagBomb.explode H players gameSessionId f state in
  (TagBomb.gameCompleted state = true →
     finished_with r = None ∧ TagBomb.gameCompleted (next r) = true)
  ∧ (finished_with r ≠ None → TagBomb.gameCompleted (next r) = true).
Proof.
  cbn zeta. unfold TagBomb.explode.
  destruct (TagBomb.bombHolderId state) as [holderId |]; [| by split].
  destruct (_ && _); [| by split].
  cbn zeta. cbn [TagBomb.gameCompleted TagBomb.set_ghosts TagBomb.set_eliminatedPlayers].
  destruct (TagBomb.gameCompleted state) eqn:Ec.
  - rewrite andb_false_r.
    destruct (0 <? _)%nat; [| by split].
    destruct (selectBySeed _ _ _ _); by split.
  - rewrite andb_true_r. destruct (_ =? _)%nat.
    + destruct (TagBomb.remainingPlayers _ _); by split.
    + destruct (0 <? _)%nat; [| by split].
      destruct (selectBySeed _ _ _ _); by split.
Qed.

Lemma handle_completion (H : Js.Host) (players : list Player)
    (currentPlayerId gameSessionId : string) (e : TagBomb.Event)
    (c : Q * TagBomb.GameState) :
  let r := TagBomb.handle H players currentPlayerId gameSessionId e c in
  (TagBomb.gameCompleted c.2 = true →
     finished_with r = None ∧ TagBomb.gameCompleted (next r).2 = true)
  ∧ (finished_with r ≠ None → TagBomb.gameCompleted (next r).2 = true).
Proof.
  cbn zeta. destruct c as [lastTime state]. destruct e as [f | m | p]; cbn [TagBomb.handle snd].
  - unfold TagBomb.gameLoop. destruct (Js.Qeqb lastTime 0); [by split |].
    set (state1 := TagBomb.coolPass _ _).
    destruct (before_pass_fields H currentPlayerId (TagBomb.keys f)
                (TagBomb.timestamp f - lastTime) state) as (_ & _ & _ & Hc).
    fold state1 in Hc.
    destruct (passBomb_fields H f state1) as (_ & Hc2 & _).
    destruct (TagBomb.passBomb H f state1) as [state2 sent]. cbn [fst snd] in *.
    destruct (explode_completion H players gameSessionId f (TagBomb.runTimer f state2))
      as [Hdone Hfin].
    cbn [next finished_with snd].
    change (TagBomb.gameCompleted (TagBomb.runTimer f state2))
      with (TagBomb.gameCompleted state2) in Hdone.
    split; [| done]. intros Hcomp. apply Hdone. by rewrite Hc2, Hc.
  - unfold TagBomb.handleGameStateChange.
    set (state1 := match Msg.bomb_holder_id m with Some _ => _ | None => state end).
    assert (Hc : TagBomb.gameCompleted state1 = TagBomb.gameCompleted state).
    { unfold state1. by destruct (Msg.bomb_holder_id m). }
    destruct (Msg.eliminated_players m) as [newEliminated |].
    + cbn [TagBomb.gameCompleted TagBomb.set_eliminatedPlayers]. rewrite Hc.
      destruct (TagBomb.gameCompleted state) eqn:Ec.
      * rewrite andb_false_r. cbn [andb].
        destruct (Msg.bomb_timer m); cbn; by split.
      * destruct (_ && _ && _); destruct (Msg.bomb_timer m); cbn; by split.
    + destruct (Msg.bomb_timer m); cbn; rewrite Hc; by split.
  - unfold TagBomb.handlePlayerDisconnected.
    destruct (bool_decide (p = currentPlayerId)); [by split |].
    destruct (Js.includes (TagBomb.eliminatedPlayers state) p); [by split |].
    cbn zeta. cbn [TagBomb.gameCompleted TagBomb.set_eliminatedPlayers].
    destruct (TagBomb.gameCompleted state) eqn:Ec.
    + rewrite andb_false_r. by split.
    + rewrite andb_true_r. destruct (_ =? _)%nat; [| by split].
      destruct (TagBomb.remainingPlayers _ _); by split.
Qed.

Lemma completed_hands_nothing (H : Js.Host) (players : list Player)
    (currentPlayerId gameSessionId : string) (events : list TagBomb.Event)
    (c : Q * TagBomb.GameState) :
  TagBomb.gameCompleted c.2 = true →
  (TagBomb.handleAll H players currentPlayerId gameSessionId events c).2 = [].
Proof.
  revert c. induction events as [| e events IH]; intros c Hc; [done |].
  cbn [TagBomb.handleAll].
  destruct (handle_completion H players currentPlayerId gameSessionId e c) as [Hdone _].
  destruct (Hdone Hc) as [Hnone Hnext].
  specialize (IH _ Hnext).
  destruct (TagBomb.handleAll H players currentPlayerId gameSessionId events _)
    as [c' handed].
  cbn [snd] in *. by rewrite Hnone.
Qed.

(** X10.  Whatever frames, relayed game states and disconnect notices
    reach the bomb game of a client, and in whatever order, the client
    hands a ranking to [onGameComplete] at most once. *)
Theorem bomb_game_completes_once (H : Js.Host) (players : list Player)
    (currentPlayerId gameSessionId : string) (events : list TagBomb.Event)
    (c : Q * TagBomb.GameState) :
  (length (TagBomb.handleAll H players currentPlayerId gameSessionId events c).2 ≤ 1)%nat.
Proof.
  revert c. induction events as [| e events IH]; intros c; [cbn; lia |].
  cbn [TagBomb.handleAll].
  destruct (handle_completion H players currentPlayerId gameSessionId e c) as [_ Hfin].
  pose proof (completed_hands_nothing H players currentPlayerId gameSessionId events
                (next (TagBomb.handle H players currentPlayerId gameSessionId e c))) as Hrest.
  specialize (IH (next (TagBomb.handle H players currentPlayerId gameSessionId e c))).
  destruct (TagBomb.handleAll H players currentPlayerId gameSessionId events _)
    as [c' handed].
  cbn [snd] in *.
  destruct (finished_with _) as [results |]; [| done].
  rewrite Hrest; [cbn; lia |]. by apply Hfin.
Qed.

Lemma Map_modify_elem {V} (k : string) (f : V → V) (m : Js.Map V) (kv' : string * V) :
  kv' ∈ Js.Map_modify k f m →
  ∃ kv, kv ∈ m ∧ kv' = if decide (kv.1 = k) then (kv.1, f kv.2) else kv.
Proof.
  unfold Js.Map_modify. intros (kv & -> & Hin)%list_elem_of_fmap. by exists kv.
Qed.

Lemma Map_set_elem {V} (k : string) (v : V) (m : Js.Map V) (kv : string * V) :
  kv ∈ Js.Map_set k v m → kv = (k, v) ∨ kv ∈ m.
Proof.
  induction m as [| [k' v'] m IH]; cbn.
  - intros ->%list_elem_of_singleton. by left.
  - destruct (decide (k' = k)).
    + intros [-> | Hin]%elem_of_cons; [by left | right; by right].
    + intros [-> | Hin]%elem_of_cons; [right; by left |].
      destruct (IH Hin); [by left | right; by right].
Qed.

Lemma Map_get_elem {V} (k : string) (m : Js.Map V) (v : V) :
  Js.Map_get k m = Some v → (k, v) ∈ m.
Proof.
  induction m as [| [k' v'] m IH]; cbn; [done |].
  destruct (decide (k' = k)) as [-> |].
  - intros [= ->]. by left.
  - intros Hget. right. by apply IH.
Qed.

(** The invariant of the bomb game behind the bomb flags: an entity is
    stored under its own identity, and one that shows the bomb is the
    holder the state names. *)
Lemma marks_kept (state state' : TagBomb.GameState) :
  (∀ kg', kg' ∈ TagBomb.ghosts state' →
     ∃ kg, kg ∈ TagBomb.ghosts state ∧ kg'.1 = kg.1 ∧ Ghost.id kg'.2 = Ghost.id kg.2
           ∧ Ghost.hasBomb kg'.2 = Ghost.hasBomb kg.2) →
  TagBomb.bombHolderId state' = TagBomb.bombHolderId state →
  (∀ kg, kg ∈ TagBomb.ghosts state → Ghost.id kg.2 = kg.1)
  ∧ TagBomb.bomb_marks_holder state →
  (∀ kg, kg ∈ TagBomb.ghosts state' → Ghost.id kg.2 = kg.1)
  ∧ TagBomb.bomb_marks_holder state'.
Proof.
  intros Hfrom Hholder [Hkeys Hmarks]. split.
  - intros kg' (kg & Hin & Hk & Hid & _)%Hfrom. rewrite Hid, Hk. by apply Hkeys.
  - intros kg' (kg & Hin & Hk & Hid & Hb)%Hfrom Hbomb.
    rewrite Hholder, Hid. apply Hmarks; [done |]. by rewrite <- Hb.
Qed.

Lemma before_pass_marks (H : Js.Host) (currentPlayerId : string) (keys : list string)
    (deltaTime : Q) (state : TagBomb.GameState) :
  (∀ kg, kg ∈ TagBomb.ghosts state → Ghost.id kg.2 = kg.1)
  ∧ TagBomb.bomb_marks_holder state →
  let state' :=
    TagBomb.coolPass deltaTime
      (TagBomb.coolOthers currentPlayerId deltaTime
         (TagBomb.moveCurrent H currentPlayerId keys deltaTime state)) in
  (∀ kg, kg ∈ TagBomb.ghosts state' → Ghost.id kg.2 = kg.1)
  ∧ TagBomb.bomb_marks_holder state'.
Proof.
  intros Hinv. cbn zeta.
  assert (Hcool : ∀ d g, Ghost.id (Ghost.updateCooldown d g) = Ghost.id g
                         ∧ Ghost.hasBomb (Ghost.updateCooldown d g) = Ghost.hasBomb g).
  { intros d g. unfold Ghost.updateCooldown. by destruct (Js.Qltb 0 _). }
  set (state1 := TagBomb.moveCurrent H currentPlayerId keys deltaTime state).
  assert (H1 : (∀ kg, kg ∈ TagBomb.ghosts state1 → Ghost.id kg.2 = kg.1)
               ∧ TagBomb.bomb_marks_holder state1).
  { apply (marks_kept state); [| | done].
    - unfold state1, TagBomb.moveCurrent.
      destruct (Js.Map_get currentPlayerId (TagBomb.ghosts state)); [| by eauto 6].
      destruct (Js.includes _ _); [by eauto 6 |].
      cbn. intros kg' (kg & Hin & ->)%Map_modify_elem. exists kg. split; [done |].
      destruct (decide (kg.1 = currentPlayerId)); [| done].
      cbn [fst snd].
      match goal with |- context [Ghost.updateCooldown ?d ?g] =>
        destruct (Hcool d g) as [-> ->] end.
      done.
    - unfold state1, TagBomb.moveCurrent.
      destruct (Js.Map_get currentPlayerId (TagBomb.ghosts state)); [| done].
      by destruct (Js.includes _ _). }
  set (state2 := TagBomb.coolOthers currentPlayerId deltaTime state1).
  assert (H2 : (∀ kg, kg ∈ TagBomb.ghosts state2 → Ghost.id kg.2 = kg.1)
               ∧ TagBomb.bomb_marks_holder state2).
  { apply (marks_kept state1); [| done | done].
    unfold state2, TagBomb.coolOthers. cbn.
    intros kg' (kg & -> & Hin)%list_elem_of_fmap. exists kg. split; [done |].
    destruct (Js.includes _ _); [done |]. destruct (bool_decide _); [| done].
    cbn. by destruct (Hcool deltaTime kg.2) as [-> ->]. }
  apply (marks_kept state2); [| | done].
  - unfold TagBomb.coolPass. destruct (Js.Qltb 0 _); cbn; by eauto 6.
  - unfold TagBomb.coolPass. by destruct (Js.Qltb 0 _).
Qed.

Lemma passBomb_marks (H : Js.Host) (f : TagBomb.Frame) (state : TagBomb.GameState) :
  (∀ kg, kg ∈ TagBomb.ghosts state → Ghost.id kg.2 = kg.1)
  ∧ TagBomb.bomb_marks_holder state →
  (∀ kg, kg ∈ TagBomb.ghosts (TagBomb.passBomb H f state).1 → Ghost.id kg.2 = kg.1)
  ∧ TagBomb.bomb_marks_holder (TagBomb.passBomb H f state).1.
Proof.
  intros [Hkeys Hmarks]. unfold TagBomb.passBomb.
  destruct (TagBomb.bombHolderId state) as [holderId |] eqn:Eh; [| done].
  destruct (_ && _); [| done].
  destruct (Js.Map_get holderId (TagBomb.ghosts state)) as [bombHolder |] eqn:Eg; [| done].
  destruct (Js.includes _ _); [done |].
  destruct (TagBomb.closest H bombHolder state) as [closestGhost |]; [| done].
  apply Map_get_elem in Eg. pose proof (Hkeys _ Eg) as Hid. cbn [fst snd] in Hid.
  cbn. split.
  - intros kg' (kg1 & (kg & Hin & ->)%Map_modify_elem & ->)%Map_modify_elem.
    pose proof (Hkeys _ Hin).
    destruct (decide (kg.1 = Ghost.id bombHolder)); cbn [fst snd];
      destruct (decide (_ = Ghost.id closestGhost)); done.
  - intros kg' (kg1 & (kg & Hin & ->)%Map_modify_elem & ->)%Map_modify_elem.
    pose proof (Hkeys _ Hin) as Hk.
    unfold TagBomb.bombHolderId at 1. cbn [TagBomb.set_bombPassCooldown
      TagBomb.set_lastBombPassTime TagBomb.set_bombHolderId TagBomb.bombHolderId].
    destruct (decide (kg.1 = Ghost.id bombHolder)) as [Eb | Eb]; cbn [fst snd];
      destruct (decide (_ = Ghost.id closestGhost)) as [Ec | Ec]; cbn; intros Hb.
    + by rewrite Hk, Ec.
    + done.
    + by rewrite Hk, Ec.
    + specialize (Hmarks _ Hin Hb). rewrite Eh in Hmarks. injection Hmarks as Hm.
      exfalso. apply Eb. by rewrite <- Hk, <- Hm, Hid.
Qed.

Lemma explode_marks (H : Js.Host) (players : list Player) (gameSessionId : string)
    (f : TagBomb.Frame) (state : TagBomb.GameState) :
  (∀ kg, kg ∈ TagBomb.ghosts state → Ghost.id kg.2 = kg.1)
  ∧ TagBomb.bomb_marks_holder state →
  let state' := next (TagBomb.explode H players gameSessionId f state) in
  (∀ kg, kg ∈ TagBomb.ghosts state' → Ghost.id kg.2 = kg.1)
  ∧ TagBomb.bomb_marks_holder state'.
Proof.
  intros [Hkeys Hmarks]. cbn zeta. unfold TagBomb.explode.
  destruct (TagBomb.bombHolderId state) as [holderId |] eqn:Eh; [| done].
  destruct (_ && _); [| done]. cbn zeta.
  set (ghosts1 := Js.Map_modify holderId (Ghost.set_hasBomb false) (TagBomb.ghosts state)).
  assert (Hkeys1 : ∀ kg, kg ∈ ghosts1 → Ghost.id kg.2 = kg.1).
  { intros kg' (kg & Hin & ->)%Map_modify_elem. pose proof (Hkeys _ Hin).
    by destruct (decide (kg.1 = holderId)). }
  assert (Hnone : ∀ kg, kg ∈ ghosts1 → Ghost.hasBomb kg.2 = false).
  { intros kg' (kg & Hin & ->)%Map_modify_elem.
    destruct (decide (kg.1 = holderId)) as [Ek | Ek]; [done |].
    destruct (Ghost.hasBomb kg.2) eqn:Hb; [| done].
    specialize (Hmarks _ Hin Hb). rewrite Eh in Hmarks. injection Hmarks as Hm.
    exfalso. apply Ek. rewrite Hm. symmetry. by apply Hkeys. }
  assert (Hquiet : ∀ st, TagBomb.ghosts st = ghosts1 →
            (∀ kg, kg ∈ TagBomb.ghosts st → Ghost.id kg.2 = kg.1)
            ∧ TagBomb.bomb_marks_holder st).
  { intros st Hst. split; [by rewrite Hst |].
    intros kg Hin Hb. rewrite Hst in Hin. by rewrite (Hnone _ Hin) in Hb. }
  destruct (_ && _).
  { destruct (TagBomb.remainingPlayers _ _); by apply Hquiet. }
  destruct (0 <? _)%nat; [| by apply Hquiet].
  destruct (selectBySeed _ _ _ _) as [newBombHolder |]; [| by apply Hquiet].
  cbn. split.
  - intros kg' (kg & Hin & ->)%Map_modify_elem. pose proof (Hkeys1 _ Hin).
    by destruct (decide (kg.1 = Ghost.id newBombHolder)).
  - intros kg' (kg & Hin & ->)%Map_modify_elem.
    unfold TagBomb.bombHolderId at 1. cbn [TagBomb.set_bombPassCooldown
      TagBomb.set_lastBombPassTime TagBomb.set_bombHolderId TagBomb.bombHolderId].
    destruct (decide (kg.1 = Ghost.id newBombHolder)) as [Ek | Ek]; cbn; intros Hb.
    + by rewrite (Hkeys1 _ Hin), Ek.
    + by rewrite (Hnone _ Hin) in Hb.
Qed.

Lemma handle_marks (H : Js.Host) (players : list Player)
    (currentPlayerId gameSessionId : string) (e : TagBomb.Event)
    (c : Q * TagBomb.GameState) :
  (∀ kg, kg ∈ TagBomb.ghosts c.2 → Ghost.id kg.2 = kg.1)
  ∧ TagBomb.bomb_marks_holder c.2 →
  let c' := next (TagBomb.handle H players currentPlayerId gameSessionId e c) in
  (∀ kg, kg ∈ TagBomb.ghosts c'.2 → Ghost.id kg.2 = kg.1)
  ∧ TagBomb.bomb_marks_holder c'.2.
Proof.
  destruct c as [lastTime state]. cbn [snd]. intros Hinv. cbn zeta.
  destruct e as [f | m | p]; cbn [TagBomb.handle snd next].
  - unfold TagBomb.gameLoop. destruct (Js.Qeqb lastTime 0); [done |].
    pose proof (before_pass_marks H currentPlayerId (TagBomb.keys f)
                  (TagBomb.timestamp f - lastTime) state Hinv) as H1.
    cbn zeta in H1. apply (passBomb_marks H f) in H1.
    destruct (TagBomb.passBomb H f _) as [state2 sent]. cbn [fst snd] in *.
    apply (explode_marks H players gameSessionId f (TagBomb.runTimer f state2)).
    exact H1.
  - unfold TagBomb.handleGameStateChange.
    set (state1 := match Msg.bomb_holder_id m with Some _ => _ | None => state end).
    assert (H1 : (∀ kg, kg ∈ TagBomb.ghosts state1 → Ghost.id kg.2 = kg.1)
                 ∧ TagBomb.bomb_marks_holder state1).
    { unfold state1. destruct (Msg.bomb_holder_id m) as [holder |]; [| done].
      destruct Hinv as [Hkeys _]. cbn. split.
      - intros kg' (kg & -> & Hin)%list_elem_of_fmap. cbn. by apply Hkeys.
      - intros kg' (kg & -> & Hin)%list_elem_of_fmap. cbn.
        intros Hb%bool_decide_eq_true. by rewrite <- Hb. }
    destruct (Msg.eliminated_players m) as [newEliminated |].
    + destruct (_ && _ && _); destruct (Msg.bomb_timer m); cbn; exact H1.
    + destruct (Msg.bomb_timer m); cbn; exact H1.
  - unfold TagBomb.handlePlayerDisconnected.
    destruct (bool_decide (p = currentPlayerId)); [done |].
    destruct (Js.includes _ _); [done |]. cbn zeta.
    destruct (_ && _); [destruct (TagBomb.remainingPlayers _ _) |]; exact Hinv.
Qed.

Lemma forEach_from_invariant {A S} (P : S → Prop) (f : S → A → nat → S) (l : list A)
    (k : nat) (s : S) :
  P s → (∀ s a i, P s → P (f s a i)) → P (Js.forEach_from f l k s).
Proof.
  intros Hs Hstep. revert k s Hs. induction l as [| a l IH]; intros k s Hs; [done |].
  cbn. apply IH. by apply Hstep.
Qed.

Lemma start_marks (H : Js.Host) (players : list Player) (gameSessionId : string)
    (now : Q) (st : TagBomb.GameState) :
  NoDup (Player.id <$> players) →
  TagBomb.start H players gameSessionId now = TagBomb.Running st →
  (∀ kg, kg ∈ TagBomb.ghosts st → Ghost.id kg.2 = kg.1)
  ∧ TagBomb.bomb_marks_holder st.
Proof.
  intros Hnd Hstart.
  destruct (start_of_roster H players gameSessionId now st Hnd Hstart) as (Hroster & _ & _).
  assert (Hkeys : ∀ kg, kg ∈ TagBomb.ghosts st → Ghost.id kg.2 = kg.1).
  { intros kg Hin. unfold TagBomb.ghosts_of_roster in Hroster.
    apply list_elem_of_lookup_1 in Hin as [i Hi].
    destruct (Forall2_lookup_r _ _ _ _ _ Hroster Hi) as (p & _ & Hk & Hid & _).
    by rewrite Hk, Hid. }
  split; [done |].
  unfold TagBomb.start in Hstart.
  destruct (length players <? 2)%nat; [done |].
  destruct (selectBySeed H Player.id gameSessionId players) as [holder |]; [| done].
  injection Hstart as <-. cbn in *.
  intros kg' (kg & Hin & ->)%Map_modify_elem.
  destruct (decide (kg.1 = Player.id holder)) as [Ek | Ek]; cbn.
  - intros _. f_equal. rewrite <- Ek. symmetry.
    apply (Hkeys (kg.1, Ghost.set_hasBomb true kg.2)).
    apply list_elem_of_fmap. exists kg. split; [| done].
    by destruct (decide (kg.1 = Player.id holder)).
  - intros Hb. exfalso. revert kg Hin Hb Ek. unfold TagBomb.initGhosts, Js.forEach_i.
    apply (forEach_from_invariant
             (λ m : Js.Map Ghost, ∀ kg, kg ∈ m → Ghost.hasBomb kg.2 = true → _ → False)).
    + by intros kg ?%elem_of_nil.
    + intros m p i Hm kg [-> | Hin]%Map_set_elem; [done | by apply Hm].
Qed.

(** X11.  In the bomb game of a client, from the mounting effect on and
    through every frame, relayed game state and disconnect notice, an
    entity that shows the bomb is the one [bombHolderId] names: the loop
    and these handlers never leave a second bomb on the board.  (The
    positions and flags relayed by [player-state-changed] are not part of
    these events.) *)
Theorem bomb_flag_follows_holder (H : Js.Host) (players : list Player)
    (currentPlayerId gameSessionId : string) (now lastTime : Q)
    (st : TagBomb.GameState) (events : list TagBomb.Event) :
  NoDup (Player.id <$> players) →
  TagBomb.start H players gameSessionId now = TagBomb.Running st →
  TagBomb.bomb_marks_holder
    (TagBomb.handleAll H players currentPlayerId gameSessionId events (lastTime, st)).1.2.
Proof.
  intros Hnd Hstart.
  pose proof (start_marks H players gameSessionId now st Hnd Hstart) as Hinv.
  change st with (lastTime, st).2 in Hinv.
  generalize dependent (lastTime, st). clear Hstart.
  induction events as [| e events IH]; intros c Hinv; [by destruct Hinv |].
  cbn [TagBomb.handleAll].
  specialize (IH _ (handle_marks H players currentPlayerId gameSessionId e c Hinv)).
  by destruct (TagBomb.handleAll H players currentPlayerId gameSessionId events _).
Qed.

Lemma bomb_flag_follows_holder_witness :
  TagBomb.bomb_marks_holder
    (TagBomb.handleAll Sample.host Sample.roster3 "p1" "s1"
       [TagBomb.Tick (Sample.bomb_frame 16 1000); TagBomb.PlayerGone "p2";
        TagBomb.Tick (Sample.bomb_frame 32 40000)]
       (0%Q, match TagBomb.start Sample.host Sample.roster3 "s1" 1000 with
             | TagBomb.Running st => st
             | _ => Sample.bomb_last_two
             end)).1.2.
Proof.
  apply (bomb_flag_follows_holder Sample.host Sample.roster3 "p1" "s1" 1000 0).
  - apply (bool_decide_unpack _). by vm_compute.
  - by vm_compute.
Defined.

Lemma remaining_modify_ids (k : string) (b : bool) (ghosts : Js.Map Ghost)
    (eliminated : list string) :
  Ghost.id <$> TagBomb.remainingPlayers (Js.Map_modify k (Ghost.set_hasBomb b) ghosts)
                 eliminated
  = Ghost.id <$> TagBomb.remainingPlayers ghosts eliminated.
Proof.
  unfold TagBomb.remainingPlayers, Js.Map_values, Js.Map_modify.
  induction ghosts as [| [k' g] ghosts IH]; [done |].
  rewrite !fmap_cons, !filter_cons. cbn [fst snd].
  destruct (decide (k' = k)); cbn [fst snd Ghost.id Ghost.set_hasBomb];
    destruct (decide (Js.includes eliminated (Ghost.id g) = false));
    rewrite ?fmap_cons; cbn [Ghost.id Ghost.set_hasBomb]; by rewrite IH.
Qed.

Lemma selectBySeed_Some {A} (H : Js.Host) (key : A → string) (text : string)
    (participants : list A) :
  participants ≠ [] → ∃ a, a ∈ participants ∧ selectBySeed H key text participants = Some a.
Proof.
  intros Hne. unfold selectBySeed.
  set (sorted := Js.sort _ participants).
  assert (Hs : sorted ≠ []).
  { intros Hnil. apply Hne. apply length_zero_iff_nil.
    rewrite <- (sort_length (λ a b, Js.localeCompare H (key a) (key b))).
    fold sorted. by rewrite Hnil. }
  destruct (nth_rem_Some sorted (simpleHash text) (simpleHash_nonneg text) Hs)
    as (a & Hin & Hnth).
  exists a. split; [| done].
  unfold sorted in Hin. by rewrite sort_perm in Hin.
Qed.

(** X12.  When the bomb goes off, its holder is appended to the
    elimination list.  The explosion hands a ranking over exactly when a
    single entity is left and the game was not completed before;
    otherwise, as long as somebody is left, the bomb goes to one of those
    left, the clock of the bomb restarts and the pass cooldown is zero. *)
Theorem explosion_hands_bomb_to_survivor (H : Js.Host) (players : list Player)
    (gameSessionId : string) (f : TagBomb.Frame) (state : TagBomb.GameState)
    (h : string) :
  TagBomb.bombHolderId state = Some h → h ≠ EmptyString →
  (TagBomb.bombTimer state <= 0)%Q →
  let r := TagBomb.explode H players gameSessionId f state in
  let survivors :=
    Ghost.id <$> TagBomb.remainingPlayers (TagBomb.ghosts state)
                   (TagBomb.eliminatedPlayers state ++ [h]) in
  TagBomb.eliminatedPlayers (next r) = TagBomb.eliminatedPlayers state ++ [h]
  ∧ (finished_with r ≠ None
     ↔ length survivors = 1%nat ∧ TagBomb.gameCompleted state = false)
  ∧ (finished_with r = None → survivors ≠ [] →
       ∃ i, i ∈ survivors ∧ TagBomb.bombHolderId (next r) = Some i
            ∧ TagBomb.lastBombPassTime (next r) = TagBomb.now_reselect f
            ∧ TagBomb.bombPassCooldown (next r) = 0%Q).
Proof.
  intros Hh Hne Htimer. cbn zeta. unfold TagBomb.explode. rewrite Hh.
  apply Qleb_true in Htimer. rewrite Htimer.
  rewrite (bool_decide_eq_false_2 _ Hne). cbn [negb andb]. cbn zeta.
  cbn [TagBomb.eliminatedPlayers TagBomb.ghosts TagBomb.gameCompleted
       TagBomb.set_ghosts TagBomb.set_eliminatedPlayers].
  pose proof (remaining_modify_ids h false (TagBomb.ghosts state)
                (TagBomb.eliminatedPlayers state ++ [h])) as Hids.
  set (remaining := TagBomb.remainingPlayers
                      (Js.Map_modify h (Ghost.set_hasBomb false) (TagBomb.ghosts state))
                      (TagBomb.eliminatedPlayers state ++ [h])) in *.
  rewrite <- Hids. rewrite length_fmap.
  assert (Hreselect :
    remaining ≠ [] →
    ∃ g, g ∈ remaining
         ∧ selectBySeed H Ghost.id
             (gameSessionId +:+ pretty (length (TagBomb.eliminatedPlayers state ++ [h])))
             remaining = Some g).
  { apply selectBySeed_Some. }
  destruct (length remaining =? 1)%nat eqn:Elen.
  - apply Nat.eqb_eq in Elen. destruct (TagBomb.gameCompleted state) eqn:Ec; cbn [negb andb].
    + destruct (0 <? length remaining)%nat eqn:Epos; [| apply Nat.ltb_ge in Epos; lia].
      destruct Hreselect as (g & Hin & ->); [by destruct remaining |].
      cbn. split_and!; [done | split; [done | by intros [_ ?]] |].
      intros _ _. exists (Ghost.id g). split_and!; try done.
      apply list_elem_of_fmap. by exists g.
    + destruct remaining as [| winner rest]; [done |].
      cbn. split_and!; [done | by split | done].
  - apply Nat.eqb_neq in Elen. cbn [andb].
    destruct (0 <? length remaining)%nat eqn:Epos.
    + destruct Hreselect as (g & Hin & ->); [by destruct remaining |].
      cbn. split_and!; [done | split; [done | by intros [? _]] |].
      intros _ _. exists (Ghost.id g). split_and!; try done.
      apply list_elem_of_fmap. by exists g.
    + apply Nat.ltb_ge in Epos. cbn. split_and!; [done | split; [done | by intros [? _]] |].
      intros _ Hsome. destruct remaining; [done | cbn in Epos; lia].
Qed.

Lemma explosion_hands_bomb_to_survivor_witness :
  let state :=
    {| TagBomb.ghosts := TagBomb.initGhosts Sample.host Sample.roster4;
       TagBomb.bombHolderId := Some "p4"; TagBomb.bombTimer := 0;
       TagBomb.eliminatedPlayers := ["p3"]; TagBomb.gameStartTime := 1000;
       TagBomb.bombPassCooldown := 0; TagBomb.lastBombPassTime := 1000;
       TagBomb.gameCompleted := false |} in
  TagBomb.eliminatedPlayers
    (next (TagBomb.explode Sample.host Sample.roster4 "s1" (Sample.bomb_frame 2016 31000)
             state)) = ["p3"; "p4"].
Proof.
  intros state.
  apply (explosion_hands_bomb_to_survivor Sample.host Sample.roster4 "s1"
           (Sample.bomb_frame 2016 31000) state "p4"); by vm_compute.
Defined.

(** X13.  A disconnect notice is acted on once: the notice about the
    local player is ignored, the notice about another player lists that
    player as eliminated, and the same notice arriving again changes
    nothing, publishes nothing and hands nothing over. *)
Theorem disconnect_notice_handled_once (players : list Player)
    (currentPlayerId playerId : string) (state : TagBomb.GameState) :
  let first := TagBomb.handlePlayerDisconnected players currentPlayerId playerId state in
  let second :=
    TagBomb.handlePlayerDisconnected players currentPlayerId playerId (next first) in
  (playerId = currentPlayerId ∧ next first = state ∧ published first = []
   ∨ playerId ≠ currentPlayerId ∧ playerId ∈ TagBomb.eliminatedPlayers (next first))
  ∧ next second = next first ∧ published second = [] ∧ finished_with second = None.
Proof.
  cbn zeta.
  destruct (decide (playerId = currentPlayerId)) as [Eself | Eself].
  { assert (Hself : ∀ st, TagBomb.handlePlayerDisconnected players currentPlayerId
                            playerId st
                          = {| next := st; published := []; finished_with := None |}).
    { intros st. unfold TagBomb.handlePlayerDisconnected.
      by rewrite (bool_decide_eq_true_2 _ Eself). }
    rewrite !Hself. cbn. split; [left; by split_and! | by split_and!]. }
  assert (Hin : playerId ∈ TagBomb.eliminatedPlayers
                  (next (TagBomb.handlePlayerDisconnected players currentPlayerId
                           playerId state))).
  { unfold TagBomb.handlePlayerDisconnected. rewrite (bool_decide_eq_false_2 _ Eself).
    destruct (Js.includes (TagBomb.eliminatedPlayers state) playerId) eqn:Ein.
    - by apply includes_true in Ein.
    - cbn zeta. destruct (_ && _); [destruct (TagBomb.remainingPlayers _ _) |]; cbn;
        apply elem_of_app; right; by apply list_elem_of_singleton. }
  split; [by right |].
  apply includes_true in Hin.
  set (first := TagBomb.handlePlayerDisconnected players currentPlayerId playerId state)
    in *.
  unfold TagBomb.handlePlayerDisconnected.
  by rewrite (bool_decide_eq_false_2 _ Eself), Hin.
Qed.

(** ** The scoreboard *)

Section SortByKey.
Context {A : Type} (cmp : A → A → Z) (key : A → Z).
Hypothesis cmp_key : ∀ a b, cmp a b ≤ 0 ↔ key a ≤ key b.

Lemma insert_sorted_same_key (x : A) (l : list A) (k : Z) :
  filter (λ a, key a = k) (Js.insert_sorted cmp x l) = filter (λ a, key a = k) (x :: l).
Proof.
  induction l as [| y l IH]; [done |]. cbn [Js.insert_sorted].
  destruct (Z.leb_spec (cmp x y) 0) as [Hxy | Hxy]; [done |].
  rewrite filter_cons, IH, !filter_cons.
  destruct (decide (key y = k)) as [Hy | Hy]; [| done].
  destruct (decide (key x = k)) as [Hx | Hx]; [| done].
  exfalso. assert (cmp x y ≤ 0) by (apply cmp_key; lia). lia.
Qed.

Lemma sort_same_key (l : list A) (k : Z) :
  filter (λ a, key a = k) (Js.sort cmp l) = filter (λ a, key a = k) l.
Proof.
  induction l as [| x l IH]; [done |]. unfold Js.sort in *. cbn [foldr].
  by rewrite insert_sorted_same_key, !filter_cons, IH.
Qed.

Lemma sort_by_key (l : list A) :
  StronglySorted (λ a b, key a ≤ key b) (Js.sort cmp l).
Proof.
  assert (Hs : StronglySorted (λ a b, cmp a b ≤ 0) (Js.sort cmp l)).
  { apply (sort_StronglySorted cmp (λ _, True)).
    - intros a b _ _. rewrite !cmp_key. lia.
    - intros a b c _ _ _. rewrite !cmp_key. lia.
    - by apply Forall_true. }
  induction Hs as [| a l' Hs IH Ha]; constructor; [done |].
  eapply Forall_impl; [exact Ha |]. intros b. by rewrite cmp_key.
Qed.
End SortByKey.

(** X14.  The scoreboard lists every player once, by total score from the
    highest down, and players with the same score in the order the server
    listed them; the results of the last game are shown by rank, from the
    first up, equal ranks in the order they were handed over. *)
Theorem scoreboard_sorts_stably (players : list Player) (lastGameResults : list GameResult) :
  ScoreboardScreen.sortedPlayers players ≡ₚ players
  ∧ StronglySorted (λ a b, Player.total_score b ≤ Player.total_score a)
      (ScoreboardScreen.sortedPlayers players)
  ∧ (∀ score, filter (λ p, Player.total_score p = score)
                (ScoreboardScreen.sortedPlayers players)
              = filter (λ p, Player.total_score p = score) players)
  ∧ ScoreboardScreen.sortedResults lastGameResults ≡ₚ lastGameResults
  ∧ StronglySorted (λ a b, GameResult.rank a ≤ GameResult.rank b)
      (ScoreboardScreen.sortedResults lastGameResults)
  ∧ (∀ rank, filter (λ r, GameResult.rank r = rank)
               (ScoreboardScreen.sortedResults lastGameResults)
             = filter (λ r, GameResult.rank r = rank) lastGameResults).
Proof.
  unfold ScoreboardScreen.sortedPlayers, ScoreboardScreen.sortedResults.
  assert (Hp : ∀ a b : Player,
            Player.total_score b - Player.total_score a ≤ 0
            ↔ - Player.total_score a ≤ - Player.total_score b) by (intros; lia).
  assert (Hr : ∀ a b : GameResult,
            GameResult.rank a - GameResult.rank b ≤ 0
            ↔ GameResult.rank a ≤ GameResult.rank b) by (intros; lia).
  split_and!.
  - apply sort_perm.
  - pose proof (sort_by_key _ (λ p, - Player.total_score p) Hp players) as Hs.
    induction Hs as [| a l Hs IH Ha]; constructor; [done |].
    eapply Forall_impl; [exact Ha |]. intros b. cbn. lia.
  - intros score.
    pose proof (sort_same_key _ (λ p, - Player.total_score p) Hp players (- score)) as Hk.
    erewrite (filter_agree (λ p, Player.total_score p = score)
                (λ p, - Player.total_score p = - score)) by (intros; lia).
    rewrite Hk. apply filter_agree. intros; lia.
  - apply sort_perm.
  - apply (sort_by_key _ GameResult.rank Hr).
  - intros rank. apply (sort_same_key _ GameResult.rank Hr).
Qed.

(** ** The falling tiles *)

Lemma splice1_in_range {A} (l : list A) (u : Q) :
  (0 <= u)%Q → (u < 1)%Q → l ≠ [] →
  ∃ a, Js.splice1 l (Js.floor_mul u (length l))
       = (Some a, delete (Z.to_nat (Js.floor_mul u (length l))) l)
       ∧ l ≡ₚ a :: delete (Z.to_nat (Js.floor_mul u (length l))) l.
Proof.
  intros Hu0 Hu1 Hl.
  assert (Hlen : (0 < length l)%nat) by (destruct l; [done | cbn; lia]).
  pose proof (floor_mul_range u (length l) Hu0 Hu1 Hlen) as Hi.
  unfold Js.splice1.
  destruct (Z.ltb_spec (Js.floor_mul u (length l)) 0) as [? | _]; [lia |].
  rewrite Z.min_l by lia.
  destruct (lookup_lt_is_Some_2 l (Z.to_nat (Js.floor_mul u (length l)))) as [a Ha];
    [lia |].
  exists a. rewrite Ha. split; [done |]. by apply delete_Permutation.
Qed.

Lemma pickLoop_picks (random : nat → Q) (turns index : nat)
    (safeTiles chosen : list FallingTiles.Tile) :
  (∀ i, (0 <= random i)%Q ∧ (random i < 1)%Q) →
  ∃ picked rest,
    FallingTiles.pickLoop turns random index safeTiles (Some <$> chosen)
    = Some <$> (chosen ++ picked)
    ∧ picked ++ rest ≡ₚ safeTiles
    ∧ length picked = (turns `min` length safeTiles)%nat.
Proof.
  intros Hrandom. revert index safeTiles chosen.
  induction turns as [| turns IH]; intros index safeTiles chosen.
  { exists [], safeTiles. cbn. by rewrite app_nil_r. }
  cbn [FallingTiles.pickLoop].
  destruct safeTiles as [| t safeTiles'] eqn:Esafe.
  { exists [], []. cbn. by rewrite app_nil_r. }
  rewrite <- Esafe.
  assert (Hne : safeTiles ≠ []) by (by rewrite Esafe).
  assert (Hpos : (0 <? length safeTiles)%nat = true).
  { apply Nat.ltb_lt. rewrite Esafe. cbn. lia. }
  rewrite Hpos.
  destruct (Hrandom index) as [Hu0 Hu1].
  destruct (splice1_in_range safeTiles (random index) Hu0 Hu1 Hne) as (a & -> & Hperm).
  set (left := delete _ safeTiles) in *.
  destruct (IH (S index) left (chosen ++ [a])) as (picked & rest & Hrun & Hrest & Hlen).
  exists (a :: picked), rest.
  rewrite fmap_app in Hrun. cbn [fmap list_fmap] in Hrun.
  rewrite Hrun, <- app_assoc. split_and!; [done | |].
  - cbn. by rewrite Hrest, <- Hperm.
  - cbn [length]. rewrite Hlen. apply Permutation_length in Hperm.
    cbn [length] in Hperm. lia.
Qed.

(** X15.  With draws in [0, 1), the host marks between one and four
    tiles to fall whenever a tile is still safe: the tiles drawn are safe
    tiles of the board, none is drawn twice, and none is [undefined]. *)
Theorem falling_tiles_are_distinct_safe_tiles (random : nat → Q)
    (tiles : list FallingTiles.Tile) :
  (∀ i, (0 <= random i)%Q ∧ (random i < 1)%Q) →
  let safeTiles := filter (λ t, FallingTiles.status t = FallingTiles.safe) tiles in
  ∃ chosen rest,
    FallingTiles.chooseTiles random tiles = Some <$> chosen
    ∧ chosen ++ rest ≡ₚ safeTiles
    ∧ (length chosen ≤ 4)%nat
    ∧ (safeTiles ≠ [] → (1 ≤ length chosen)%nat).
Proof.
  intros Hrandom. cbn zeta. unfold FallingTiles.chooseTiles.
  set (safeTiles := filter _ tiles).
  destruct (0 <? length safeTiles)%nat eqn:Epos.
  2:{ exists [], safeTiles. apply Nat.ltb_ge in Epos. split_and!; try done; [cbn; lia |].
      intros Hne. destruct safeTiles; [done | cbn in Epos; lia]. }
  apply Nat.ltb_lt in Epos.
  set (count := Z.min 4 (Z.max 1 (Js.floor_mul (random 0%nat) 4 + 1))).
  assert (Hcount : 1 ≤ count ≤ 4) by (unfold count; lia).
  destruct (pickLoop_picks (λ i, random (S i)) (Z.to_nat count) 0 safeTiles [])
    as (picked & rest & Hrun & Hrest & Hlen); [by intros i |].
  exists picked, rest. split_and!; [exact Hrun | done | lia | lia].
Qed.

Lemma falling_tiles_are_distinct_safe_tiles_witness :
  ∃ chosen rest,
    FallingTiles.chooseTiles (λ _, (1 # 2)%Q)
      [ {| FallingTiles.id := "0-0"; FallingTiles.x := 8; FallingTiles.y := 68;
           FallingTiles.size := 74; FallingTiles.status := FallingTiles.safe;
           FallingTiles.warnStart := None |};
        {| FallingTiles.id := "0-1"; FallingTiles.x := 86; FallingTiles.y := 68;
           FallingTiles.size := 74; FallingTiles.status := FallingTiles.fallen;
           FallingTiles.warnStart := None |};
        {| FallingTiles.id := "0-2"; FallingTiles.x := 164; FallingTiles.y := 68;
           FallingTiles.size := 74; FallingTiles.status := FallingTiles.safe;
           FallingTiles.warnStart := None |} ]
    = Some <$> chosen
    ∧ chosen ++ rest
      ≡ₚ [ {| FallingTiles.id := "0-0"; FallingTiles.x := 8; FallingTiles.y := 68;
              FallingTiles.size := 74; FallingTiles.status := FallingTiles.safe;
              FallingTiles.warnStart := None |};
           {| FallingTiles.id := "0-2"; FallingTiles.x := 164; FallingTiles.y := 68;
              FallingTiles.size := 74; FallingTiles.status := FallingTiles.safe;
              FallingTiles.warnStart := None |} ]
    ∧ (length chosen ≤ 4)%nat.
Proof.
  destruct (falling_tiles_are_distinct_safe_tiles
              (λ _, (1 # 2)%Q)
              [ {| FallingTiles.id := "0-0"; FallingTiles.x := 8; FallingTiles.y := 68;
                   FallingTiles.size := 74; FallingTiles.status := FallingTiles.safe;
                   FallingTiles.warnStart := None |};
                {| FallingTiles.id := "0-1"; FallingTiles.x := 86; FallingTiles.y := 68;
                   FallingTiles.size := 74; FallingTiles.status := FallingTiles.fallen;
                   FallingTiles.warnStart := None |};
                {| FallingTiles.id := "0-2"; FallingTiles.x := 164; FallingTiles.y := 68;
                   FallingTiles.size := 74; FallingTiles.status := FallingTiles.safe;
                   FallingTiles.warnStart := None |} ])
    as (chosen & rest & Hrun & Hperm & Hlen & _).
  - intros i. by split.
  - by exists chosen, rest.
Defined.

(** ** Room codes: normalisation, creation and lookup *)

Lemma string_app_cons (x : ascii) (a b : string) : String x a +:+ b = String x (a +:+ b).
Proof. reflexivity. Qed.

Lemma string_app_assoc (a b c : string) : (a +:+ b) +:+ c = a +:+ (b +:+ c).
Proof. induction a as [| x a IH]; [done |]. by rewrite !string_app_cons, IH. Qed.

Lemma string_app_nil_r (a : string) : a +:+ EmptyString = a.
Proof. induction a as [| x a IH]; [done |]. by rewrite string_app_cons, IH. Qed.

Lemma rev_app_append (s acc : string) :
  String.rev_app s acc = String.rev s +:+ acc.
Proof.
  unfold String.rev. revert acc. induction s as [| x s IH]; intros acc; [done |].
  cbn. rewrite (IH (String x acc)), (IH (String x EmptyString)).
  by rewrite string_app_assoc.
Qed.

Lemma string_rev_cons (x : ascii) (s : string) :
  String.rev (String x s) = String.rev s +:+ String x EmptyString.
Proof. unfold String.rev at 1. cbn. apply rev_app_append. Qed.

Lemma string_rev_app (a b : string) :
  String.rev (a +:+ b) = String.rev b +:+ String.rev a.
Proof.
  induction a as [| x a IH].
  - change (EmptyString +:+ b) with b. change (String.rev EmptyString) with EmptyString.
    by rewrite string_app_nil_r.
  - by rewrite string_app_cons, !string_rev_cons, IH, string_app_assoc.
Qed.

Lemma string_rev_involutive (s : string) : String.rev (String.rev s) = s.
Proof.
  induction s as [| x s IH]; [done |].
  by rewrite string_rev_cons, string_rev_app, IH.
Qed.

Lemma trimStart_no_leading_space (s : string) : Js.no_leading_space (Js.trimStart s).
Proof.
  induction s as [| x s IH]; [done |]. cbn.
  by destruct (Js.is_space x) eqn:E.
Qed.

Lemma trimStart_suffix (s : string) : ∃ sp, s = sp +:+ Js.trimStart s.
Proof.
  induction s as [| x s [sp IH]]; [by exists EmptyString |]. cbn [Js.trimStart].
  destruct (Js.is_space x).
  - exists (String x sp). by rewrite string_app_cons, <- IH.
  - by exists EmptyString.
Qed.

Lemma trimStart_fixed (s : string) : Js.no_leading_space s → Js.trimStart s = s.
Proof. destruct s as [| x s]; [done |]. cbn. by intros ->. Qed.

Lemma trim_trimmed (s : string) : Js.trimmed (Js.trim s).
Proof.
  unfold Js.trimmed, Js.trim. rewrite string_rev_involutive.
  split; [| apply trimStart_no_leading_space].
  destruct (trimStart_suffix (String.rev (Js.trimStart s))) as [sp Hsp].
  set (u := Js.trimStart (String.rev (Js.trimStart s))) in *.
  apply (f_equal String.rev) in Hsp.
  rewrite string_rev_involutive, string_rev_app in Hsp.
  pose proof (trimStart_no_leading_space s) as Ht. rewrite Hsp in Ht.
  by destruct (String.rev u).
Qed.

Lemma trim_fixed (s : string) : Js.trimmed s → Js.trim s = s.
Proof.
  intros [Hs Hr]. unfold Js.trim.
  by rewrite (trimStart_fixed s Hs), (trimStart_fixed _ Hr), string_rev_involutive.
Qed.

Lemma upper_char_space (c : ascii) : Js.is_space (Js.upper_char c) = Js.is_space c.
Proof. by destruct c as [[] [] [] [] [] [] [] []]. Qed.

Lemma upper_char_idem (c : ascii) : Js.upper_char (Js.upper_char c) = Js.upper_char c.
Proof. by destruct c as [[] [] [] [] [] [] [] []]. Qed.

(** No character has the sharp s as its capital. *)
Lemma upper_char_sharp_s (c : ascii) :
  c ≠ Js.sharp_s → Ascii.eqb (Js.upper_char c) Js.sharp_s = false.
Proof.
  destruct c as [[] [] [] [] [] [] [] []]; intros Hc;
    first [reflexivity | by destruct Hc].
Qed.

(** One step of [toUpperCase]: the capital of the first character, one or
    two characters long, in front of the rest. *)
Lemma toUpperCase_cons (c : ascii) (s : string) :
  Js.toUpperCase (String c s) = Js.toUpperCase (String c EmptyString) +:+ Js.toUpperCase s.
Proof. cbn [Js.toUpperCase]. by destruct (Ascii.eqb c Js.sharp_s). Qed.

Lemma upper_first_rev (c : ascii) :
  String.rev (Js.toUpperCase (String c EmptyString)) = Js.toUpperCase (String c EmptyString).
Proof. cbn [Js.toUpperCase]. by destruct (Ascii.eqb c Js.sharp_s). Qed.

Lemma upper_first_idem (c : ascii) :
  Js.toUpperCase (Js.toUpperCase (String c EmptyString))
  = Js.toUpperCase (String c EmptyString).
Proof.
  cbn [Js.toUpperCase].
  destruct (Ascii.eqb_spec c Js.sharp_s) as [-> | Hc]; [done |].
  cbn [Js.toUpperCase]. by rewrite (upper_char_sharp_s c Hc), upper_char_idem.
Qed.

Lemma upper_first_no_space (c : ascii) (s : string) :
  Js.is_space c = false →
  Js.no_leading_space (Js.toUpperCase (String c EmptyString) +:+ s).
Proof.
  intros Hc. cbn [Js.toUpperCase].
  destruct (Ascii.eqb c Js.sharp_s); [done |].
  rewrite string_app_cons. cbn [Js.no_leading_space]. by rewrite upper_char_space.
Qed.

Lemma toUpperCase_app (a b : string) :
  Js.toUpperCase (a +:+ b) = Js.toUpperCase a +:+ Js.toUpperCase b.
Proof.
  induction a as [| x a IH]; [done |].
  by rewrite string_app_cons, (toUpperCase_cons x (a +:+ b)), (toUpperCase_cons x a), IH,
    string_app_assoc.
Qed.

Lemma toUpperCase_rev (s : string) :
  Js.toUpperCase (String.rev s) = String.rev (Js.toUpperCase s).
Proof.
  induction s as [| x s IH]; [done |].
  rewrite string_rev_cons, toUpperCase_app, IH, (toUpperCase_cons x s), string_rev_app.
  by rewrite upper_first_rev.
Qed.

Lemma toUpperCase_idem (s : string) :
  Js.toUpperCase (Js.toUpperCase s) = Js.toUpperCase s.
Proof.
  induction s as [| x s IH]; [done |].
  by rewrite (toUpperCase_cons x s), toUpperCase_app, upper_first_idem, IH.
Qed.

Lemma toUpperCase_trimmed (s : string) : Js.trimmed s → Js.trimmed (Js.toUpperCase s).
Proof.
  assert (Hn : ∀ t, Js.no_leading_space t → Js.no_leading_space (Js.toUpperCase t)).
  { intros [| x t]; [done |]. rewrite toUpperCase_cons. apply upper_first_no_space. }
  intros [Hs Hr]. split; [by apply Hn |].
  rewrite <- toUpperCase_rev. by apply Hn.
Qed.

(** [UPPER] leaves what [toUpperCase] has returned. *)
Lemma sql_upper_app (a b : string) :
  Server.sql_upper (a +:+ b) = Server.sql_upper a +:+ Server.sql_upper b.
Proof.
  induction a as [| x a IH]; [done |].
  rewrite string_app_cons. cbn [Server.sql_upper]. by rewrite string_app_cons, IH.
Qed.

Lemma sql_upper_toUpperCase (s : string) :
  Server.sql_upper (Js.toUpperCase s) = Js.toUpperCase s.
Proof.
  induction s as [| x s IH]; [done |].
  rewrite (toUpperCase_cons x s), sql_upper_app, IH. f_equal.
  cbn [Js.toUpperCase].
  destruct (Ascii.eqb x Js.sharp_s); [done |].
  cbn [Server.sql_upper]. by rewrite upper_char_idem.
Qed.

Lemma sql_trim_fixed (s : string) : Js.trimmed s → Server.sql_trim s = s.
Proof.
  assert (Hn : ∀ t, Js.no_leading_space t → Server.sql_ltrim t = t).
  { intros [| x t]; [done |]. cbn. intros Hx.
    destruct (Ascii.eqb_spec x " ") as [-> | _]; [done | done]. }
  intros [Hs Hr]. unfold Server.sql_trim.
  by rewrite (Hn s Hs), (Hn _ Hr), string_rev_involutive.
Qed.

Lemma normalise_trimmed (s : string) : Js.trimmed (Js.toUpperCase (Js.trim s)).
Proof. apply toUpperCase_trimmed, trim_trimmed. Qed.

Lemma normalise_idem (s : string) :
  Js.toUpperCase (Js.trim (Js.toUpperCase (Js.trim s))) = Js.toUpperCase (Js.trim s).
Proof. by rewrite (trim_fixed _ (normalise_trimmed s)), toUpperCase_idem. Qed.

Lemma sql_normalise (s : string) :
  Server.sql_upper (Server.sql_trim (Js.toUpperCase (Js.trim s)))
  = Js.toUpperCase (Js.trim s).
Proof.
  by rewrite (sql_trim_fixed _ (normalise_trimmed s)), sql_upper_toUpperCase.
Qed.

Lemma get_room_normalised (q : string) (db : Server.Db) :
  Server.codes_normalised db →
  Server.get_room q db
  = if bool_decide (String.length (Js.trim q) = 0%nat) then Server.Error 400
    else match Server.select_where Room.room_code (Js.toUpperCase (Js.trim q))
                 (Server.rooms db) with
         | [] => Server.Error 404
         | r :: _ => Server.Ok r
         end.
Proof.
  intros Hdb. unfold Server.get_room, Server.select_where.
  destruct (bool_decide _); [done |]. cbn zeta.
  rewrite (filter_agree _ (λ r, Room.room_code r = Js.toUpperCase (Js.trim q))); [done |].
  intros r Hr. rewrite sql_normalise.
  unfold Server.codes_normalised in Hdb. rewrite Forall_forall in Hdb.
  specialize (Hdb r Hr). rewrite <- Hdb at 1. by rewrite sql_normalise, Hdb.
Qed.

Lemma trim_length_normalised (s : string) :
  String.length (Js.trim s) = 0%nat ↔ Js.toUpperCase (Js.trim s) = EmptyString.
Proof.
  split.
  - intros Hlen. by destruct (Js.trim s).
  - intros Hn. apply (proj1 (toUpperCase_empty _)) in Hn. by rewrite Hn.
Qed.

Lemma post_room_found (host_name : string) (min_players max_games : Z)
    (room_code new_id : string) (db db' : Server.Db) (r : Room) :
  Server.codes_normalised db →
  Server.post_room host_name min_players max_games room_code new_id db
  = (db', Server.Ok r) →
  Server.codes_normalised db'
  ∧ Room.status r = waiting
  ∧ Room.room_code r = Js.toUpperCase (Js.trim room_code)
  ∧ Room.id r = new_id
  ∧ Server.rooms db' = Server.rooms db ++ [r]
  ∧ ∀ q, Server.get_room q db'
         = if decide (Js.toUpperCase (Js.trim q) = Room.room_code r)
           then Server.Ok r else Server.get_room q db.
Proof.
  intros Hdb Hpost. unfold Server.post_room in Hpost.
  destruct (_ || _) eqn:Eblank; [done |].
  apply orb_false_iff in Eblank as [_ Eblank]. apply Nat.eqb_neq in Eblank.
  destruct (negb _); [done |].
  destruct (negb (bool_decide _) || _) eqn:Edup; [done |].
  apply orb_false_iff in Edup as [Ecode _].
  apply negb_false_iff, bool_decide_eq_true in Ecode.
  injection Hpost as <- <-. cbn [Room.status Room.room_code Room.id Server.rooms
                                  Server.set_rooms].
  assert (Hdb' : Server.codes_normalised
                   (Server.set_rooms
                      (Server.rooms db
                       ++ [ {| Room.id := new_id;
                               Room.room_code := Js.toUpperCase (Js.trim room_code);
                               Room.host_name := host_name;
                               Room.min_players := min_players;
                               Room.max_games := max_games;
                               Room.status := waiting |} ]) db)).
  { unfold Server.codes_normalised. cbn. apply Forall_app. split; [exact Hdb |].
    apply Forall_singleton. cbn. apply normalise_idem. }
  split_and!; try done.
  intros q. rewrite !get_room_normalised by done.
  destruct (bool_decide (String.length (Js.trim q) = 0%nat)) eqn:Eq.
  { apply bool_decide_eq_true in Eq. destruct (decide _) as [Heq | _]; [| done].
    exfalso. apply Eblank. apply trim_length_normalised. rewrite <- Heq.
    by apply trim_length_normalised. }
  cbn [Server.rooms Server.set_rooms]. unfold Server.select_where in *.
  rewrite filter_app, filter_cons, filter_nil. cbn [Room.room_code].
  destruct (decide (Js.toUpperCase (Js.trim room_code) = Js.toUpperCase (Js.trim q)))
    as [Heq | Hne].
  - rewrite <- Heq, Ecode. cbn. by rewrite decide_True.
  - rewrite app_nil_r. by rewrite decide_False by done.
Qed.

(** X16.  A room that [POST /api/rooms] has stored is waiting, carries
    the code trimmed and in upper case, and is the room
    [GET /api/rooms/:roomCode] answers with for every spelling of that
    code, that is for every text that [trim] and [toUpperCase] take to it:
    whatever its case and the white space around it, and with a sharp s
    for [SS]; the lookup of any other code answers as before.  The stored
    codes stay trimmed and in upper case. *)
Theorem created_room_is_found_by_code (host_name : string) (min_players max_games : Z)
    (room_code new_id : string) (db db' : Server.Db) (r : Room) :
  Server.codes_normalised db →
  Server.post_room host_name min_players max_games room_code new_id db
  = (db', Server.Ok r) →
  Server.codes_normalised db'
  ∧ Room.status r = waiting
  ∧ Room.room_code r = Js.toUpperCase (Js.trim room_code)
  ∧ Room.id r = new_id
  ∧ Server.rooms db' = Server.rooms db ++ [r]
  ∧ ∀ q, Server.get_room q db'
         = if decide (Js.toUpperCase (Js.trim q) = Room.room_code r)
           then Server.Ok r else Server.get_room q db.
Proof. apply post_room_found. Qed.

Lemma created_room_is_found_by_code_witness :
  let created := (Server.post_room "Cy" 2 3 " abcdss " "r3" Sample.db_waiting).1 in
  let room := {| Room.id := "r3"; Room.room_code := "ABCDSS";
                 Room.host_name := "Cy"; Room.min_players := 2;
                 Room.max_games := 3; Room.status := waiting |} in
  Server.codes_normalised created
  ∧ Server.get_room "Abcdss " created = Server.Ok room
  ∧ Server.get_room Sample.code_sharp_s created = Server.Ok room
  ∧ Server.get_room "abcdef" created = Server.Ok Sample.room_waiting.
Proof.
  cbn zeta.
  destruct (created_room_is_found_by_code "Cy" 2 3 " abcdss " "r3" Sample.db_waiting
              (Server.post_room "Cy" 2 3 " abcdss " "r3" Sample.db_waiting).1
              {| Room.id := "r3"; Room.room_code := "ABCDSS";
                 Room.host_name := "Cy"; Room.min_players := 2;
                 Room.max_games := 3; Room.status := waiting |})
    as (Hnorm & _ & _ & _ & _ & Hfind).
  - repeat constructor.
  - reflexivity.
  - split_and!; [exact Hnorm | exact (Hfind "Abcdss ") | exact (Hfind Sample.code_sharp_s) |].
    rewrite (Hfind "abcdef"). reflexivity.
Defined.

Lemma createRoom_run (hostName : string) (minPlayers maxGames : Z) (random : nat → Q)
    (room_id player_id : string) (w : Api.World) :
  RoomManager.createRoom hostName minPlayers maxGames random room_id player_id w =
  match Server.post_room hostName minPlayers maxGames
          (RoomManager.generateRoomCode random) room_id (Api.db w) with
  | (db1, Server.Ok room) =>
      match Server.post_player (Room.id room) hostName
              (Js.nth RoomManager.palette
                 (Js.floor_mul (random 6%nat) (length RoomManager.palette)))
              player_id db1 with
      | (db2, Server.Ok player) =>
          ({| Api.db := db2;
              Api.requests := (Api.requests w ++ [("POST", "/api/rooms")])
                              ++ [("POST", "/api/players")] |},
           Some (Some (room, player)))
      | (db2, Server.Error _) =>
          ({| Api.db := db2;
              Api.requests := (Api.requests w ++ [("POST", "/api/rooms")])
                              ++ [("POST", "/api/players")] |},
           Some None)
      end
  | (db1, Server.Error _) =>
      ({| Api.db := db1; Api.requests := Api.requests w ++ [("POST", "/api/rooms")] |},
       Some None)
  end.
Proof.
  unfold RoomManager.createRoom, Api.try_catch, mbind, Api_bind, Api.bind, mret, Api_ret,
    Api.ret, Api.rooms_create, Api.players_create, Api.request.
  cbv zeta. cbn [Api.db Api.requests].
  destruct (Server.post_room _ _ _ _ _ _) as [db1 [room | e]]; cbn [Api.db Api.requests];
    [| done].
  by destruct (Server.post_player _ _ _ _ _) as [db2 [player | e]].
Qed.

Lemma select_where_app {A} (key : A → string) (k : string) (l1 l2 : list A) :
  Server.select_where key k (l1 ++ l2)
  = Server.select_where key k l1 ++ Server.select_where key k l2.
Proof. unfold Server.select_where. apply filter_app. Qed.

Lemma get_room_rooms (q : string) (db db' : Server.Db) :
  Server.rooms db' = Server.rooms db → Server.get_room q db' = Server.get_room q db.
Proof. intros Hr. unfold Server.get_room. by rewrite Hr. Qed.

Lemma palette_pick (used : string) (u : Q) :
  (0 <= u)%Q → (u < 1)%Q →
  let availableColors := filter (λ color, color ∉ [used]) RoomManager.palette in
  (length availableColors =? 0)%nat = false
  ∧ ∃ c, Js.nth availableColors (Js.floor_mul u (length availableColors)) = Some c
         ∧ c ≠ used ∧ c ∈ RoomManager.palette.
Proof.
  intros Hu0 Hu1. cbn zeta.
  set (availableColors := filter _ RoomManager.palette).
  assert (Hpos : (0 < length availableColors)%nat).
  { destruct (decide (used = "blue")) as [-> | Hne].
    - assert (Hin : "purple" ∈ availableColors).
      { apply list_elem_of_filter. split; [| by vm_compute; right; left].
        by intros ?%list_elem_of_singleton. }
      destruct availableColors; [by apply elem_of_nil in Hin | cbn; lia].
    - assert (Hin : "blue" ∈ availableColors).
      { apply list_elem_of_filter. split; [| by left].
        intros ?%list_elem_of_singleton. by apply Hne. }
      destruct availableColors; [by apply elem_of_nil in Hin | cbn; lia]. }
  split; [apply Nat.eqb_neq; lia |].
  pose proof (floor_mul_range u (length availableColors) Hu0 Hu1 Hpos) as Hi.
  unfold Js.nth. destruct (Z.ltb_spec (Js.floor_mul u (length availableColors)) 0); [lia |].
  destruct (lookup_lt_is_Some_2 availableColors
              (Z.to_nat (Js.floor_mul u (length availableColors)))) as [c Hc]; [lia |].
  exists c. split; [done |].
  apply list_elem_of_lookup_2 in Hc. apply list_elem_of_filter in Hc as [Hc ?].
  split; [| done]. intros ->. apply Hc. by apply list_elem_of_singleton.
Qed.

(** X17.  A room just created can be joined by its code, however the
    joiner spells it, and the joiner gets a colour of the palette that is
    not the host's: after [createRoom] has answered with a room whose code
    has six characters, [joinRoom] with a draw in [0, 1) and a fresh key
    answers with that room and a new player, and the room then has exactly
    the host and the joiner as players.  The database is one whose room
    codes are in stored form and whose players all belong to a room. *)
Theorem joiner_gets_another_colour (hostName : string) (minPlayers maxGames : Z)
    (random : nat → Q) (room_id player_id : string) (w w1 : Api.World)
    (room : Room) (host : Player) (roomCode playerName : string) (u : Q)
    (new_id : string) :
  Server.codes_normalised (Api.db w) →
  Forall (λ p, Player.room_id p ∈ Room.id <$> Server.rooms (Api.db w))
         (Server.players (Api.db w)) →
  RoomManager.createRoom hostName minPlayers maxGames random room_id player_id w
  = (w1, Some (Some (room, host))) →
  String.length (Room.room_code room) = 6%nat →
  Js.toUpperCase (Js.trim roomCode) = Room.room_code room →
  (0 <= u)%Q → (u < 1)%Q →
  (new_id ∉ Player.id <$> Server.players (Api.db w1)) →
  ∃ w2 joiner,
    RoomManager.joinRoom roomCode playerName u new_id w1 = (w2, Some (Some (room, joiner)))
    ∧ Player.ghost_color joiner ≠ Player.ghost_color host
    ∧ Player.ghost_color joiner ∈ RoomManager.palette
    ∧ Player.player_name joiner = playerName
    ∧ Server.select_where Player.room_id (Room.id room) (Server.players (Api.db w2))
      = [host; joiner].
Proof.
  intros Hnorm Hfk Hcreate Hlen Hcode Hu0 Hu1 Hfresh.
  rewrite createRoom_run in Hcreate.
  destruct (Server.post_room _ _ _ _ _ _) as [db1 [room' | e]] eqn:Hroom; [| done].
  destruct (Server.post_player _ _ _ _ _) as [db2 [host' | e]] eqn:Hhost; [| done].
  injection Hcreate as <- <- <-. cbn [Api.db] in Hfresh.
  destruct (post_room_found _ _ _ _ _ _ _ _ Hnorm Hroom)
    as (Hnorm1 & Hstatus & Hrc & Hrid & Hrooms & Hfind).
  assert (Hnew : room_id ∉ Room.id <$> Server.rooms (Api.db w)).
  { unfold Server.post_room in Hroom.
    destruct (_ || _); [done |]. destruct (negb _); [done |].
    destruct (negb (bool_decide _) || _) eqn:Edup; [done |].
    apply orb_false_iff in Edup as [_ Eid].
    apply negb_false_iff, bool_decide_eq_true in Eid. by apply select_where_nil. }
  destruct (post_player_players _ _ _ _ _ _ _ Hhost) as (c & Hc & Hhostrec & Hdb2).
  rewrite joinRoom_run. cbn zeta. rewrite Hcode.
  assert (Hne : bool_decide (Room.room_code room' = EmptyString) = false).
  { apply bool_decide_eq_false. intros Heq. by rewrite Heq in Hlen. }
  rewrite Hne, Hlen. cbn [orb negb Nat.eqb]. cbn [Api.db].
  rewrite (get_room_rooms _ db1 db2) by (by rewrite Hdb2).
  rewrite Hfind, <- Hcode, normalise_idem, decide_True by done.
  rewrite Hstatus, bool_decide_eq_true_2 by done. cbn [negb].
  assert (Hmembers : Server.select_where Player.room_id (Room.id room') (Server.players db2)
                     = [host']).
  { rewrite Hdb2. cbn [Server.players Server.set_players]. rewrite select_where_app.
    replace (Server.players db1) with (Server.players (Api.db w)).
    2:{ unfold Server.post_room in Hroom.
        destruct (_ || _); [done |]. destruct (negb _); [done |].
        destruct (negb (bool_decide _) || _); [done |]. by injection Hroom as <- _. }
    assert (Hnone : Server.select_where Player.room_id (Room.id room')
                      (Server.players (Api.db w)) = []).
    { apply select_where_nil. rewrite Hrid. intros (p & Hp & Hin)%list_elem_of_fmap.
      rewrite Forall_forall in Hfk. apply Hnew. rewrite Hp. by apply Hfk. }
    rewrite Hnone. unfold Server.select_where. rewrite filter_cons, filter_nil.
    rewrite Hhostrec. cbn [Player.room_id]. by rewrite decide_True. }
  rewrite Hmembers. cbn [fmap list_fmap length].
  destruct (palette_pick (Player.ghost_color host') u Hu0 Hu1) as (Havail & c' & Hpick & Hc' & Hpal).
  cbn zeta in Havail. rewrite Havail. cbn [Nat.leb].
  rewrite Hpick.
  assert (Hpost : Server.post_player (Room.id room') playerName (Some c') new_id db2
                  = (Server.set_players
                       (Server.players db2
                        ++ [ {| Player.id := new_id; Player.room_id := Room.id room';
                                Player.player_name := playerName; Player.ghost_color := c';
                                Player.total_score := 0 |} ]) db2,
                     Server.Ok {| Player.id := new_id; Player.room_id := Room.id room';
                                  Player.player_name := playerName;
                                  Player.ghost_color := c'; Player.total_score := 0 |})).
  { unfold Server.post_player.
    assert (Hexists : bool_decide (Server.select_where Room.id (Room.id room')
                                     (Server.rooms db2) = []) = false).
    { apply bool_decide_eq_false. rewrite select_where_nil. intros Hnot. apply Hnot.
      rewrite Hdb2. cbn [Server.rooms Server.set_players]. rewrite Hrooms, fmap_app.
      apply elem_of_app. right. by apply list_elem_of_singleton. }
    assert (Hkey : bool_decide (Server.select_where Player.id new_id (Server.players db2)
                                = []) = true).
    { apply bool_decide_eq_true. by apply select_where_nil. }
    by rewrite Hexists, Hkey. }
  rewrite Hpost. eexists _, _. split; [reflexivity |].
  cbn [Player.ghost_color Player.player_name Api.db Server.players Server.set_players].
  split_and!; try done.
  rewrite select_where_app, Hmembers. unfold Server.select_where.
  rewrite filter_cons, filter_nil. cbn [Player.room_id]. by rewrite decide_True.
Qed.

Lemma joiner_gets_another_colour_witness :
  ∃ w2 joiner,
    RoomManager.joinRoom " ajs2aj " "Di" (1 # 2) "p4"
      (RoomManager.createRoom "Cy" 2 3 Sample.draws "r2" "p3" Sample.world).1
    = (w2, Some (Some ({| Room.id := "r2"; Room.room_code := "AJS2AJ";
                          Room.host_name := "Cy"; Room.min_players := 2;
                          Room.max_games := 3; Room.status := waiting |}, joiner)))
    ∧ Player.ghost_color joiner ≠ "yellow"
    ∧ Player.ghost_color joiner ∈ RoomManager.palette
    ∧ Player.player_name joiner = "Di"
    ∧ Server.select_where Player.room_id "r2" (Server.players (Api.db w2))
      = [ {| Player.id := "p3"; Player.room_id := "r2"; Player.player_name := "Cy";
             Player.ghost_color := "yellow"; Player.total_score := 0 |}; joiner ].
Proof.
  apply (joiner_gets_another_colour "Cy" 2 3 Sample.draws "r2" "p3" Sample.world
           (RoomManager.createRoom "Cy" 2 3 Sample.draws "r2" "p3" Sample.world).1
           {| Room.id := "r2"; Room.room_code := "AJS2AJ"; Room.host_name := "Cy";
              Room.min_players := 2; Room.max_games := 3; Room.status := waiting |}
           {| Player.id := "p3"; Player.room_id := "r2"; Player.player_name := "Cy";
              Player.ghost_color := "yellow"; Player.total_score := 0 |}
           " ajs2aj " "Di" (1 # 2) "p4").
  - repeat constructor.
  - apply (bool_decide_unpack _). by vm_compute.
  - by vm_compute.
  - reflexivity.
  - reflexivity.
  - done.
  - done.
  - apply (bool_decide_unpack _). by vm_compute.
Defined.

(** ** Game sessions: creation, order and start *)

Lemma room_sessions_elem (roomId : string) (status : option SessionStatus)
    (db : Server.Db) (g : GameSession) :
  g ∈ Server.room_sessions roomId status db
  ↔ g ∈ Server.game_sessions db ∧ GameSession.room_id g = roomId
    ∧ match status with Some st => GameSession.status g = st | None => True end.
Proof.
  unfold Server.room_sessions. rewrite sort_perm, list_elem_of_filter.
  unfold Server.session_selected. rewrite andb_true_iff, bool_decide_eq_true.
  destruct status as [st |]; [rewrite bool_decide_eq_true; tauto | tauto].
Qed.

Lemma room_sessions_sorted (roomId : string) (status : option SessionStatus)
    (db : Server.Db) :
  StronglySorted (λ a b, GameSession.game_number a ≤ GameSession.game_number b)
    (Server.room_sessions roomId status db).
Proof.
  unfold Server.room_sessions. apply (sort_by_key _ GameSession.game_number).
  intros a b. lia.
Qed.

Lemma room_sessions_head (roomId : string) (status : option SessionStatus)
    (db : Server.Db) :
  match head (Server.room_sessions roomId status db) with
  | Some g =>
      g ∈ Server.game_sessions db ∧ GameSession.room_id g = roomId
      ∧ match status with Some st => GameSession.status g = st | None => True end
      ∧ ∀ g', g' ∈ Server.game_sessions db → GameSession.room_id g' = roomId →
              match status with Some st => GameSession.status g' = st | None => True end →
              GameSession.game_number g ≤ GameSession.game_number g'
  | None =>
      ∀ g', g' ∈ Server.game_sessions db → GameSession.room_id g' = roomId →
            ¬ match status with Some st => GameSession.status g' = st | None => True end
  end.
Proof.
  pose proof (room_sessions_sorted roomId status db) as Hsorted.
  pose proof (room_sessions_elem roomId status db) as Helem.
  destruct (Server.room_sessions roomId status db) as [| g rest]; cbn.
  - intros g' Hin Hroom Hst. by apply (elem_of_nil g'), Helem.
  - destruct (proj1 (Helem g)) as (Hin & Hroom & Hst); [by left |].
    split_and!; try done.
    intros g' Hin' Hroom' Hst'.
    assert (Hg' : g' ∈ g :: rest) by (by apply Helem).
    apply StronglySorted_inv in Hsorted as [_ Hall].
    apply elem_of_cons in Hg' as [-> | Hg']; [lia |].
    rewrite Forall_forall in Hall. by apply Hall.
Qed.

Lemma getNextGame_run (roomId : string) (w : Api.World) :
  Api.db (GameManager.getNextGame roomId w).1 = Api.db w
  ∧ (GameManager.getNextGame roomId w).2
    = Some (head (Server.room_sessions roomId (Some pending) (Api.db w))).
Proof. done. Qed.

Lemma getCurrentGame_run (roomId : string) (w : Api.World) :
  Api.db (GameManager.getCurrentGame roomId w).1 = Api.db w
  ∧ (GameManager.getCurrentGame roomId w).2
    = Some (head (Server.room_sessions roomId (Some active) (Api.db w))).
Proof. done. Qed.

Lemma getAllGames_run (roomId : string) (w : Api.World) :
  Api.db (GameManager.getAllGames roomId w).1 = Api.db w
  ∧ (GameManager.getAllGames roomId w).2
    = Some (Server.room_sessions roomId None (Api.db w)).
Proof. done. Qed.

(** X18.  [getNextGame] leaves the database alone and answers with the
    pending session of the room that has the lowest game number, and with
    [null] exactly when the room has no pending session. *)
Theorem next_game_is_lowest_pending (roomId : string) (w : Api.World) :
  Api.db (GameManager.getNextGame roomId w).1 = Api.db w
  ∧ ∃ nextGame,
      (GameManager.getNextGame roomId w).2 = Some nextGame
      ∧ match nextGame with
        | Some g =>
            g ∈ Server.game_sessions (Api.db w) ∧ GameSession.room_id g = roomId
            ∧ GameSession.status g = pending
            ∧ ∀ g', g' ∈ Server.game_sessions (Api.db w) →
                    GameSession.room_id g' = roomId → GameSession.status g' = pending →
                    GameSession.game_number g ≤ GameSession.game_number g'
        | None =>
            ∀ g', g' ∈ Server.game_sessions (Api.db w) →
                  GameSession.room_id g' = roomId → GameSession.status g' ≠ pending
        end.
Proof.
  destruct (getNextGame_run roomId w) as [Hdb Hres]. split; [exact Hdb |].
  eexists. split; [exact Hres |].
  exact (room_sessions_head roomId (Some pending) (Api.db w)).
Qed.

Lemma imap_seq_self {B} (f : nat → nat → B) (n : nat) :
  imap f (seq 0 n) = (λ i, f i i) <$> seq 0 n.
Proof.
  apply list_eq. intros i. rewrite list_lookup_imap, list_lookup_fmap.
  destruct (seq 0 n !! i) as [j |] eqn:Ej; [| done].
  apply lookup_seq in Ej as [-> _]. done.
Qed.

Lemma seq_sorted (k n : nat) : Sorted (λ a b : nat, (a < b)%nat) (seq k n).
Proof.
  revert k. induction n as [| n IH]; intros k; [constructor |].
  cbn. constructor; [apply IH |]. destruct n; constructor. lia.
Qed.

Lemma available_game (u : Q) :
  (0 <= u)%Q → (u < 1)%Q →
  ∃ game, Js.nth GameManager.AVAILABLE_GAMES
            (Js.floor_mul u (length GameManager.AVAILABLE_GAMES)) = Some game
          ∧ game ∈ GameManager.AVAILABLE_GAMES.
Proof.
  intros Hu0 Hu1.
  pose proof (floor_mul_range u (length GameManager.AVAILABLE_GAMES) Hu0 Hu1) as Hi.
  specialize (Hi ltac:(cbn; lia)). unfold Js.nth.
  destruct (Z.ltb_spec (Js.floor_mul u (length GameManager.AVAILABLE_GAMES)) 0); [lia |].
  destruct (lookup_lt_is_Some_2 GameManager.AVAILABLE_GAMES
              (Z.to_nat (Js.floor_mul u (length GameManager.AVAILABLE_GAMES))))
    as [game Hgame]; [lia |].
  exists game. split; [done |]. by eapply list_elem_of_lookup_2.
Qed.

(** The rows [createGameSessions] asks the server to insert, as the server
    stores them. *)
Lemma batch_rows (roomId : string) (random : nat → Q) (new_id : nat → string) (n : nat) :
  (∀ i, (0 <= random i)%Q ∧ (random i < 1)%Q) →
  ∃ rows,
    mapM id
      (imap (λ i s, Server.session_row (new_id i) s)
         ((λ i, {| Server.new_room_id := roomId;
                   Server.new_game_type :=
                     Js.nth GameManager.AVAILABLE_GAMES
                       (Js.floor_mul (random i) (length GameManager.AVAILABLE_GAMES));
                   Server.new_game_number := Z.of_nat i + 1 |}) <$> seq 0 n))
    = Some rows
    ∧ GameSession.game_number <$> rows = (λ i, Z.of_nat i + 1) <$> seq 0 n
    ∧ GameSession.id <$> rows = new_id <$> seq 0 n
    ∧ Forall (λ g, GameSession.status g = pending ∧ GameSession.room_id g = roomId
                   ∧ GameSession.game_type g ∈ GameManager.AVAILABLE_GAMES
                   ∧ GameSession.results g = [] ∧ GameSession.started_at g = None)
             rows.
Proof.
  intros Hrandom.
  set (game i := default EmptyString
                   (Js.nth GameManager.AVAILABLE_GAMES
                      (Js.floor_mul (random i) (length GameManager.AVAILABLE_GAMES)))).
  set (row i := {| GameSession.id := new_id i; GameSession.room_id := roomId;
                   GameSession.game_type := game i;
                   GameSession.game_number := Z.of_nat i + 1;
                   GameSession.status := pending; GameSession.results := [];
                   GameSession.game_state := ∅; GameSession.started_at := None;
                   GameSession.completed_at := None |}).
  exists (row <$> seq 0 n). split_and!.
  - rewrite imap_fmap, imap_seq_self. apply mapM_Some_2.
    apply Forall2_fmap, Forall_Forall2_diag, Forall_forall. intros i _.
    destruct (Hrandom i) as [Hu0 Hu1].
    destruct (available_game (random i) Hu0 Hu1) as (g & Hg & _).
    unfold compose, id, Server.session_row.
    cbn [Server.new_game_type Server.new_room_id Server.new_game_number].
    rewrite Hg. unfold row, game. by rewrite Hg.
  - by rewrite <- list_fmap_compose.
  - by rewrite <- list_fmap_compose.
  - apply Forall_fmap, Forall_forall. intros i _. unfold compose, row.
    cbn [GameSession.status GameSession.room_id GameSession.game_type
         GameSession.results GameSession.started_at].
    split_and!; try done.
    unfold game. destruct (Hrandom i) as [Hu0 Hu1].
    destruct (available_game (random i) Hu0 Hu1) as (g & -> & Hin). done.
Qed.

Lemma createGameSessions_run (roomId : string) (maxGames : Z) (random : nat → Q)
    (new_id : nat → string) (w : Api.World) :
  GameManager.createGameSessions roomId maxGames random new_id w =
  match Server.post_game_sessions_batch
          ((λ i, {| Server.new_room_id := roomId;
                    Server.new_game_type :=
                      Js.nth GameManager.AVAILABLE_GAMES
                        (Js.floor_mul (random i) (length GameManager.AVAILABLE_GAMES));
                    Server.new_game_number := Z.of_nat i + 1 |})
             <$> seq 0 (Z.to_nat maxGames)) new_id (Api.db w) with
  | (db', Server.Ok _) =>
      ({| Api.db := db';
          Api.requests := Api.requests w ++ [("POST", "/api/game-sessions/batch")] |},
       Some true)
  | (db', Server.Error _) =>
      ({| Api.db := db';
          Api.requests := Api.requests w ++ [("POST", "/api/game-sessions/batch")] |},
       Some false)
  end.
Proof.
  unfold GameManager.createGameSessions, Api.try_catch, mbind, Api_bind, Api.bind, mret,
    Api_ret, Api.ret, Api.gameSessions_createBatch, Api.request.
  cbv zeta. by destruct (Server.post_game_sessions_batch _ _ _) as [db' [rows | e]].
Qed.

Lemma filter_all {A} (P : A → Prop) `{∀ a, Decision (P a)} (l : list A) :
  (∀ a, a ∈ l → P a) → filter P l = l.
Proof.
  induction l as [| a l IH]; intros Hall; [done |].
  rewrite filter_cons, decide_True by (apply Hall; by left).
  rewrite IH; [done |]. intros b Hb. apply Hall. by right.
Qed.

Lemma Sorted_fmap_inv {A B} (f : A → B) (R : relation B) (l : list A) :
  Sorted R (f <$> l) → Sorted (λ a b, R (f a) (f b)) l.
Proof.
  induction l as [| a l IH]; [constructor |].
  rewrite fmap_cons. intros Hs. apply Sorted_inv in Hs as [Hs Hhd].
  constructor; [by apply IH |].
  destruct l; [constructor |]. rewrite fmap_cons in Hhd.
  apply HdRel_inv in Hhd. by constructor.
Qed.

Lemma sessions_drawn (roomId : string) (maxGames : Z) (random : nat → Q)
    (new_id : nat → string) (w : Api.World) :
  roomId ∈ Room.id <$> Server.rooms (Api.db w) →
  (∀ g, g ∈ Server.game_sessions (Api.db w) → GameSession.room_id g ≠ roomId) →
  (∀ i, (0 <= random i)%Q ∧ (random i < 1)%Q) →
  NoDup ((GameSession.id <$> Server.game_sessions (Api.db w))
         ++ (new_id <$> seq 0 (Z.to_nat maxGames))) →
  let out := GameManager.createGameSessions roomId maxGames random new_id w in
  (maxGames < 1 → out.2 = Some false ∧ Api.db out.1 = Api.db w)
  ∧ (1 ≤ maxGames →
       ∃ games,
         out.2 = Some true
         ∧ Server.game_sessions (Api.db out.1)
           = Server.game_sessions (Api.db w) ++ games
         ∧ (GameManager.getAllGames roomId out.1).2 = Some games
         ∧ (GameManager.getNextGame roomId out.1).2 = Some (head games)
         ∧ GameSession.game_number <$> games
           = (λ i, Z.of_nat i + 1) <$> seq 0 (Z.to_nat maxGames)
         ∧ Forall (λ g, GameSession.status g = pending ∧ GameSession.room_id g = roomId
                        ∧ GameSession.game_type g ∈ GameManager.AVAILABLE_GAMES
                        ∧ GameSession.results g = [] ∧ GameSession.started_at g = None)
                  games).
Proof.
  intros Hroom Hnone Hrandom Hnd. cbn zeta. rewrite createGameSessions_run.
  unfold Server.post_game_sessions_batch. split.
  { intros Hlt. assert (Hz : Z.to_nat maxGames = 0%nat) by lia. rewrite Hz. cbn. by split. }
  intros Hge.
  destruct (batch_rows roomId random new_id (Z.to_nat maxGames) Hrandom)
    as (rows & -> & Hnum & Hids & Hall).
  destruct rows as [| r rows].
  { apply (f_equal length) in Hnum. rewrite !length_fmap, length_seq in Hnum.
    cbn in Hnum. lia. }
  set (games := r :: rows) in *.
  assert (Hexists : forallb
                      (λ s, negb (bool_decide
                                    (Server.select_where Room.id (GameSession.room_id s)
                                       (Server.rooms (Api.db w)) = []))) games = true).
  { apply forallb_forall. intros g Hg%list_elem_of_In.
    rewrite Forall_forall in Hall. destruct (Hall g Hg) as (_ & -> & _).
    apply negb_true_iff, bool_decide_eq_false. intros Hnil%select_where_nil.
    by apply Hnil. }
  rewrite Hexists, Hids, (bool_decide_eq_true_2 _ Hnd). cbn [andb fst snd Api.db].
  assert (Hsel : ∀ st, st = None ∨ st = Some pending →
            Server.room_sessions roomId st
              (Server.set_game_sessions (Server.game_sessions (Api.db w) ++ games)
                 (Api.db w)) = games).
  { intros st Hst. unfold Server.room_sessions.
    cbn [Server.game_sessions Server.set_game_sessions].
    rewrite filter_app, (filter_none _ (Server.game_sessions (Api.db w))).
    - cbn [app]. rewrite filter_all.
      + apply sort_sorted_id.
        apply (Sorted_fmap_inv GameSession.game_number (λ a b, a - b ≤ 0)).
        rewrite Hnum.
        apply (Sorted_fmap _ (λ a b : nat, (a < b)%nat)); [| apply seq_sorted].
        intros a b Hab. lia.
      + intros g Hg. rewrite Forall_forall in Hall.
        destruct (Hall g Hg) as (Hp & Hr & _). unfold Server.session_selected.
        rewrite (bool_decide_eq_true_2 _ Hr). cbn [andb].
        destruct Hst as [-> | ->]; [done | by apply bool_decide_eq_true].
    - intros g Hg. unfold Server.session_selected.
      rewrite (bool_decide_eq_false_2 _ (Hnone g Hg)). done. }
  exists games. split_and!; try done.
  - destruct (getAllGames_run roomId
                {| Api.db := Server.set_game_sessions
                               (Server.game_sessions (Api.db w) ++ games) (Api.db w);
                   Api.requests := Api.requests w
                                   ++ [("POST", "/api/game-sessions/batch")] |})
      as [_ ->].
    cbn [Api.db]. rewrite Hsel; [done | by left].
  - destruct (getNextGame_run roomId
                {| Api.db := Server.set_game_sessions
                               (Server.game_sessions (Api.db w) ++ games) (Api.db w);
                   Api.requests := Api.requests w
                                   ++ [("POST", "/api/game-sessions/batch")] |})
      as [_ ->].
    cbn [Api.db]. rewrite Hsel; [done | by right].
Qed.

Lemma draws_range (i : nat) : (0 <= Sample.draws i)%Q ∧ (Sample.draws i < 1)%Q.
Proof.
  pose proof (Nat.mod_upper_bound i 4 ltac:(lia)) as Hi.
  unfold Sample.draws, Qle, Qlt. cbn [Qnum Qden]. lia.
Qed.

(** X19.  [createGameSessions] asks for one session per game, numbered
    from 1 to the number of games, each of a type drawn from the four
    available games.  For a room that exists and has no session yet, with
    draws in [0, 1) and fresh keys, the server stores exactly these
    sessions, all pending and without results; [getAllGames] then answers
    with them in the order of their numbers and [getNextGame] with game 1.
    With fewer than one game the request carries no session, the server
    refuses it and nothing is stored. *)
Theorem sessions_are_drawn_in_order (roomId : string) (maxGames : Z) (random : nat → Q)
    (new_id : nat → string) (w : Api.World) :
  roomId ∈ Room.id <$> Server.rooms (Api.db w) →
  (∀ g, g ∈ Server.game_sessions (Api.db w) → GameSession.room_id g ≠ roomId) →
  (∀ i, (0 <= random i)%Q ∧ (random i < 1)%Q) →
  NoDup ((GameSession.id <$> Server.game_sessions (Api.db w))
         ++ (new_id <$> seq 0 (Z.to_nat maxGames))) →
  let out := GameManager.createGameSessions roomId maxGames random new_id w in
  (maxGames < 1 → out.2 = Some false ∧ Api.db out.1 = Api.db w)
  ∧ (1 ≤ maxGames →
       ∃ games,
         out.2 = Some true
         ∧ Server.game_sessions (Api.db out.1)
           = Server.game_sessions (Api.db w) ++ games
         ∧ (GameManager.getAllGames roomId out.1).2 = Some games
         ∧ (GameManager.getNextGame roomId out.1).2 = Some (head games)
         ∧ GameSession.game_number <$> games
           = (λ i, Z.of_nat i + 1) <$> seq 0 (Z.to_nat maxGames)
         ∧ Forall (λ g, GameSession.status g = pending ∧ GameSession.room_id g = roomId
                        ∧ GameSession.game_type g ∈ GameManager.AVAILABLE_GAMES
                        ∧ GameSession.results g = [] ∧ GameSession.started_at g = None)
                  games).
Proof. apply sessions_drawn. Qed.

Lemma sessions_are_drawn_in_order_witness :
  ∃ games,
    (GameManager.createGameSessions "r1" 3 Sample.draws Sample.session_key
       Sample.world_lobby).2 = Some true
    ∧ GameSession.game_number <$> games = [1; 2; 3]
    ∧ (GameManager.getAllGames "r1"
         (GameManager.createGameSessions "r1" 3 Sample.draws Sample.session_key
            Sample.world_lobby).1).2 = Some games.
Proof.
  destruct (sessions_are_drawn_in_order "r1" 3 Sample.draws Sample.session_key
              Sample.world_lobby) as [_ Hdrawn].
  - apply (bool_decide_unpack _). by vm_compute.
  - intros g Hg. by apply elem_of_nil in Hg.
  - apply draws_range.
  - apply (bool_decide_unpack _). by vm_compute.
  - destruct (Hdrawn ltac:(lia)) as (games & Hok & _ & Hall & _ & Hnum & _).
    exists games. by split_and!.
Defined.

(** ** The screens: start, poll and completion *)

Lemma patch_room_db (roomId : string) (status : RoomStatus) (db : Server.Db) :
  (Server.patch_room roomId status db).1
  = Server.set_rooms
      (Server.update_where Room.id roomId (Room.set_status status) (Server.rooms db)) db.
Proof.
  unfold Server.patch_room.
  destruct (Server.select_where Room.id roomId (Server.rooms db)) eqn:Esel; [| done].
  apply select_where_nil in Esel. rewrite update_where_id by done. by destruct db.
Qed.

Lemma patch_game_session_db (sessionId : string) (b : Server.SessionPatch) (db : Server.Db) :
  Server.patch_is_empty b = false →
  (Server.patch_game_session sessionId b db).1
  = Server.set_game_sessions
      (Server.update_where GameSession.id sessionId (Server.apply_patch b)
         (Server.game_sessions db)) db.
Proof.
  intros Hb. unfold Server.patch_game_session. rewrite Hb.
  destruct (Server.select_where GameSession.id sessionId (Server.game_sessions db))
    eqn:Esel; [| done].
  apply select_where_nil in Esel. rewrite update_where_id by done. by destruct db.
Qed.

Lemma updateRoomStatus_run (roomId : string) (status : RoomStatus) (w : Api.World) :
  Api.db (RoomManager.updateRoomStatus roomId status w).1
  = Server.set_rooms
      (Server.update_where Room.id roomId (Room.set_status status)
         (Server.rooms (Api.db w))) (Api.db w)
  ∧ ∃ ok, (RoomManager.updateRoomStatus roomId status w).2 = Some ok.
Proof.
  unfold RoomManager.updateRoomStatus, Api.try_catch, mbind, Api_bind, Api.bind, mret,
    Api_ret, Api.ret, Api.rooms_update, Api.request.
  pose proof (patch_room_db roomId status (Api.db w)) as Hdb.
  destruct (Server.patch_room roomId status (Api.db w)) as [db' [r | e]];
    cbn [fst snd Api.db] in *; by eauto.
Qed.

(** The body [startGame] sends. *)
Lemma startGame_run (gameId now : string) (w : Api.World) :
  Api.db (GameManager.startGame gameId now w).1
  = Server.set_game_sessions
      (Server.update_where GameSession.id gameId
         (Server.apply_patch
            {| Server.patch_status := Some active; Server.patch_results := None;
               Server.patch_started_at := Some now; Server.patch_completed_at := None;
               Server.patch_game_state := None |})
         (Server.game_sessions (Api.db w))) (Api.db w)
  ∧ ∃ ok, (GameManager.startGame gameId now w).2 = Some ok.
Proof.
  unfold GameManager.startGame, Api.try_catch, mbind, Api_bind, Api.bind, mret,
    Api_ret, Api.ret, Api.gameSessions_update, Api.request.
  match goal with |- context [Server.patch_game_session ?i ?b ?d] =>
    pose proof (patch_game_session_db i b d eq_refl) as Hdb;
    destruct (Server.patch_game_session i b d) as [db' [r | e]] end;
    cbn [fst snd Api.db] in *; by eauto.
Qed.

Lemma startNext_run (roomId now : string) (s : App.State) (w : Api.World) :
  let out := App.startNext roomId now s w in
  match head (Server.room_sessions roomId (Some pending) (Api.db w)) with
  | Some g =>
      out.2 = Some (App.set_appState App.Playing (App.set_currentGame (Some g) s))
      ∧ Api.db out.1
        = Server.set_game_sessions
            (Server.update_where GameSession.id (GameSession.id g)
               (Server.apply_patch
                  {| Server.patch_status := Some active; Server.patch_results := None;
                     Server.patch_started_at := Some now;
                     Server.patch_completed_at := None;
                     Server.patch_game_state := None |})
               (Server.game_sessions (Api.db w))) (Api.db w)
  | None => out.2 = Some s ∧ Api.db out.1 = Api.db w
  end.
Proof.
  cbn zeta. unfold App.startNext, mbind, Api_bind, Api.bind, mret, Api_ret, Api.ret.
  destruct (getNextGame_run roomId w) as [Hdb Hres].
  destruct (GameManager.getNextGame roomId w) as [w1 next]. cbn [fst snd] in *.
  subst next. destruct (head _) as [g |]; [| done].
  destruct (startGame_run (GameSession.id g) now w1) as [Hdb2 [ok Hok]].
  destruct (GameManager.startGame (GameSession.id g) now w1) as [w2 res].
  cbn [fst snd] in *. subst res. cbn [fst snd]. split; [done |]. by rewrite Hdb2, Hdb.
Qed.

Lemma room_sessions_ext (roomId : string) (status : option SessionStatus)
    (db db' : Server.Db) :
  Server.game_sessions db' = Server.game_sessions db →
  Server.room_sessions roomId status db' = Server.room_sessions roomId status db.
Proof. intros Hs. unfold Server.room_sessions. by rewrite Hs. Qed.

Lemma handleStartGame_host (now : string) (s : App.State) (w : Api.World)
    (r : Room) (p : Player) :
  App.room s = Some r → App.currentPlayer s = Some p →
  LobbyScreen.isHost (App.players s) (Player.id p) = true →
  let out := App.handleStartGame now s w in
  let db1 := Server.set_rooms
               (Server.update_where Room.id (Room.id r) (Room.set_status playing)
                  (Server.rooms (Api.db w))) (Api.db w) in
  match head (Server.room_sessions (Room.id r) (Some pending) (Api.db w)) with
  | Some g =>
      out.2 = Some (App.set_loading false
                      (App.set_appState App.Playing (App.set_currentGame (Some g) s)))
      ∧ Api.db out.1
        = Server.set_game_sessions
            (Server.update_where GameSession.id (GameSession.id g)
               (Server.apply_patch
                  {| Server.patch_status := Some active; Server.patch_results := None;
                     Server.patch_started_at := Some now;
                     Server.patch_completed_at := None;
                     Server.patch_game_state := None |})
               (Server.game_sessions (Api.db w))) db1
  | None => out.2 = Some (App.set_loading false s) ∧ Api.db out.1 = db1
  end.
Proof.
  intros Hr Hp Hhost. cbn zeta. unfold App.handleStartGame. rewrite Hr, Hp, Hhost.
  cbn [negb]. unfold mbind, Api_bind, Api.bind, mret, Api_ret, Api.ret.
  destruct (updateRoomStatus_run (Room.id r) playing w) as [Hdb1 [ok Hok]].
  destruct (RoomManager.updateRoomStatus (Room.id r) playing w) as [w1 res].
  cbn [fst snd] in *. subst res.
  pose proof (startNext_run (Room.id r) now s w1) as Hnext. cbn zeta in Hnext.
  rewrite (room_sessions_ext _ _ (Api.db w) (Api.db w1)) in Hnext by (by rewrite Hdb1).
  destruct (App.startNext (Room.id r) now s w1) as [w2 res]. cbn [fst snd] in *.
  destruct (head _) as [g |]; destruct Hnext as [-> Hdb2]; cbn [fst snd];
    (split; [done |]); rewrite Hdb2, Hdb1; done.
Qed.

(** X20.  A press on the start button does something only in the lobby,
    for the player listed first and once the room has its minimum of
    players: otherwise nothing is sent and nothing changes.  When it does,
    the room is set to playing, and the pending session with the lowest
    game number, if there is one, is set active with its start time and
    becomes the game on the screen; no player row is touched. *)
Theorem start_needs_host_and_quorum (now : string) (s : App.State) (w : Api.World)
    (r : Room) (p : Player) :
  App.room s = Some r → App.currentPlayer s = Some p →
  let out := App.pressStart now s w in
  if negb (App.loading s) && bool_decide (App.appState s = App.Lobby)
     && (LobbyScreen.isHost (App.players s) (Player.id p)
         && (Room.min_players r <=? Z.of_nat (length (App.players s))))
  then
    Server.rooms (Api.db out.1)
    = Server.update_where Room.id (Room.id r) (Room.set_status playing)
        (Server.rooms (Api.db w))
    ∧ Server.players (Api.db out.1) = Server.players (Api.db w)
    ∧ match head (Server.room_sessions (Room.id r) (Some pending) (Api.db w)) with
      | Some g =>
          out.2 = Some (App.set_loading false
                          (App.set_appState App.Playing
                             (App.set_currentGame (Some g) s)))
          ∧ Server.game_sessions (Api.db out.1)
            = Server.update_where GameSession.id (GameSession.id g)
                (Server.apply_patch
                   {| Server.patch_status := Some active; Server.patch_results := None;
                      Server.patch_started_at := Some now;
                      Server.patch_completed_at := None;
                      Server.patch_game_state := None |})
                (Server.game_sessions (Api.db w))
      | None =>
          out.2 = Some (App.set_loading false s)
          ∧ Server.game_sessions (Api.db out.1) = Server.game_sessions (Api.db w)
      end
  else out = (w, Some s).
Proof.
  intros Hr Hp. cbn zeta. unfold App.pressStart, LobbyScreen.startButton, LobbyScreen.canStart.
  rewrite Hr, Hp.
  destruct (negb (App.loading s) && bool_decide (App.appState s = App.Lobby)
            && (LobbyScreen.isHost (App.players s) (Player.id p)
                && (Room.min_players r <=? Z.of_nat (length (App.players s))))) eqn:Eok;
    [| done].
  apply andb_true_iff in Eok as [_ [Hhost _]%andb_true_iff].
  pose proof (handleStartGame_host now s w r p Hr Hp Hhost) as Hrun. cbn zeta in Hrun.
  destruct (head _) as [g |]; destruct Hrun as [-> ->]; by split_and!.
Qed.

Lemma start_needs_host_and_quorum_witness :
  let s := {| App.appState := App.Lobby; App.room := Some Sample.room_waiting;
              App.currentPlayer := Some (Sample.player "p1" "Ana" "red");
              App.players := [Sample.player "p1" "Ana" "red";
                              Sample.player "p2" "Bo" "blue"];
              App.currentGame := None; App.lastGameResults := [];
              App.loading := false |} in
  let w := (GameManager.createGameSessions "r1" 3 Sample.draws Sample.session_key
              Sample.world_lobby).1 in
  Server.rooms (Api.db (App.pressStart "t0" s w).1)
  = Server.update_where Room.id "r1" (Room.set_status playing) (Server.rooms (Api.db w))
  ∧ Server.players (Api.db (App.pressStart "t0" s w).1) = Server.players (Api.db w).
Proof.
  intros s w.
  pose proof (start_needs_host_and_quorum "t0" s w Sample.room_waiting
                (Sample.player "p1" "Ana" "red") eq_refl eq_refl) as Hstart.
  cbn zeta in Hstart.
  match type of Hstart with
  | if ?c then _ else _ => replace c with true in Hstart by (by vm_compute)
  end.
  destruct Hstart as (Hrooms & Hplayers & _). by split.
Defined.

Lemma get_room_norm (q : string) (db : Server.Db) :
  Server.get_room (Js.toUpperCase (Js.trim q)) db = Server.get_room q db.
Proof.
  unfold Server.get_room.
  rewrite (trim_fixed _ (normalise_trimmed q)), toUpperCase_idem.
  destruct (Js.trim q) as [| c t] eqn:Et; [done |].
  assert (Hne : Js.toUpperCase (String c t) ≠ EmptyString).
  { intros He. by apply (proj1 (toUpperCase_empty _)) in He. }
  by destruct (Js.toUpperCase (String c t)).
Qed.

Lemma getRoomByCode_run (roomCode : string) (w : Api.World) :
  Api.db (RoomManager.getRoomByCode roomCode w).1 = Api.db w
  ∧ (RoomManager.getRoomByCode roomCode w).2
    = Some (match Server.get_room roomCode (Api.db w) with
            | Server.Ok r => Some r
            | Server.Error _ => None
            end).
Proof.
  unfold RoomManager.getRoomByCode.
  destruct (bool_decide (roomCode = EmptyString) || _) eqn:Eblank.
  - split; [done |]. cbn. unfold Server.get_room.
    apply orb_true_iff in Eblank as [->%bool_decide_eq_true | Hlen%Nat.eqb_eq]; [done |].
    by rewrite (bool_decide_eq_true_2 _ Hlen).
  - unfold Api.try_catch, mbind, Api_bind, Api.bind, mret, Api_ret, Api.ret,
      Api.rooms_getByCode, Api.request. cbv zeta. cbn [fst snd Api.db].
    rewrite get_room_norm. by destruct (Server.get_room roomCode (Api.db w)).
Qed.

Lemma checkStatus_run (now : string) (s : App.State) (w : Api.World) (r r' : Room) :
  App.room s = Some r → App.appState s = App.Lobby →
  Room.room_code r ≠ EmptyString → Room.id r ≠ EmptyString →
  String.length (Js.toUpperCase (Js.trim (Room.room_code r))) = 6%nat →
  Server.get_room (Room.room_code r) (Api.db w) = Server.Ok r' →
  Room.id r' = Room.id r →
  let out := App.checkStatus now s w in
  let s1 := App.set_room (Some r') s in
  if bool_decide (Room.status r' = playing) then
    match head (Server.room_sessions (Room.id r) (Some active) (Api.db w)) with
    | Some g =>
        out.2 = Some (App.set_appState App.Playing (App.set_currentGame (Some g) s1))
        ∧ Api.db out.1 = Api.db w
    | None =>
        match head (Server.room_sessions (Room.id r) (Some pending) (Api.db w)) with
        | Some g =>
            out.2 = Some (App.set_appState App.Playing (App.set_currentGame (Some g) s1))
            ∧ Api.db out.1
              = Server.set_game_sessions
                  (Server.update_where GameSession.id (GameSession.id g)
                     (Server.apply_patch
                        {| Server.patch_status := Some active;
                           Server.patch_results := None;
                           Server.patch_started_at := Some now;
                           Server.patch_completed_at := None;
                           Server.patch_game_state := None |})
                     (Server.game_sessions (Api.db w))) (Api.db w)
        | None => out.2 = Some s1 ∧ Api.db out.1 = Api.db w
        end
    end
  else out.2 = Some s1 ∧ Api.db out.1 = Api.db w.
Proof.
  intros Hr Hlobby Hcode Hid Hlen Hfind Hsame. cbn zeta. unfold App.checkStatus.
  rewrite Hr, Hlobby, (bool_decide_eq_true_2 _ eq_refl),
    (bool_decide_eq_false_2 _ Hcode), (bool_decide_eq_false_2 _ Hid).
  cbn [negb orb]. rewrite Hlen. cbn [Nat.eqb negb].
  unfold Api.try_catch, mbind, Api_bind, Api.bind, mret, Api_ret, Api.ret.
  destruct (getRoomByCode_run (Js.toUpperCase (Js.trim (Room.room_code r))) w)
    as [Hdb1 Hres1].
  rewrite get_room_norm, Hfind in Hres1.
  destruct (RoomManager.getRoomByCode _ w) as [w1 res1]. cbn [fst snd] in *. subst res1.
  rewrite Hsame, (bool_decide_eq_true_2 _ eq_refl). cbn [negb].
  destruct (bool_decide (Room.status r' = playing)); [| cbn [fst snd]; by rewrite Hdb1].
  destruct (getCurrentGame_run (Room.id r) w1) as [Hdb2 Hres2].
  destruct (GameManager.getCurrentGame (Room.id r) w1) as [w2 res2].
  cbn [fst snd] in *. subst res2. rewrite Hdb1 in *.
  destruct (head (Server.room_sessions (Room.id r) (Some active) (Api.db w))) as [g |].
  { cbn [fst snd]. by rewrite Hdb2. }
  destruct (getNextGame_run (Room.id r) w2) as [Hdb3 Hres3].
  destruct (GameManager.getNextGame (Room.id r) w2) as [w3 res3].
  cbn [fst snd] in *. subst res3. rewrite Hdb2 in *.
  destruct (head (Server.room_sessions (Room.id r) (Some pending) (Api.db w))) as [g |].
  2:{ cbn [fst snd]. by rewrite Hdb3. }
  destruct (startGame_run (GameSession.id g) now w3) as [Hdb4 [ok Hok]].
  destruct (GameManager.startGame (GameSession.id g) now w3) as [w4 res4].
  cbn [fst snd] in *. subst res4. cbn [fst snd]. by rewrite Hdb4, Hdb3.
Qed.

(** X21.  The poll of the lobby follows the room the server holds under
    the code of the local room and never touches a room or a player.
    While that room is not playing, the client stays in the lobby.  Once
    it is playing, the client shows the active session of the room with
    the lowest game number and changes nothing on the server; only when no
    session is active does it start the lowest pending one itself. *)
Theorem lobby_poll_follows_the_room (now : string) (s : App.State) (w : Api.World)
    (r r' : Room) :
  App.room s = Some r → App.appState s = App.Lobby →
  Room.room_code r ≠ EmptyString → Room.id r ≠ EmptyString →
  String.length (Js.toUpperCase (Js.trim (Room.room_code r))) = 6%nat →
  Server.get_room (Room.room_code r) (Api.db w) = Server.Ok r' →
  Room.id r' = Room.id r →
  let out := App.checkStatus now s w in
  let s1 := App.set_room (Some r') s in
  Server.rooms (Api.db out.1) = Server.rooms (Api.db w)
  ∧ Server.players (Api.db out.1) = Server.players (Api.db w)
  ∧ (Room.status r' ≠ playing → out.2 = Some s1 ∧ Api.db out.1 = Api.db w)
  ∧ (Room.status r' = playing →
       match head (Server.room_sessions (Room.id r) (Some active) (Api.db w)) with
       | Some g =>
           out.2 = Some (App.set_appState App.Playing (App.set_currentGame (Some g) s1))
           ∧ Api.db out.1 = Api.db w
       | None =>
           match head (Server.room_sessions (Room.id r) (Some pending) (Api.db w)) with
           | Some g =>
               out.2 = Some (App.set_appState App.Playing
                               (App.set_currentGame (Some g) s1))
               ∧ Server.game_sessions (Api.db out.1)
                 = Server.update_where GameSession.id (GameSession.id g)
                     (Server.apply_patch
                        {| Server.patch_status := Some active;
                           Server.patch_results := None;
                           Server.patch_started_at := Some now;
                           Server.patch_completed_at := None;
                           Server.patch_game_state := None |})
                     (Server.game_sessions (Api.db w))
           | None => out.2 = Some s1 ∧ Api.db out.1 = Api.db w
           end
       end).
Proof.
  intros Hr Hlobby Hcode Hid Hlen Hfind Hsame. cbn zeta.
  pose proof (checkStatus_run now s w r r' Hr Hlobby Hcode Hid Hlen Hfind Hsame) as Hrun.
  cbn zeta in Hrun.
  destruct (bool_decide (Room.status r' = playing)) eqn:Est.
  - apply bool_decide_eq_true in Est.
    destruct (head (Server.room_sessions (Room.id r) (Some active) (Api.db w))).
    + destruct Hrun as [Hres Hdb]. rewrite Hdb. by split_and!.
    + destruct (head (Server.room_sessions (Room.id r) (Some pending) (Api.db w))).
      * destruct Hrun as [Hres Hdb]. rewrite Hdb. by split_and!.
      * destruct Hrun as [Hres Hdb]. rewrite Hdb. by split_and!.
  - apply bool_decide_eq_false in Est. destruct Hrun as [Hres Hdb]. rewrite Hdb.
    by split_and!.
Qed.

Lemma lobby_poll_follows_the_room_witness :
  let s := {| App.appState := App.Lobby; App.room := Some Sample.room_waiting;
              App.currentPlayer := Some (Sample.player "p2" "Bo" "blue");
              App.players := []; App.currentGame := None; App.lastGameResults := [];
              App.loading := false |} in
  (App.checkStatus "t1" s Sample.world_playing).2
  = Some (App.set_appState App.Playing
            (App.set_currentGame (Some Sample.session1)
               (App.set_room (Some Sample.room_playing) s)))
  ∧ Api.db (App.checkStatus "t1" s Sample.world_playing).1 = Sample.db_playing.
Proof.
  intros s.
  destruct (lobby_poll_follows_the_room "t1" s Sample.world_playing Sample.room_waiting
              Sample.room_playing) as (_ & _ & _ & Hplaying);
    [done | done | done | done | done | done | done |].
  exact (Hplaying eq_refl).
Defined.

Lemma filter_fmap_same {A} (P : A → Prop) `{∀ a, Decision (P a)} (f : A → A) (l : list A) :
  (∀ a, P (f a) ↔ P a) → filter P (f <$> l) = f <$> filter P l.
Proof.
  intros Hf. induction l as [| a l IH]; [done |].
  rewrite fmap_cons, !filter_cons, IH.
  destruct (decide (P a)) as [Ha | Ha].
  - by rewrite decide_True by (by apply Hf).
  - by rewrite decide_False by (by rewrite Hf).
Qed.

Lemma get_room_after_status (code roomId : string) (status : RoomStatus)
    (db db' : Server.Db) :
  Server.rooms db'
  = Server.update_where Room.id roomId (Room.set_status status) (Server.rooms db) →
  Server.get_room code db'
  = match Server.get_room code db with
    | Server.Ok r0 =>
        Server.Ok (if decide (Room.id r0 = roomId) then Room.set_status status r0 else r0)
    | Server.Error e => Server.Error e
    end.
Proof.
  intros Hrooms. unfold Server.get_room. rewrite Hrooms.
  destruct (bool_decide _); [done |]. cbn zeta. unfold Server.update_where.
  rewrite filter_fmap_same.
  - by destruct (filter _ (Server.rooms db)).
  - intros a. by destruct (decide (Room.id a = roomId)).
Qed.

Lemma filter_update_unique {A} (key : A → string) (P : A → Prop) `{∀ a, Decision (P a)}
    (f : A → A) (g : A) (l : list A) :
  NoDup (key <$> l) → g ∈ l → (∀ a, a ∈ l → ¬ P a) → P (f g) →
  filter P (Server.update_where key (key g) f l) = [f g].
Proof.
  intros Hnd Hg Hnone Hfg. unfold Server.update_where.
  induction l as [| a l IH]; [by apply elem_of_nil in Hg |].
  rewrite fmap_cons in Hnd. apply NoDup_cons in Hnd as [Ha Hnd].
  rewrite fmap_cons, filter_cons.
  destruct (decide (key a = key g)) as [Heq | Hne].
  - assert (a = g) as ->.
    { apply elem_of_cons in Hg as [-> | Hg]; [done |].
      exfalso. apply Ha. rewrite Heq. apply list_elem_of_fmap. by exists g. }
    rewrite decide_True by done. f_equal.
    apply filter_none. intros b (c & -> & Hc)%list_elem_of_fmap.
    destruct (decide (key c = key g)) as [Heq' | _].
    + exfalso. apply Ha. rewrite <- Heq'. apply list_elem_of_fmap. by exists c.
    + apply Hnone. by right.
  - rewrite decide_False by (apply Hnone; by left).
    apply elem_of_cons in Hg as [-> | Hg]; [done |].
    apply IH; [done | done |]. intros b Hb. apply Hnone. by right.
Qed.

(** X22.  Host and joiner enter the same game.  When the host starts from
    the lobby of a room that has a pending session and no active one, and
    a joiner of that room then polls, both end up on the playing screen
    with the same session, the pending one with the lowest number; the
    session the joiner receives is active and carries the start time the
    host set, and the poll of the joiner changes nothing on the server.
    Session keys are unique, and the room is the one the server finds
    under its code. *)
Theorem players_enter_the_same_game (now now' : string) (sH sJ : App.State)
    (w : Api.World) (r r0 : Room) (host : Player) (g : GameSession) :
  App.room sH = Some r → App.currentPlayer sH = Some host →
  LobbyScreen.isHost (App.players sH) (Player.id host) = true →
  App.room sJ = Some r → App.appState sJ = App.Lobby →
  Room.room_code r ≠ EmptyString → Room.id r ≠ EmptyString →
  String.length (Js.toUpperCase (Js.trim (Room.room_code r))) = 6%nat →
  Server.get_room (Room.room_code r) (Api.db w) = Server.Ok r0 →
  Room.id r0 = Room.id r →
  NoDup (GameSession.id <$> Server.game_sessions (Api.db w)) →
  Server.room_sessions (Room.id r) (Some active) (Api.db w) = [] →
  head (Server.room_sessions (Room.id r) (Some pending) (Api.db w)) = Some g →
  let outH := App.handleStartGame now sH w in
  let outJ := App.checkStatus now' sJ outH.1 in
  ∃ sH' sJ' gJ,
    outH.2 = Some sH' ∧ outJ.2 = Some sJ'
    ∧ App.appState sH' = App.Playing ∧ App.currentGame sH' = Some g
    ∧ App.appState sJ' = App.Playing ∧ App.currentGame sJ' = Some gJ
    ∧ GameSession.id gJ = GameSession.id g
    ∧ GameSession.status gJ = active ∧ GameSession.started_at gJ = Some now
    ∧ Api.db outJ.1 = Api.db outH.1.
Proof.
  intros HrH Hhost Hfirst HrJ Hlobby Hcode Hid Hlen Hfind Hsame Hnd Hactive Hpending.
  cbn zeta.
  pose proof (handleStartGame_host now sH w r host HrH Hhost Hfirst) as HH.
  cbn zeta in HH. rewrite Hpending in HH. destruct HH as [HresH HdbH].
  set (start := {| Server.patch_status := Some active; Server.patch_results := None;
                   Server.patch_started_at := Some now;
                   Server.patch_completed_at := None;
                   Server.patch_game_state := None |}) in *.
  destruct (proj1 (room_sessions_elem (Room.id r) (Some pending) (Api.db w) g))
    as (Hg & Hgroom & Hgst).
  { apply head_Some_elem_of. exact Hpending. }
  assert (Hnow : Server.room_sessions (Room.id r) (Some active)
                   (Api.db (App.handleStartGame now sH w).1)
                 = [Server.apply_patch start g]).
  { rewrite HdbH. unfold Server.room_sessions.
    cbn [Server.game_sessions Server.set_game_sessions].
    rewrite (filter_update_unique GameSession.id _ (Server.apply_patch start) g);
      [done | done | done | |].
    - intros a Ha Hsel. unfold Server.session_selected in Hsel.
      apply andb_true_iff in Hsel as [Hroom%bool_decide_eq_true Hst%bool_decide_eq_true].
      assert (Hin : a ∈ Server.room_sessions (Room.id r) (Some active) (Api.db w))
        by (by apply room_sessions_elem).
      rewrite Hactive in Hin. by apply elem_of_nil in Hin.
    - unfold Server.session_selected. cbn.
      by rewrite (bool_decide_eq_true_2 _ Hgroom). }
  pose proof (checkStatus_run now' sJ (App.handleStartGame now sH w).1 r
                (Room.set_status playing r0) HrJ Hlobby Hcode Hid Hlen) as HJ.
  cbn zeta in HJ.
  rewrite (get_room_after_status _ (Room.id r) playing (Api.db w)) in HJ
    by (by rewrite HdbH).
  rewrite Hfind, decide_True in HJ by done.
  specialize (HJ eq_refl Hsame).
  rewrite (bool_decide_eq_true_2 _ eq_refl), Hnow in HJ. cbn [head] in HJ.
  destruct HJ as [HresJ HdbJ].
  eexists _, _, _. split_and!; [exact HresH | exact HresJ | done..].
Qed.

Lemma players_enter_the_same_game_witness :
  let w := (GameManager.createGameSessions "r1" 3 Sample.draws Sample.session_key
              Sample.world_lobby).1 in
  let sH := {| App.appState := App.Lobby; App.room := Some Sample.room_waiting;
               App.currentPlayer := Some (Sample.player "p1" "Ana" "red");
               App.players := [Sample.player "p1" "Ana" "red";
                               Sample.player "p2" "Bo" "blue"];
               App.currentGame := None; App.lastGameResults := [];
               App.loading := false |} in
  let sJ := App.set_currentPlayer (Some (Sample.player "p2" "Bo" "blue")) sH in
  ∃ sJ' gJ,
    (App.checkStatus "t1" sJ (App.handleStartGame "t0" sH w).1).2 = Some sJ'
    ∧ App.appState sJ' = App.Playing ∧ App.currentGame sJ' = Some gJ
    ∧ GameSession.id gJ = "g0" ∧ GameSession.status gJ = active
    ∧ GameSession.started_at gJ = Some "t0".
Proof.
  intros w sH sJ.
  destruct (players_enter_the_same_game "t0" "t1" sH sJ w Sample.room_waiting
              Sample.room_waiting (Sample.player "p1" "Ana" "red")
              (default Sample.session1
                 (head (Server.room_sessions "r1" (Some pending) (Api.db w)))))
    as (sH' & sJ' & gJ & _ & HJ & _ & _ & Hscreen & Hgame & Hid & Hst & Hat & _).
  - reflexivity.
  - reflexivity.
  - reflexivity.
  - reflexivity.
  - reflexivity.
  - done.
  - done.
  - reflexivity.
  - reflexivity.
  - reflexivity.
  - apply (bool_decide_unpack _). by vm_compute.
  - by vm_compute.
  - by vm_compute.
  - exists sJ', gJ. by split_and!.
Defined.

(** ** Completing a game *)

Lemma completeGame_db (gameId : string) (results : list GameResult) (now : string)
    (w : Api.World) :
  let out := GameManager.completeGame gameId results now w in
  let credit := λ p, match find (λ r, bool_decide (GameResult.player_id r = Player.id p))
                             results with
                     | Some r => Player.set_total_score
                                   (Player.total_score p + GameResult.points r) p
                     | None => p
                     end in
  Server.rooms (Api.db out.1) = Server.rooms (Api.db w)
  ∧ (gameId ∉ GameSession.id <$> Server.game_sessions (Api.db w) →
       out.2 = Some false ∧ Api.db out.1 = Api.db w)
  ∧ (gameId ∈ GameSession.id <$> Server.game_sessions (Api.db w) →
       out.2 = Some true
       ∧ Server.game_sessions (Api.db out.1)
         = Server.update_where GameSession.id gameId
             (Server.apply_patch
                {| Server.patch_status := Some completed;
                   Server.patch_results := Some results;
                   Server.patch_started_at := None;
                   Server.patch_completed_at := Some now;
                   Server.patch_game_state := None |})
             (Server.game_sessions (Api.db w))
       ∧ (NoDup (Player.id <$> Server.players (Api.db w)) →
          NoDup (GameResult.player_id <$> results) →
          Server.players (Api.db out.1) = credit <$> Server.players (Api.db w))).
Proof.
  cbn zeta. rewrite completeGame_run. cbv zeta.
  destruct (Server.select_where GameSession.id gameId (Server.game_sessions (Api.db w)))
    as [| s0 rest] eqn:Esel.
  { apply select_where_nil in Esel. cbn. split_and!; [done | done |]. by intros ?. }
  assert (Hin : gameId ∈ GameSession.id <$> Server.game_sessions (Api.db w)).
  { destruct (decide (gameId ∈ GameSession.id <$> Server.game_sessions (Api.db w)))
      as [? | Hnot]; [done |]. apply select_where_nil in Hnot. by rewrite Hnot in Esel. }
  set (w1 := {| Api.db := _; Api.requests := _ |}).
  destruct (credit_all results w1) as (Hok & Hrooms & Hsess & Hplayers).
  destruct (Api.for_of results GameManager.creditPlayer w1) as [w2 o2].
  cbn [fst snd] in *. subst o2. cbn [fst snd].
  split_and!; [by rewrite Hrooms | by intros ? | intros _].
  split_and!; [done | by rewrite Hsess | exact Hplayers].
Qed.

(** X23.  [completeGame] for a session the server does not hold answers
    [false] and leaves the database as it was: no score is touched. *)
Theorem unknown_game_credits_nobody (gameId : string) (results : list GameResult)
    (now : string) (w : Api.World) :
  (gameId ∉ GameSession.id <$> Server.game_sessions (Api.db w)) →
  GameManager.completeGame gameId results now w
  = (Api.logged w "PATCH" ("/api/game-sessions/" +:+ gameId), Some false).
Proof.
  intros Hnot. rewrite completeGame_run. cbv zeta.
  apply select_where_nil in Hnot. by rewrite Hnot.
Qed.

Lemma unknown_game_credits_nobody_witness :
  GameManager.completeGame "s9" Sample.ranking2 "t9" Sample.world_playing
  = (Api.logged Sample.world_playing "PATCH" "/api/game-sessions/s9", Some false).
Proof.
  apply (unknown_game_credits_nobody "s9" Sample.ranking2 "t9" Sample.world_playing).
  apply (bool_decide_unpack _). by vm_compute.
Defined.

(** X24.  [completeGame] is not idempotent: completing the same session
    again, as every client of the game does from [handleGameComplete],
    succeeds again and adds the points of the ranking to the scores once
    more, so that after two completions each ranked player has twice the
    points of the ranking on top of the earlier score. *)
Theorem second_completion_credits_again (gameId : string) (results : list GameResult)
    (now now' : string) (w : Api.World) :
  gameId ∈ GameSession.id <$> Server.game_sessions (Api.db w) →
  NoDup (Player.id <$> Server.players (Api.db w)) →
  NoDup (GameResult.player_id <$> results) →
  let once := GameManager.completeGame gameId results now w in
  let twice := GameManager.completeGame gameId results now' once.1 in
  twice.2 = Some true
  ∧ Server.players (Api.db twice.1)
    = (λ p, match find (λ r, bool_decide (GameResult.player_id r = Player.id p))
                    results with
            | Some r => Player.set_total_score
                          (Player.total_score p + 2 * GameResult.points r) p
            | None => p
            end) <$> Server.players (Api.db w).
Proof.
  intros Hin Hpids Hrids. cbn zeta.
  destruct (completeGame_db gameId results now w) as (_ & _ & Hfirst).
  destruct (Hfirst Hin) as (_ & Hsess1 & Hplayers1). specialize (Hplayers1 Hpids Hrids).
  set (w1 := (GameManager.completeGame gameId results now w).1) in *.
  assert (Hin1 : gameId ∈ GameSession.id <$> Server.game_sessions (Api.db w1)).
  { rewrite Hsess1. unfold Server.update_where. rewrite <- list_fmap_compose.
    erewrite list_fmap_ext; [exact Hin |].
    intros _ s _. cbn. by destruct (decide (GameSession.id s = gameId)). }
  assert (Hpids1 : NoDup (Player.id <$> Server.players (Api.db w1))).
  { rewrite Hplayers1, <- list_fmap_compose.
    erewrite list_fmap_ext; [exact Hpids |].
    intros _ p _. cbn. by destruct (find _ results). }
  destruct (completeGame_db gameId results now' w1) as (_ & _ & Hsecond).
  destruct (Hsecond Hin1) as (Hok & _ & Hplayers2). specialize (Hplayers2 Hpids1 Hrids).
  split; [exact Hok |].
  rewrite Hplayers2, Hplayers1, <- list_fmap_compose. apply list_fmap_ext.
  intros _ p _. cbn.
  destruct (find (λ r, bool_decide (GameResult.player_id r = Player.id p)) results)
    as [r |] eqn:Efind; cbn [Player.id Player.set_total_score];
    rewrite Efind; [| done].
  unfold Player.set_total_score. cbn. f_equal. lia.
Qed.

Lemma second_completion_credits_again_witness :
  Player.total_score
  <$> Server.players
        (Api.db (GameManager.completeGame "s1" Sample.ranking2 "t2"
                   (GameManager.completeGame "s1" Sample.ranking2 "t1"
                      Sample.world_playing).1).1) = [2; 4].
Proof.
  destruct (second_completion_credits_again "s1" Sample.ranking2 "t1" "t2"
              Sample.world_playing) as [_ Hplayers].
  - apply (bool_decide_unpack _). by vm_compute.
  - apply (bool_decide_unpack _). by vm_compute.
  - apply (bool_decide_unpack _). by vm_compute.
  - by rewrite Hplayers.
Defined.

Lemma getPlayers_run (roomId : string) (w : Api.World) :
  Api.db (RoomManager.getPlayers roomId w).1 = Api.db w
  ∧ (RoomManager.getPlayers roomId w).2
    = Some (Server.select_where Player.room_id roomId (Server.players (Api.db w))).
Proof. done. Qed.

(** X25.  When a game completes, the client records it with
    [completeGame], shows the ranking and the players as the server then
    has them, and counts the completed sessions of the room as the server
    then has them: with as many as the room's number of games or more, the
    room is set to finished and the final screen is shown; with fewer, the
    scoreboard is shown and nothing else is written. *)
Theorem party_ends_after_the_last_game (results : list GameResult) (now : string)
    (s : App.State) (w : Api.World) (g : GameSession) (r : Room) :
  App.currentGame s = Some g → App.room s = Some r →
  let w1 := (GameManager.completeGame (GameSession.id g) results now w).1 in
  let completedGames :=
    filter (λ x, GameSession.status x = completed)
      (Server.room_sessions (Room.id r) None (Api.db w1)) in
  let out := App.handleGameComplete results now s w in
  ∃ s', out.2 = Some s'
        ∧ App.lastGameResults s' = results
        ∧ App.players s'
          = Server.select_where Player.room_id (Room.id r) (Server.players (Api.db w1))
        ∧ App.room s' = App.room s ∧ App.currentGame s' = App.currentGame s
        ∧ if Room.max_games r <=? Z.of_nat (length completedGames)
          then App.appState s' = App.Final
               ∧ Api.db out.1
                 = Server.set_rooms
                     (Server.update_where Room.id (Room.id r) (Room.set_status finished)
                        (Server.rooms (Api.db w1))) (Api.db w1)
          else App.appState s' = App.Scoreboard ∧ Api.db out.1 = Api.db w1.
Proof.
  intros Hg Hr. cbn zeta. unfold App.handleGameComplete. rewrite Hg, Hr.
  unfold mbind, Api_bind, Api.bind, mret, Api_ret, Api.ret.
  assert (Hdone : ∃ b, (GameManager.completeGame (GameSession.id g) results now w).2
                       = Some b).
  { destruct (completeGame_db (GameSession.id g) results now w) as (_ & Hno & Hyes).
    destruct (decide (GameSession.id g
                      ∈ GameSession.id <$> Server.game_sessions (Api.db w))) as [Hin | Hin].
    - destruct (Hyes Hin) as [-> _]. by eexists.
    - destruct (Hno Hin) as [-> _]. by eexists. }
  destruct Hdone as [b Hb].
  destruct (GameManager.completeGame (GameSession.id g) results now w) as [w1 res].
  cbn [fst snd] in *. subst res.
  destruct (getPlayers_run (Room.id r) w1) as [Hdb2 Hres2].
  destruct (RoomManager.getPlayers (Room.id r) w1) as [w2 res2].
  cbn [fst snd] in *. subst res2.
  destruct (getAllGames_run (Room.id r) w2) as [Hdb3 Hres3].
  destruct (GameManager.getAllGames (Room.id r) w2) as [w3 res3].
  cbn [fst snd] in *. subst res3. rewrite Hdb2 in *.
  destruct (Room.max_games r <=? _).
  - destruct (updateRoomStatus_run (Room.id r) finished w3) as [Hdb4 [ok Hok]].
    destruct (RoomManager.updateRoomStatus (Room.id r) finished w3) as [w4 res4].
    cbn [fst snd] in *. subst res4. cbn [fst snd].
    eexists. split; [reflexivity |]. split_and!; try done. by rewrite Hdb4, Hdb3.
  - cbn [fst snd]. eexists. split; [reflexivity |]. by split_and!.
Qed.

Lemma party_ends_after_the_last_game_witness :
  let s := {| App.appState := App.Playing; App.room := Some Sample.room_playing;
              App.currentPlayer := Some (Sample.player "p1" "Ana" "red");
              App.players := [Sample.player "p1" "Ana" "red";
                              Sample.player "p2" "Bo" "blue"];
              App.currentGame := Some Sample.session1; App.lastGameResults := [];
              App.loading := false |} in
  ∃ s', (App.handleGameComplete Sample.ranking2 "t2" s Sample.world_playing).2 = Some s'
        ∧ App.lastGameResults s' = Sample.ranking2
        ∧ App.appState s' = App.Scoreboard.
Proof.
  intros s.
  destruct (party_ends_after_the_last_game Sample.ranking2 "t2" s Sample.world_playing
              Sample.session1 Sample.room_playing eq_refl eq_refl)
    as (s' & Hres & Hlast & _ & _ & _ & Hscreen).
  exists s'. split_and!; [done | done |].
  match type of Hscreen with
  | if ?c then _ else _ => replace c with false in Hscreen by (by vm_compute)
  end.
  by destruct Hscreen.
Defined.

(** ** The server: player state over REST and the relay registry *)

Lemma select_after_update (k : string) (gs gs' : gmap string Json) (db : Server.Db) :
  Server.select_game_state k db = Some gs →
  Server.select_game_state k (Server.update_game_state k gs' db) = Some gs'.
Proof.
  unfold Server.select_game_state, Server.update_game_state.
  cbn [Server.game_sessions Server.set_game_sessions].
  rewrite select_update_where by done.
  by destruct (Server.select_where GameSession.id k (Server.game_sessions db)).
Qed.

(** X26.  [POST /api/game-sessions/:sessionId/player-state] answers 404
    for a session the server does not hold and changes nothing.  For a
    session whose state holds an object of players, or none yet, it stores
    the position, the bomb flag and the time under the identity of the
    player and leaves the entries of the other players and every other key
    of the state as they were; [GET .../state] then answers with the state
    so stored. *)
Theorem player_state_is_stored_per_player (sessionId player_id : string)
    (position has_bomb : Json) (now : string) (db : Server.Db) :
  let out := Server.post_player_state sessionId player_id position has_bomb now db in
  let entry := JObj (<["position" := position]>
                    (<["has_bomb" := has_bomb]> {[ "updated_at" := JStr now ]})) in
  match Server.select_game_state sessionId db with
  | None => out = (db, Server.Error 404)
  | Some gs =>
      match gs !! "players" with
      | Some (JObj ps) =>
          ∃ gs', out.2 = Server.Ok () ∧ Server.get_state sessionId out.1 = Server.Ok gs'
                 ∧ gs' !! "players" = Some (JObj (<[player_id := entry]> ps))
                 ∧ (∀ other, other ≠ player_id →
                             (<[player_id := entry]> ps) !! other = ps !! other)
                 ∧ (∀ k, k ≠ "players" → gs' !! k = gs !! k)
      | None =>
          ∃ gs', out.2 = Server.Ok () ∧ Server.get_state sessionId out.1 = Server.Ok gs'
                 ∧ gs' !! "players" = Some (JObj {[ player_id := entry ]})
                 ∧ (∀ k, k ≠ "players" → gs' !! k = gs !! k)
      | Some _ => True
      end
  end.
Proof.
  cbn zeta. unfold Server.post_player_state.
  destruct (Server.select_game_state sessionId db) as [gs |] eqn:Egs; [| done].
  unfold Server.player_entry_throws.
  destruct (gs !! "players") as [[| | | | | ps] |] eqn:Eps; try done.
  - eexists. cbn [fst snd]. unfold Server.get_state.
    rewrite (select_after_update _ gs) by done. split_and!; try done.
    + unfold Server.set_player_entry. rewrite Eps. by rewrite lookup_insert_eq.
    + intros other Hother. by rewrite lookup_insert_ne.
    + intros k Hk. by apply set_player_entry_keeps.
  - eexists. cbn [fst snd]. unfold Server.get_state.
    rewrite (select_after_update _ gs) by done. split_and!; try done.
    + unfold Server.set_player_entry. rewrite Eps. by rewrite lookup_insert_eq.
    + intros k Hk. by apply set_player_entry_keeps.
Qed.

(** X27.  The relay registers a socket under the player who joined with
    it and forgets both on disconnect: the disconnect of a registered
    socket emits one [player-disconnected] to the group of the session,
    naming the player, and a second disconnect of the same socket emits
    nothing and changes neither the registry nor the database. *)
Theorem relay_forgets_a_socket_on_disconnect (socketId gameSessionId playerId : string)
    (reg : Server.Registry) (db : Server.Db) :
  playerId ≠ EmptyString →
  let reg1 := Server.on_join_game socketId gameSessionId (Some playerId) reg in
  let out := Server.on_disconnect socketId reg1 db in
  Server.socketToPlayer reg1 !! socketId = Some (gameSessionId, playerId)
  ∧ Server.playerToSocket reg1 !! playerId = Some socketId
  ∧ out.2 = [ {| Server.event := "player-disconnected";
                 Server.group := "game-" +:+ gameSessionId;
                 Server.payload := <["playerId" := JStr playerId]>
                                   {[ "gameSessionId" := JStr gameSessionId ]};
                 Server.to_others := false |} ]
  ∧ Server.socketToPlayer out.1.1 !! socketId = None
  ∧ Server.playerToSocket out.1.1 !! playerId = None
  ∧ Server.rooms out.1.2 = Server.rooms db
  ∧ Server.players out.1.2 = Server.players db
  ∧ Server.on_disconnect socketId out.1.1 out.1.2 = (out.1.1, out.1.2, []).
Proof.
  intros Hp. cbn zeta. unfold Server.on_join_game.
  rewrite (bool_decide_eq_false_2 _ Hp).
  set (reg1 := {| Server.socketToPlayer := _; Server.playerToSocket := _ |}).
  assert (Hfound : Server.socketToPlayer reg1 !! socketId = Some (gameSessionId, playerId))
    by apply lookup_insert_eq.
  assert (Hout : ∃ db', Server.on_disconnect socketId reg1 db
            = ({| Server.socketToPlayer := delete socketId (Server.socketToPlayer reg1);
                  Server.playerToSocket := delete playerId (Server.playerToSocket reg1) |},
               db',
               [ {| Server.event := "player-disconnected";
                    Server.group := "game-" +:+ gameSessionId;
                    Server.payload := <["playerId" := JStr playerId]>
                                      {[ "gameSessionId" := JStr gameSessionId ]};
                    Server.to_others := false |} ])
            ∧ Server.rooms db' = Server.rooms db
            ∧ Server.players db' = Server.players db).
  { unfold Server.on_disconnect. rewrite Hfound. eexists. split; [reflexivity |].
    by destruct (Server.select_game_state gameSessionId db). }
  destruct Hout as (db' & -> & Hrooms & Hplayers). cbn [fst snd].
  cbn [Server.socketToPlayer Server.playerToSocket].
  split_and!; try done.
  - apply lookup_insert_eq.
  - apply lookup_delete_eq.
  - apply lookup_delete_eq.
  - unfold Server.on_disconnect. cbn [Server.socketToPlayer].
    by rewrite lookup_delete_eq.
Qed.

Lemma relay_forgets_a_socket_on_disconnect_witness :
  (Server.on_disconnect "sock1"
     (Server.on_join_game "sock1" "s1" (Some "p1")
        {| Server.socketToPlayer := ∅; Server.playerToSocket := ∅ |})
     Sample.db_playing).2
  = [ {| Server.event := "player-disconnected"; Server.group := "game-s1";
         Server.payload := <["playerId" := JStr "p1"]>
                           {[ "gameSessionId" := JStr "s1" ]};
         Server.to_others := false |} ].
Proof.
  apply (relay_forgets_a_socket_on_disconnect "sock1" "s1" "p1"
           {| Server.socketToPlayer := ∅; Server.playerToSocket := ∅ |}
           Sample.db_playing).
  done.
Defined.

(** ** Creating and joining from the home screen *)

Lemma joinRoom_norm (roomCode playerName : string) (u : Q) (new_id : string) (w : Api.World) :
  RoomManager.joinRoom (Js.toUpperCase (Js.trim roomCode)) playerName u new_id w
  = RoomManager.joinRoom roomCode playerName u new_id w.
Proof. rewrite !joinRoom_run. cbn zeta. by rewrite normalise_idem. Qed.

Lemma joinRoom_total (roomCode playerName : string) (u : Q) (new_id : string)
    (w : Api.World) :
  ∃ result, (RoomManager.joinRoom roomCode playerName u new_id w).2 = Some result.
Proof.
  rewrite joinRoom_run. cbn zeta.
  repeat (case_match; try by eexists).
Qed.

(** X28.  The code typed on the home screen is trimmed and put in upper
    case three times on its way (by the screen, by [handleJoinRoom] and by
    [joinRoom]); this changes nothing: [handleJoinRoom] sends what
    [joinRoom] sends for the code as typed, and shows the lobby of the
    room with the new player exactly when [joinRoom] answers with them
    (and the room has an identity and a code); otherwise the screen stays
    and only the loading flag is cleared. *)
Theorem join_screen_follows_joinRoom (roomCode playerName : string) (u : Q)
    (new_id : string) (s : App.State) (w : Api.World) :
  let joined := RoomManager.joinRoom roomCode playerName u new_id w in
  App.handleJoinRoom (Js.toUpperCase (Js.trim roomCode)) playerName u new_id s w
  = App.handleJoinRoom roomCode playerName u new_id s w
  ∧ (App.handleJoinRoom roomCode playerName u new_id s w).1 = joined.1
  ∧ (App.handleJoinRoom roomCode playerName u new_id s w).2
    = Some match joined.2 with
           | Some (Some (r, p)) =>
               if negb (bool_decide (Room.id r = EmptyString))
                  && negb (bool_decide (Room.room_code r = EmptyString))
               then App.set_loading false
                      (App.set_appState App.Lobby
                         (App.set_currentPlayer (Some p) (App.set_room (Some r) s)))
               else App.set_loading false s
           | _ => App.set_loading false s
           end.
Proof.
  cbn zeta.
  assert (Hrun : ∀ code,
    App.handleJoinRoom code playerName u new_id s w
    = ((RoomManager.joinRoom roomCode playerName u new_id w).1,
       Some match (RoomManager.joinRoom roomCode playerName u new_id w).2 with
            | Some (Some (r, p)) =>
                if negb (bool_decide (Room.id r = EmptyString))
                   && negb (bool_decide (Room.room_code r = EmptyString))
                then App.set_loading false
                       (App.set_appState App.Lobby
                          (App.set_currentPlayer (Some p) (App.set_room (Some r) s)))
                else App.set_loading false s
            | _ => App.set_loading false s
            end) ∨ Js.toUpperCase (Js.trim code) ≠ Js.toUpperCase (Js.trim roomCode)).
  { intros code.
    destruct (decide (Js.toUpperCase (Js.trim code) = Js.toUpperCase (Js.trim roomCode)))
      as [Hcode | Hcode]; [left | by right].
    unfold App.handleJoinRoom, Api.try_catch, mbind, Api_bind, Api.bind, mret, Api_ret,
      Api.ret. cbv zeta.
    rewrite joinRoom_norm. rewrite <- (joinRoom_norm code), Hcode, joinRoom_norm.
    destruct (joinRoom_total roomCode playerName u new_id w) as [result Hres].
    destruct (RoomManager.joinRoom roomCode playerName u new_id w) as [w1 res].
    cbn [fst snd] in *. subst res.
    destruct result as [[r p] |]; [| done].
    by destruct (negb _ && negb _). }
  destruct (Hrun roomCode) as [Hraw | Hne]; [| done].
  destruct (Hrun (Js.toUpperCase (Js.trim roomCode))) as [Hnorm | Hne].
  - rewrite Hnorm, Hraw. by split_and!.
  - exfalso. apply Hne. apply normalise_idem.
Qed.

(** X29.  [createRoom] never rejects.  When it answers with a room and a
    player, the room is waiting, carries the host name and the limits
    asked for, and is the last room stored; the player is the host, in
    that room, with no score and a colour of the palette, and is the last
    player stored.  When it answers [null], no player has been stored, and
    the rooms are as before or have the new room at the end: a room whose
    host could not be stored is not taken back. *)
Theorem createRoom_outcomes (hostName : string) (minPlayers maxGames : Z)
    (random : nat → Q) (room_id player_id : string) (w : Api.World) :
  let out := RoomManager.createRoom hostName minPlayers maxGames random room_id player_id w in
  ∃ result,
    out.2 = Some result
    ∧ match result with
      | Some (room, player) =>
          room = {| Room.id := room_id;
                    Room.room_code :=
                      Js.toUpperCase (Js.trim (RoomManager.generateRoomCode random));
                    Room.host_name := hostName; Room.min_players := minPlayers;
                    Room.max_games := maxGames; Room.status := waiting |}
          ∧ Player.id player = player_id ∧ Player.room_id player = room_id
          ∧ Player.player_name player = hostName ∧ Player.total_score player = 0
          ∧ Player.ghost_color player ∈ RoomManager.palette
          ∧ Server.rooms (Api.db out.1) = Server.rooms (Api.db w) ++ [room]
          ∧ Server.players (Api.db out.1) = Server.players (Api.db w) ++ [player]
      | None =>
          Server.players (Api.db out.1) = Server.players (Api.db w)
          ∧ (Server.rooms (Api.db out.1) = Server.rooms (Api.db w)
             ∨ ∃ room, Server.rooms (Api.db out.1) = Server.rooms (Api.db w) ++ [room]
                       ∧ Room.id room = room_id)
      end
    ∧ Server.game_sessions (Api.db out.1) = Server.game_sessions (Api.db w).
Proof.
  cbn zeta. rewrite createRoom_run.
  assert (Hroom : ∀ db1 response,
            Server.post_room hostName minPlayers maxGames
              (RoomManager.generateRoomCode random) room_id (Api.db w) = (db1, response) →
            match response with
            | Server.Ok room =>
                room = {| Room.id := room_id;
                          Room.room_code :=
                            Js.toUpperCase (Js.trim (RoomManager.generateRoomCode random));
                          Room.host_name := hostName; Room.min_players := minPlayers;
                          Room.max_games := maxGames; Room.status := waiting |}
                ∧ db1 = Server.set_rooms (Server.rooms (Api.db w) ++ [room]) (Api.db w)
            | Server.Error _ => db1 = Api.db w
            end).
  { intros db1 response. unfold Server.post_room.
    destruct (_ || _); [by intros [= <- <-] |].
    destruct (negb _); [by intros [= <- <-] |].
    destruct (negb (bool_decide _) || _); by intros [= <- <-]. }
  destruct (Server.post_room _ _ _ _ _ _) as [db1 [room | e]] eqn:Epost;
    specialize (Hroom _ _ eq_refl); cbn beta iota in Hroom.
  2:{ subst db1. exists None. cbn [fst snd Api.db]. split_and!; try done. by left. }
  destruct Hroom as [Hrec Hdb1].
  destruct (Server.post_player _ _ _ _ _) as [db2 [player | e]] eqn:Eplayer.
  - destruct (post_player_players _ _ _ _ _ _ _ Eplayer) as (c & Hc & Hp & Hdb2).
    exists (Some (room, player)). cbn [fst snd Api.db].
    rewrite Hdb2, Hdb1, Hp, Hrec. cbn. split_and!; try done.
    by apply nth_elem_of in Hc.
  - apply post_player_error in Eplayer. subst db2.
    exists None. cbn [fst snd Api.db]. rewrite Hdb1. cbn. split_and!; try done.
    right. exists room. by rewrite Hrec.
Qed.
